(** * Session / token lifecycle of the Backend_Master service

    A shallow embedding of the controllers in
    [src/controllers/user.controller.js], of the [verifyJWT] middleware and
    of the [asyncHandler] wrapper, followed by the properties of the
    session subsystem.

    Every [await] on the Mongoose model is an event of a small free monad
    ([Prog]); the events are answered either by a sequential run against a
    store ([run]), or by a scheduler that interleaves two requests at
    their [await]s ([interleave]). *)

From Stdlib Require Import String Ascii ZArith List Bool Lia DecimalString.
Import ListNotations.
Local Open Scope string_scope.
Local Open Scope Z_scope.

Set Implicit Arguments.

(** ** JavaScript values and truthiness *)

(** The values an [error.code] property can hold. *)
Inductive JsVal : Type :=
| JUndefined
| JNull
| JBool (b : bool)
| JNum (n : Z)
| JStr (s : string).

(** [!!v] *)
Definition truthy (v : JsVal) : bool :=
  match v with
  | JUndefined | JNull => false
  | JBool b => b
  | JNum n => negb (n =? 0)
  | JStr s => negb (s =? "")%string
  end.

(** [a || b] *)
Definition js_or (a b : JsVal) : JsVal := if truthy a then a else b.

(** A string-or-undefined value: request fields, cookies, headers. *)
Definition truthy_str (v : option string) : bool :=
  match v with
  | Some s => negb (s =? "")%string
  | None => false
  end.

(** [a || b] on string-or-undefined values. *)
Definition or_str (a b : option string) : option string :=
  if truthy_str a then a else b.

(** [s.replace(pat, rep)] with a string pattern: the first occurrence of
    [pat] is replaced, the rest of [s] is kept. *)
Fixpoint drop (n : nat) (s : string) : string :=
  match n, s with
  | O, _ => s
  | S n', String _ s' => drop n' s'
  | S _, EmptyString => EmptyString
  end.

Fixpoint replace (pat rep s : string) : string :=
  if String.prefix pat s then rep ++ drop (String.length pat) s
  else match s with
       | EmptyString => EmptyString
       | String c s' => String c (replace pat rep s')
       end.

(** ** Errors *)

(** A thrown error object, by the two properties the code reads. *)
Record JsError : Type := mkError { code : JsVal; message : string }.

(** Modelled from the spec: utils/ApiError.js is not among the sources.
    Failures "carry a status classification [...] and a human-readable
    message" (section 6); the wrapper reads the classification from the
    [code] property. *)
Definition ApiError (status : Z) (msg : string) : JsError :=
  {| code := JNum status; message := msg |}.

(** Errors of the runtime and of the jsonwebtoken library carry no [code]. *)
Definition TypeError (msg : string) : JsError :=
  {| code := JUndefined; message := msg |}.
Definition JsonWebTokenError (msg : string) : JsError :=
  {| code := JUndefined; message := msg |}.
Definition TokenExpiredError : JsError :=
  {| code := JUndefined; message := "jwt expired" |}.

Definition Result (A : Type) : Type := (JsError + A)%type.

(** ** Data model *)

Definition ObjectId : Type := N.

(** A user document.  [password] and [refreshToken] are absent from a
    document fetched with [.select("-password -refreshToken")]; a stored
    document may lack [refreshToken] (never set, or [$unset]). *)
Record User : Type := mkUser {
  _id : ObjectId;
  username : string;
  email : string;
  fullname : string;
  password : option string;
  refreshToken : option string
}.

Definition set_refreshToken (u : User) (t : option string) : User :=
  {| _id := _id u; username := username u; email := email u;
     fullname := fullname u; password := password u; refreshToken := t |}.

(** [.select("-password -refreshToken")] *)
Definition select_safe (u : User) : User :=
  {| _id := _id u; username := username u; email := email u;
     fullname := fullname u; password := None; refreshToken := None |}.

(** The decoded payload of a token. *)
Record Payload : Type := mkPayload { sub_id : ObjectId; iat : Z; exp : Z }.

(** ** Requests and responses *)

Record Cookies : Type := mkCookies {
  c_accessToken : option string;
  c_refreshToken : option string
}.

Record ReqBody : Type := mkBody {
  b_username : option string;
  b_email : option string;
  b_password : option string;
  b_refreshToken : option string
}.

Record Request : Type := mkRequest {
  cookies : option Cookies;          (* req.cookies *)
  authorization : option string;     (* req.header("Authorization") *)
  body : option ReqBody;             (* req.body *)
  user : option User                 (* req.user *)
}.

Definition set_user (req : Request) (u : User) : Request :=
  {| cookies := cookies req; authorization := authorization req;
     body := body req; user := Some u |}.

Record CookieOptions : Type := mkOptions { httpOnly : bool; secure : bool }.

Inductive CookieAction : Type :=
| SetCookie (name value : string) (options : CookieOptions)
| ClearCookie (name : string) (options : CookieOptions).

Inductive Data : Type :=
| LoginData (user : option User) (accessToken refreshToken : string)
| TokenData (accessToken refreshToken : string)
| EmptyData.

(** The body of an answer: the object literal of the wrapper, or
    [new ApiResponse(statusCode, data, message)], kept by its arguments
    (utils/ApiResponse.js is not among the sources). *)
Inductive Json : Type :=
| ErrorBody (success : bool) (message : string)
| ApiResponse (statusCode : Z) (data : Data) (message : string).

Record Response : Type := mkResponse {
  status : JsVal;
  set_cookies : list CookieAction;
  json : Json
}.

(** What a handler does with a request: it answers, or it calls [next()]
    (with the request as it then is). *)
Inductive Effect : Type :=
| Respond (r : Response)
| Next (req : Request).

(** ** Store events and programs *)

Inductive StoreOp : Type -> Type :=
| FindById (id : ObjectId) : StoreOp (option User)
| FindOne (username email : option string) : StoreOp (option User)
| Save (u : User) : StoreOp unit
| UnsetRefreshToken (id : ObjectId) : StoreOp (option User).

Inductive Prog (A : Type) : Type :=
| Ret (a : A)
| Throw (e : JsError)
| Clock (k : Z -> Prog A)
| Await (X : Type) (op : StoreOp X) (k : Result X -> Prog A).

Arguments Ret {A} a.
Arguments Throw {A} e.
Arguments Clock {A} k.
Arguments Await {A X} op k.

Fixpoint bind {A B : Type} (p : Prog A) (f : A -> Prog B) : Prog B :=
  match p with
  | Ret a => f a
  | Throw e => Throw e
  | Clock k => Clock (fun t => bind (k t) f)
  | Await op k => Await op (fun r => bind (k r) f)
  end.

(** [try { p } catch (error) { h error }] *)
Fixpoint try_catch {A : Type} (p : Prog A) (h : JsError -> Prog A) : Prog A :=
  match p with
  | Ret a => Ret a
  | Throw e => h e
  | Clock k => Clock (fun t => try_catch (k t) h)
  | Await op k => Await op (fun r => try_catch (k r) h)
  end.

(** [await op]: a rejected promise is thrown at the [await]. *)
Definition await {X : Type} (op : StoreOp X) : Prog X :=
  Await op (fun r => match r with inl e => Throw e | inr x => Ret x end).

Definition clock : Prog Z := Clock (fun t => Ret t).

Declare Scope prog_scope.
Delimit Scope prog_scope with prog.
Notation "x <- p ;; q" := (bind p (fun x => q))
  (at level 61, p at next level, right associativity) : prog_scope.
Notation "p ;;; q" := (bind p (fun _ => q))
  (at level 61, right associativity) : prog_scope.
Local Open Scope prog_scope.

(** ** The store *)

Definition opt_eqb (a : option string) (b : string) : bool :=
  match a with Some s => (s =? b)%string | None => false end.

(** [{ $or: [{ username }, { email }] }] on one document. *)
Definition matches_or (uname mail : option string) (u : User) : bool :=
  opt_eqb uname (username u) || opt_eqb mail (email u).

Definition has_id (id : ObjectId) (u : User) : bool := (_id u =? id)%N.

(** Replace the first document with the given id. *)
Fixpoint update (id : ObjectId) (f : User -> User) (us : list User) : list User :=
  match us with
  | [] => []
  | u :: rest => if has_id id u then f u :: rest else u :: update id f rest
  end.

Definition DocumentNotFoundError : JsError :=
  {| code := JUndefined; message := "No document found for query" |}.

(** One store operation on the collection. *)
Definition exec {X : Type} (op : StoreOp X) (us : list User) : Result X * list User :=
  match op in StoreOp T return Result T * list User with
  | FindById id => (inr (find (has_id id) us), us)
  | FindOne uname mail => (inr (find (matches_or uname mail) us), us)
  | Save u =>
      match find (has_id (_id u)) us with
      | Some _ => (inr tt, update (_id u) (fun _ => u) us)
      | None => (inl DocumentNotFoundError, us)
      end
  | UnsetRefreshToken id =>
      let us' := update id (fun u => set_refreshToken u None) us in
      (inr (find (has_id id) us'), us')
  end.

(** The world a request runs in: the collection, the clock, and the faults
    of the store, one entry per operation still to come ([None], or no
    entry: the operation is served; [Some e]: it is rejected with [e] and
    the collection is left as it is). *)
Record World : Type := mkWorld {
  users : list User;
  now : Z;
  faults : list (option JsError)
}.

Definition serve {X : Type} (op : StoreOp X) (w : World) : Result X * World :=
  match faults w with
  | Some e :: fs => (inl e, {| users := users w; now := now w; faults := fs |})
  | None :: fs =>
      let (r, us) := exec op (users w) in
      (r, {| users := us; now := now w; faults := fs |})
  | [] =>
      let (r, us) := exec op (users w) in
      (r, {| users := us; now := now w; faults := [] |})
  end.

(** A request run to its end, alone. *)
Fixpoint run {A : Type} (p : Prog A) (w : World) : Result A * World :=
  match p with
  | Ret a => (inr a, w)
  | Throw e => (inl e, w)
  | Clock k => run (k (now w)) w
  | Await op k => let (r, w') := serve op w in run (k r) w'
  end.

(** ** Two requests in flight

    Node runs the synchronous code of a handler without interruption and
    gives the event loop to the other requests at each [await].  A
    schedule says, turn by turn, which of two requests has its pending
    store operation served ([true]: the first); when the schedule is
    used up the first request is run to its end, then the second. *)

(** The synchronous code up to the next [await], at clock [t]. *)
Fixpoint advance {A : Type} (p : Prog A) (t : Z) : Prog A :=
  match p with
  | Clock k => advance (k t) t
  | _ => p
  end.

(** One turn: the pending operation is served and the request runs on to
    its next [await].  A request that has ended stays as it is. *)
Definition turn {A : Type} (p : Prog A) (w : World) : Prog A * World :=
  match advance p (now w) with
  | Await op k => let (r, w') := serve op w in (advance (k r) (now w'), w')
  | p' => (p', w)
  end.

Fixpoint interleave {A B : Type} (sched : list bool) (p : Prog A) (q : Prog B)
  (w : World) : Result A * Result B * World :=
  match sched with
  | [] =>
      let (ra, w1) := run p w in
      let (rb, w2) := run q w1 in
      (ra, rb, w2)
  | true :: sched' => let (p', w') := turn p w in interleave sched' p' q w'
  | false :: sched' => let (q', w') := turn q w in interleave sched' p q' w'
  end.

(** ** Collaborators that are not in the sources *)

(** The jsonwebtoken library, the methods of the User model
    (models/user.model.js) and the configuration read from [process.env]
    are parameters of the controllers.  The clock that [jwt.sign] and
    [jwt.verify] read is made an argument. *)
Class Environment : Type := {
  (** [process.env.ACCESS_TOKEN_SECRET] *)
  ACCESS_TOKEN_SECRET : string;
  (** [process.env.REFRESH_TOKEN_SECRET] *)
  REFRESH_TOKEN_SECRET : string;
  (** [jwt.verify(token, secret)] at a given time: the decoded payload, or
      the error it throws. *)
  jwt_verify : string -> string -> Z -> Result Payload;
  (** [user.generateAccessToken()] at a given time *)
  generateAccessToken : User -> Z -> string;
  (** [user.generateRefreshToken()] at a given time *)
  generateRefreshToken : User -> Z -> string;
  (** [user.isPasswordCorrect(password)] *)
  isPasswordCorrect : User -> string -> bool;
  (** the error that [res.status(code)] throws for a [code] that it does
      not take; its text names the code and is not spelled out here *)
  status_error : JsVal -> JsError;
  (** [jwt.verify("", secret)] throws ("jwt must be provided"). *)
  jwt_verify_empty :
    forall (secret : string) (t : Z), exists e, jwt_verify "" secret t = inl e
}.

Definition str_of (v : option string) : string :=
  match v with Some s => s | None => "" end.

Definition options : CookieOptions := {| httpOnly := true; secure := true |}.

(** The status codes that [res.status(code)] takes: the integers from
    100 to 999.  For every other value it throws. *)
Definition valid_status (v : JsVal) : bool :=
  match v with
  | JNum n => (100 <=? n) && (n <=? 999)
  | _ => false
  end.

Section Controllers.

Context {E : Environment}.

(** ** utils/asyncHandler.js *)

(** [res.status(error.code || 500).json({success: false, message:
    error.message})]: the answer that is sent, or the error that
    [res.status] throws before anything is sent. *)
Definition answer_error (error : JsError) : Result Effect :=
  let st := js_or (code error) (JNum 500) in
  if valid_status st
  then inr (Respond {| status := st; set_cookies := [];
                       json := ErrorBody false (message error) |})
  else inl (status_error st).

(** An error that the [catch] block throws leaves the wrapper: the
    promise that the wrapper returns is rejected. *)
Definition asyncHandler (controller : Request -> Prog Effect) (req : Request)
  : Prog Effect :=
  try_catch (controller req)
    (fun error =>
       match answer_error error with
       | inr answer => Ret answer
       | inl thrown => Throw thrown
       end).

(** ** controllers/user.controller.js *)

Definition generateAccessTokenAndRefreshToken (userId : ObjectId)
  : Prog (string * string) :=
  try_catch
    (user <- await (FindById userId) ;;
     match user with
     | None =>
         Throw (TypeError "Cannot read properties of null (reading 'generateAccessToken')")
     | Some user =>
         t <- clock ;;
         let accessToken := generateAccessToken user t in
         t' <- clock ;;
         let refreshToken := generateRefreshToken user t' in
         let user := set_refreshToken user (Some refreshToken) in
         await (Save user) ;;;
         Ret (accessToken, refreshToken)
     end)
    (fun _ =>
       Throw (ApiError 500 "Something went wrong while generating access and refresh token")).

Definition loginUser_controller (req : Request) : Prog Effect :=
  match body req with
  | None =>
      Throw (TypeError "Cannot destructure property 'email' of 'req.body' as it is undefined.")
  | Some b =>
      let email := b_email b in
      let username := b_username b in
      let password := b_password b in
      if negb (truthy_str (or_str username email)) || negb (truthy_str password)
      then Throw (ApiError 400 "Username or email and password are required.")
      else
        user <- await (FindOne username email) ;;
        match user with
        | None => Throw (ApiError 404 "User does not exist.")
        | Some user =>
            let isPasswordValid := isPasswordCorrect user (str_of password) in
            if negb isPasswordValid
            then Throw (ApiError 401 "Invalid user credentials")
            else
              tokens <- generateAccessTokenAndRefreshToken (_id user) ;;
              let (accessToken, refreshToken) := tokens in
              loggedInUser <- await (FindById (_id user)) ;;
              let loggedInUser := option_map select_safe loggedInUser in
              Ret (Respond
                     {| status := JNum 200;
                        set_cookies :=
                          [SetCookie "accessToken" accessToken options;
                           SetCookie "refreshToken" refreshToken options];
                        json :=
                          ApiResponse 200
                            (LoginData loggedInUser accessToken refreshToken)
                            "User logged in Successfully." |})
        end
  end.

Definition loginUser : Request -> Prog Effect := asyncHandler loginUser_controller.

Definition logoutUser_controller (req : Request) : Prog Effect :=
  match user req with
  | None => Throw (ApiError 401 "Unauthorized request")
  | Some u =>
      (* [req.user._id] is an ObjectId, an object: [!req.user._id] is false *)
      await (UnsetRefreshToken (_id u)) ;;;
      Ret (Respond
             {| status := JNum 200;
                set_cookies :=
                  [ClearCookie "accessToken" options;
                   ClearCookie "refreshToken" options];
                json := ApiResponse 200 EmptyData "User logged out successfully." |})
  end.

Definition logoutUser : Request -> Prog Effect := asyncHandler logoutUser_controller.

(** [req.cookies.refreshToken || req.body.refreshToken] *)
Definition incomingRefreshToken (req : Request) : Result (option string) :=
  match cookies req with
  | None =>
      inl (TypeError "Cannot read properties of undefined (reading 'refreshToken')")
  | Some c =>
      if truthy_str (c_refreshToken c) then inr (c_refreshToken c)
      else match body req with
           | None =>
               inl (TypeError "Cannot read properties of undefined (reading 'refreshToken')")
           | Some b => inr (b_refreshToken b)
           end
  end.

(** The [try] block of [refreshAccessToken]. *)
Definition refresh_try (incomingRefreshToken : string) : Prog Effect :=
  t <- clock ;;
  match jwt_verify incomingRefreshToken REFRESH_TOKEN_SECRET t with
  | inl e => Throw e
  | inr decodedToken =>
      user <- await (FindById (sub_id decodedToken)) ;;
      match user with
      | None => Throw (ApiError 401 "Invalid refresh token")
      | Some user =>
          if negb (opt_eqb (refreshToken user) incomingRefreshToken)
          then Throw (ApiError 401 "Refresh token is expired or used.")
          else
            tokens <- generateAccessTokenAndRefreshToken (_id user) ;;
            let (accessToken, refreshToken) := tokens in
            Ret (Respond
                   {| status := JNum 200;
                      set_cookies :=
                        [SetCookie "accessToken" accessToken options;
                         SetCookie "refreshToken" refreshToken options];
                      json :=
                        ApiResponse 200 (TokenData accessToken refreshToken)
                          "Access Token refreshed" |})
      end
  end.

Definition refreshAccessToken_controller (req : Request) : Prog Effect :=
  match incomingRefreshToken req with
  | inl e => Throw e
  | inr incoming =>
      if negb (truthy_str incoming)
      then Throw (ApiError 401 "Unauthorized Request. Refresh Token missing.")
      else
        try_catch (refresh_try (str_of incoming))
          (fun error => Throw (ApiError 401 (message error)))
  end.

Definition refreshAccessToken : Request -> Prog Effect :=
  asyncHandler refreshAccessToken_controller.

(** ** The auth middleware *)

(** [req.cookies?.accessToken] *)
Definition cookie_token (req : Request) : option string :=
  match cookies req with Some c => c_accessToken c | None => None end.

(** [req.header("Authorization")?.replace("Bearer ", "")] *)
Definition header_token (req : Request) : option string :=
  option_map (replace "Bearer " "") (authorization req).

(** [req.cookies?.accessToken || req.header("Authorization")?.replace("Bearer ", "")] *)
Definition extract_token (req : Request) : option string :=
  or_str (cookie_token req) (header_token req).

(** [error.message || "Invalid access Token"] *)
Definition shown_message (error : JsError) : string :=
  if (message error =? "")%string then "Invalid access Token" else message error.

Definition verifyJWT_controller (req : Request) : Prog Effect :=
  try_catch
    (let token := extract_token req in
     if negb (truthy_str token)
     then Throw (ApiError 401 "Unauthorized request")
     else
       t <- clock ;;
       match jwt_verify (str_of token) ACCESS_TOKEN_SECRET t with
       | inl e => Throw e
       | inr decoded =>
           user <- await (FindById (sub_id decoded)) ;;
           match option_map select_safe user with
           | None => Throw (ApiError 401 "Invalid Access Token")
           | Some user => Ret (Next (set_user req user))
           end
       end)
    (fun error => Throw (ApiError 401 (shown_message error))).

Definition verifyJWT : Request -> Prog Effect := asyncHandler verifyJWT_controller.

End Controllers.

(** ** The answers of the handlers, by name *)

(** The error answer of the wrapper for a numeric status. *)
Definition rejection (st : Z) (msg : string) : Effect :=
  Respond {| status := JNum st; set_cookies := [];
             json := ErrorBody false msg |}.

(** The answer of a successful refresh. *)
Definition refreshed (accessToken refreshToken : string) : Effect :=
  Respond {| status := JNum 200;
             set_cookies := [SetCookie "accessToken" accessToken options;
                             SetCookie "refreshToken" refreshToken options];
             json := ApiResponse 200 (TokenData accessToken refreshToken)
                       "Access Token refreshed" |}.

(** The answer of a successful login. *)
Definition logged_in (u : option User) (accessToken refreshToken : string)
  : Effect :=
  Respond {| status := JNum 200;
             set_cookies := [SetCookie "accessToken" accessToken options;
                             SetCookie "refreshToken" refreshToken options];
             json := ApiResponse 200 (LoginData u accessToken refreshToken)
                       "User logged in Successfully." |}.

(** The answer of a logout. *)
Definition logged_out : Effect :=
  Respond {| status := JNum 200;
             set_cookies := [ClearCookie "accessToken" options;
                             ClearCookie "refreshToken" options];
             json := ApiResponse 200 EmptyData "User logged out successfully." |}.

(** The error thrown by [generateAccessTokenAndRefreshToken]. *)
Definition generation_failed : JsError :=
  ApiError 500 "Something went wrong while generating access and refresh token".

(** The rejection of a refresh token that is not the persisted one
    ([TokenReused] in the spec). *)
Definition token_reused : Effect :=
  rejection 401 "Refresh token is expired or used.".

(** [$unset: { refreshToken: "" }] on the document with the given id. *)
Definition unset_refreshToken (id : ObjectId) (us : list User) : list User :=
  update id (fun u => set_refreshToken u None) us.

(** The persisted refresh token of a user, if the user and the token are there. *)
Definition persisted (id : ObjectId) (us : list User) : option string :=
  match find (has_id id) us with
  | Some u => refreshToken u
  | None => None
  end.

(** ** Requests of the clients, worlds of the runs *)

(** A refresh request that presents [token] in the refresh-token cookie. *)
Definition refresh_request (token : string) : Request :=
  {| cookies := Some {| c_accessToken := None; c_refreshToken := Some token |};
     authorization := None;
     body := None;
     user := None |}.

(** A login request with a user name and a password in its body. *)
Definition login_request (name pw : string) : Request :=
  {| cookies := Some {| c_accessToken := None; c_refreshToken := None |};
     authorization := None;
     body := Some {| b_username := Some name; b_email := None;
                     b_password := Some pw; b_refreshToken := None |};
     user := None |}.

(** A request that carries [token] in the access-token cookie. *)
Definition cookie_request (token : string) : Request :=
  {| cookies := Some {| c_accessToken := Some token; c_refreshToken := None |};
     authorization := None;
     body := None;
     user := None |}.

(** A request without cookies and with an Authorization header. *)
Definition header_request (header : string) : Request :=
  {| cookies := Some {| c_accessToken := None; c_refreshToken := None |};
     authorization := Some header;
     body := None;
     user := None |}.

(** The same world at another time. *)
Definition at_time (w : World) (t : Z) : World :=
  {| users := users w; now := t; faults := faults w |}.

(** A world whose store serves every operation. *)
Definition world (us : list User) (t : Z) : World :=
  {| users := us; now := t; faults := [] |}.

(** ** A reference token service *)

(** Modelled from the spec: the Token Service (the jsonwebtoken calls in
    models/user.model.js are not among the sources).  A token carries the
    subject and the time claims and is bound to the secret of its kind; it
    is "a pure function of user identity + secret + clock" (section 2).
    Verification fails "if signature does not match the secret for that
    kind", or "if current time exceeds the expiry claim" (section 4.1).
    The text of a token is [secret|subject|iat|exp], numbers in decimal;
    the messages of the errors are those of jsonwebtoken. *)
Module Reference.

Definition dec (n : N) : string := NilEmpty.string_of_uint (N.to_uint n).

Definition undec (s : string) : option N :=
  option_map N.of_uint (NilEmpty.uint_of_string s).

Fixpoint fields (s : string) : list string :=
  match s with
  | EmptyString => [EmptyString]
  | String c s' =>
      if (c =? "|")%char then EmptyString :: fields s'
      else match fields s' with
           | f :: fs => String c f :: fs
           | [] => [String c EmptyString]
           end
  end.

Definition sign (secret : string) (id : ObjectId) (t ttl : Z) : string :=
  secret ++ "|" ++ dec id ++ "|" ++ dec (Z.to_N t) ++ "|" ++ dec (Z.to_N (t + ttl)).

Definition verify (token secret : string) (t : Z) : Result Payload :=
  match fields token with
  | [k; i; a; e] =>
      match undec i, undec a, undec e with
      | Some i, Some a, Some e =>
          if negb (k =? secret)%string then inl (JsonWebTokenError "invalid signature")
          else if Z.of_N e <? t then inl TokenExpiredError
          else inr {| sub_id := i; iat := Z.of_N a; exp := Z.of_N e |}
      | _, _, _ => inl (JsonWebTokenError "jwt malformed")
      end
  | _ => inl (JsonWebTokenError "jwt malformed")
  end.

(** Passwords are kept in clear in the reference store. *)
Definition check (u : User) (pw : string) : bool := opt_eqb (password u) pw.

(** The errors of [res.status], with the texts of Express 5 less the
    code that they name. *)
Definition invalid_status (v : JsVal) : JsError :=
  match v with
  | JNum _ =>
      {| code := JUndefined;
         message := "Invalid status code. Status code must be greater than 99 and less than 1000." |}
  | _ =>
      {| code := JUndefined;
         message := "Invalid status code. Status code must be an integer." |}
  end.

#[export] Instance env : Environment := {|
  ACCESS_TOKEN_SECRET := "access-secret";
  REFRESH_TOKEN_SECRET := "refresh-secret";
  jwt_verify := verify;
  generateAccessToken := fun u t => sign "access-secret" (_id u) t 900;
  generateRefreshToken := fun u t => sign "refresh-secret" (_id u) t 864000;
  isPasswordCorrect := check;
  status_error := invalid_status;
  jwt_verify_empty := fun _ _ => ex_intro _ _ eq_refl
|}.

Definition alice : User :=
  {| _id := 1%N; username := "alice"; email := "alice@example.com";
     fullname := "Alice"; password := Some "s3cret"; refreshToken := None |}.

Definition bob : User :=
  {| _id := 2%N; username := "bob"; email := "bob@example.com";
     fullname := "Bob"; password := Some "hunter2"; refreshToken := None |}.

End Reference.

(** The subject for which a refresh token verifies at a given time, if it
    does. *)
Definition subject {E : Environment} (token : string) (t : Z) : option ObjectId :=
  match jwt_verify token REFRESH_TOKEN_SECRET t with
  | inr decoded => Some (sub_id decoded)
  | inl _ => None
  end.

(** ** The stages of a refresh in flight

    Between its [await]s a refresh that presents [presented], a token
    that verifies for the subject [id] at the time [n], is in one of four
    stages: it has not yet read the user; it has compared the token with
    the persisted one and found them equal; it has read the user again,
    made the new pair and is about to save; it has answered.  Each stage
    is given by what the next turn of the request does. *)
Section Stages.

Context {E : Environment}.
Variables (presented : string) (id : ObjectId) (n : Z).

Inductive Stage : Type :=
| Start
| Checked
| Saving (u' : User) (a r : string)
| Finished (eff : Effect).

Definition finished (eff : Effect) (p : Prog Effect) : Prop := p = Ret eff.

Definition saving (u' : User) (a r : string) (p : Prog Effect) : Prop :=
  forall (w : World) (d : User),
    faults w = [] -> now w = n -> find (has_id id) (users w) = Some d ->
    exists p',
      turn p w = (p', {| users := update id (fun _ => u') (users w);
                         now := n; faults := [] |})
      /\ finished (refreshed a r) p'.

Definition checked (p : Prog Effect) : Prop :=
  forall (w : World) (d : User),
    faults w = [] -> now w = n -> find (has_id id) (users w) = Some d ->
    exists p',
      turn p w = (p', w)
      /\ saving (set_refreshToken d (Some (generateRefreshToken d n)))
                (generateAccessToken d n) (generateRefreshToken d n) p'.

Definition start (p : Prog Effect) : Prop :=
  forall (w : World) (d : User),
    faults w = [] -> now w = n -> find (has_id id) (users w) = Some d ->
    exists p',
      turn p w = (p', w)
      /\ if opt_eqb (refreshToken d) presented then checked p'
         else finished token_reused p'.

(** An answer of a refresh: the new pair, or the rejection of a token
    that is not the persisted one. *)
Definition answer (eff : Effect) : Prop :=
  eff = token_reused \/ exists a r, eff = refreshed a r.

Definition at_stage (s : Stage) (p : Prog Effect) : Prop :=
  match s with
  | Start => start p
  | Checked => checked p
  | Saving u' a r => saving u' a r p /\ refreshToken u' = Some r /\ _id u' = id
  | Finished eff => finished eff p /\ answer eff
  end.

(** The request has found its token to be the persisted one. *)
Definition passed (s : Stage) : Prop :=
  match s with
  | Start => False
  | Checked | Saving _ _ _ => True
  | Finished eff => exists a r, eff = refreshed a r
  end.

(** The request has answered with the refresh token [r]. *)
Definition issued (s : Stage) (r : string) : Prop :=
  exists a, s = Finished (refreshed a r).

(** The turns a request at a stage still takes. *)
Definition rank (s : Stage) : nat :=
  match s with
  | Start => 3
  | Checked => 2
  | Saving _ _ _ => 1
  | Finished _ => 0
  end.

(** What holds of two refreshes of the same token and of the store while
    they are in flight. *)
Definition in_flight (sa sb : Stage) (w : World) : Prop :=
  faults w = [] /\ now w = n
  /\ (exists d, find (has_id id) (users w) = Some d)
  /\ (passed sa \/ passed sb
      \/ (sa = Start /\ sb = Start
          /\ persisted id (users w) = Some presented))
  /\ ((exists r, issued sa r \/ issued sb r) ->
      exists r, (issued sa r \/ issued sb r)
                /\ persisted id (users w) = Some r).

(** Where two refreshes in flight end. *)
Definition ends (sa sb : Stage) (out : Result Effect * Result Effect * World)
  : Prop :=
  exists (ea eb : Effect) (w' : World),
    out = (inr ea, inr eb, w')
    /\ answer ea /\ answer eb
    /\ in_flight (Finished ea) (Finished eb) w'
    /\ (passed sa -> passed (Finished ea))
    /\ (passed sb -> passed (Finished eb)).

End Stages.

(** ** What the session handlers leave alone *)

(** A user document apart from its refresh token. *)
Definition account (u : User) : User := set_refreshToken u None.

(** The same users, with the same ids, names, emails and passwords, in
    the same order: the collections differ at most in refresh tokens. *)
Definition same_accounts (us us' : list User) : Prop :=
  map account us' = map account us.

(** An answer that is not a success. *)
Definition is_rejection (eff : Effect) : Prop :=
  exists (st : JsVal) (msg : string),
    eff = Respond {| status := st; set_cookies := [];
                     json := ErrorBody false msg |}.

(** A program that, whatever the world, changes no account. *)
Definition keeps_accounts {A : Type} (p : Prog A) : Prop :=
  forall w : World, same_accounts (users w) (users (snd (run p w))).

(** * Registration: [registerUser] and [uploadOnCloudinary] *)

(** ** The request of a registration *)

Record RegisterBody : Type := mkRegisterBody {
  r_username : option string;
  r_email : option string;
  r_fullname : option string;
  r_password : option string
}.

(** A file that multer has received: [file.path]. *)
Record UploadedFile : Type := mkFile { f_path : option string }.

(** [req.files]: the files received under each field name. *)
Record Files : Type := mkFiles {
  f_avatar : option (list UploadedFile);
  f_coverImage : option (list UploadedFile)
}.

Record RegisterRequest : Type := mkRegisterRequest {
  reg_body : option RegisterBody;    (* req.body *)
  reg_files : option Files           (* req.files *)
}.

(** [req.files?.<field>?.[0]?.path] *)
Definition first_path (field : option (list UploadedFile)) : option string :=
  match field with
  | Some (f :: _) => f_path f
  | _ => None
  end.

(** [req.files?.avatar?.[0]?.path] and [req.files?.coverImage?.[0]?.path] *)
Definition avatarLocalPath (req : RegisterRequest) : option string :=
  first_path (match reg_files req with
              | Some fs => f_avatar fs | None => None end).

Definition coverImageLocalPath (req : RegisterRequest) : option string :=
  first_path (match reg_files req with
              | Some fs => f_coverImage fs | None => None end).

(** ** Documents with their pictures *)

(** The answer of [cloudinary.uploader.upload], by the property read. *)
Record UploadResponse : Type := mkUpload { url : string }.

(** The argument of [User.create]. *)
Record NewUser : Type := mkNewUser {
  n_fullname : option string;
  n_avatar : string;
  n_coverImage : string;
  n_email : option string;
  n_password : option string;
  n_username : string
}.

(** A user document with the two fields that the session handlers never
    read. *)
Record Document : Type := mkDocument {
  d_user : User;
  d_avatar : string;
  d_coverImage : string
}.

(** [.select("-password -refreshToken")] *)
Definition select_document (d : Document) : Document :=
  {| d_user := select_safe (d_user d); d_avatar := d_avatar d;
     d_coverImage := d_coverImage d |}.

Inductive RegisterJson : Type :=
| RegisterError (success : bool) (message : string)
| RegisterResponse (statusCode : Z) (data : Document) (message : string).

Record RegisterAnswer : Type := mkRegisterAnswer {
  r_status : JsVal;
  r_json : RegisterJson
}.

(** ** The site: store, pictures, local disk, cloud, console *)

Inductive SiteOp : Type -> Type :=
| OnStore (X : Type) (op : StoreOp X) : SiteOp X
| Create (doc : NewUser) : SiteOp User
| FindDocument (id : ObjectId) : SiteOp (option Document)
| CloudUpload (path : string) : SiteOp UploadResponse
| UnlinkSync (path : string) : SiteOp unit
| ConsoleError (msg : string) : SiteOp unit.

Arguments OnStore {X} op.

Inductive Task (A : Type) : Type :=
| Done (a : A)
| Raise (e : JsError)
| Do (X : Type) (op : SiteOp X) (k : Result X -> Task A).

Arguments Done {A} a.
Arguments Raise {A} e.
Arguments Do {A X} op k.

Fixpoint bind_task {A B : Type} (p : Task A) (f : A -> Task B) : Task B :=
  match p with
  | Done a => f a
  | Raise e => Raise e
  | Do op k => Do op (fun r => bind_task (k r) f)
  end.

(** [try { p } catch (error) { h error }] *)
Fixpoint try_task {A : Type} (p : Task A) (h : JsError -> Task A) : Task A :=
  match p with
  | Done a => Done a
  | Raise e => h e
  | Do op k => Do op (fun r => try_task (k r) h)
  end.

(** An operation whose failure is thrown where it is called. *)
Definition perform {X : Type} (op : SiteOp X) : Task X :=
  Do op (fun r => match r with inl e => Raise e | inr x => Done x end).

Declare Scope task_scope.
Delimit Scope task_scope with task.
Notation "x <- p ;; q" := (bind_task p (fun x => q))
  (at level 61, p at next level, right associativity) : task_scope.
Notation "p ;;; q" := (bind_task p (fun _ => q))
  (at level 61, right associativity) : task_scope.

Record Site : Type := mkSite {
  db : World;                                  (* the users, the store's faults *)
  pictures : list (ObjectId * (string * string));
                                   (* avatar and coverImage by user, newest first *)
  disk : list string;                          (* the local files *)
  uploaded : list string;                      (* what the cloud has received *)
  console : list string                        (* what was logged *)
}.

Definition with_db (s : Site) (w : World) : Site :=
  {| db := w; pictures := pictures s; disk := disk s;
     uploaded := uploaded s; console := console s |}.

(** What registration needs from outside the sources: the methods
    [trim] and [toLowerCase] of the strings of the language, which work
    on Unicode text, node's [path.resolve], the answer of the cloud for a
    file, and, of the User model (models/user.model.js), the hashing of
    the password before it is saved and the validators and unique indexes
    of the schema. *)
Class Platform : Type := {
  (** [s.trim()]: [s] less the white space and the line terminators at
      its two ends, by the Unicode tables of the language *)
  trim : string -> string;
  (** [s.toLowerCase()], by the Unicode case mapping of the language *)
  toLowerCase : string -> string;
  (** [path.resolve(localFilePath)] *)
  resolve : string -> string;
  (** [cloudinary.uploader.upload(resolvedPath, ...)]: the response, or
      the rejection *)
  cloud : string -> Result UploadResponse;
  (** the password as the model stores it *)
  hashed : string -> string;
  (** the error with which the model refuses a new document, if it does *)
  refuses : list User -> NewUser -> option JsError;
  (** [''.trim()] is the empty string. *)
  trim_empty : trim EmptyString = EmptyString
}.

(** A new ObjectId: one that no document has. *)
Definition fresh (us : list User) : ObjectId :=
  N.succ (fold_right N.max 0%N (map _id us)).

Definition ValidationError (msg : string) : JsError :=
  {| code := JUndefined; message := msg |}.

(** [fs.unlinkSync] of a file that is not there. *)
Definition ENOENT (path : string) : JsError :=
  {| code := JStr "ENOENT";
     message := "ENOENT: no such file or directory, unlink '" ++ path ++ "'" |}.

Fixpoint remove_file (path : string) (files : list string) : list string :=
  match files with
  | [] => []
  | f :: rest => if (f =? path)%string then rest else f :: remove_file path rest
  end.

Definition has_file (path : string) (files : list string) : bool :=
  existsb (fun f => (f =? path)%string) files.

(** The site after a line was logged. *)
Definition logged (s : Site) (line : string) : Site :=
  {| db := db s; pictures := pictures s; disk := disk s;
     uploaded := uploaded s; console := console s ++ [line] |}.

(** The site after a file was uploaded, and after its local copy was
    removed as well. *)
Definition received (s : Site) (path : string) : Site :=
  {| db := db s; pictures := pictures s; disk := disk s;
     uploaded := uploaded s ++ [path]; console := console s |}.

Definition moved (s : Site) (path : string) : Site :=
  {| db := db s; pictures := pictures s; disk := remove_file path (disk s);
     uploaded := uploaded s ++ [path]; console := console s |}.

Definition picture_of (id : ObjectId) (ps : list (ObjectId * (string * string)))
  : string * string :=
  match find (fun p => (fst p =? id)%N) ps with
  | Some p => snd p
  | None => (EmptyString, EmptyString)
  end.

(** The document with the given id, as the collection holds it. *)
Definition document (id : ObjectId) (s : Site) : option Document :=
  option_map
    (fun u => {| d_user := u;
                 d_avatar := fst (picture_of id (pictures s));
                 d_coverImage := snd (picture_of id (pictures s)) |})
    (find (has_id id) (users (db s))).

(** What a registration may do to the users: nothing, or add one, under
    a new id and without a refresh token. *)
Definition adds_at_most_one (s s' : Site) : Prop :=
  users (db s') = users (db s)
  \/ exists u : User,
       users (db s') = (users (db s) ++ [u])%list
       /\ find (has_id (_id u)) (users (db s)) = None
       /\ refreshToken u = None.

Section Registration.

Context {E : Environment} {P : Platform}.

(** [field?.trim() === ""] *)
Definition is_blank (field : option string) : bool :=
  match field with
  | Some s => (trim s =? "")%string
  | None => false
  end.

(** Modelled from the spec: [User.create(doc)] of the User model
    (models/user.model.js is not among the sources).  A user has an
    "identity (opaque unique id)", a user name, an email and a "password
    (stored as a one-way hash, never returned to callers)", and no refresh
    token before the first login: "absence means no active session"
    (section 3).  The document gets a new id, the hashed password and no
    refresh token; the model may refuse it, and refuses one without a full
    name, an email or a password. *)
Definition create (doc : NewUser) (s : Site) : Result User * Site :=
  let w := db s in
  match refuses (users w) doc with
  | Some e => (inl e, s)
  | None =>
      match n_fullname doc, n_email doc, n_password doc with
      | Some name, Some mail, Some pw =>
          let u := {| _id := fresh (users w); username := n_username doc;
                      email := mail; fullname := name;
                      password := Some (hashed pw); refreshToken := None |} in
          (inr u,
           {| db := {| users := users w ++ [u]; now := now w;
                          faults := faults w |};
              pictures := (_id u, (n_avatar doc, n_coverImage doc)) :: pictures s;
              disk := disk s; uploaded := uploaded s; console := console s |})
      | _, _, _ =>
          (inl (ValidationError "User validation failed"), s)
      end
  end.

(** One operation on the site.  The operations on the store take the
    next fault of the store, as [serve] does. *)
Definition site_exec {X : Type} (op : SiteOp X) (s : Site) : Result X * Site :=
  match op in SiteOp T return Result T * Site with
  | OnStore op' =>
      let (r, w') := serve op' (db s) in (r, with_db s w')
  | Create doc =>
      let w := db s in
      let s' := with_db s {| users := users w; now := now w;
                                faults := tl (faults w) |} in
      match hd None (faults w) with
      | Some e => (inl e, s')
      | None => create doc s'
      end
  | FindDocument id =>
      let w := db s in
      let s' := with_db s {| users := users w; now := now w;
                                faults := tl (faults w) |} in
      match hd None (faults w) with
      | Some e => (inl e, s')
      | None =>
          (inr (document id s), s')
      end
  | CloudUpload path =>
      match cloud path with
      | inl e => (inl e, s)
      | inr response =>
          (inr response,
           {| db := db s; pictures := pictures s; disk := disk s;
              uploaded := uploaded s ++ [path]; console := console s |})
      end
  | UnlinkSync path =>
      if has_file path (disk s)
      then (inr tt,
            {| db := db s; pictures := pictures s;
               disk := remove_file path (disk s);
               uploaded := uploaded s; console := console s |})
      else (inl (ENOENT path), s)
  | ConsoleError msg =>
      (inr tt,
       {| db := db s; pictures := pictures s; disk := disk s;
          uploaded := uploaded s; console := console s ++ [msg] |})
  end.

Fixpoint run_task {A : Type} (p : Task A) (s : Site) : Result A * Site :=
  match p with
  | Done a => (inr a, s)
  | Raise e => (inl e, s)
  | Do op k => let (r, s') := site_exec op s in run_task (k r) s'
  end.

Local Open Scope task_scope.

(** ** utils/cloudinary.js *)

(** [resolvedPath], read where no such name is in scope. *)
Definition ReferenceError : JsError :=
  {| code := JUndefined; message := "resolvedPath is not defined" |}.

(** [resolvedPath] is declared with [const] inside the [try] block: the
    [catch] block reads a name that is not in scope, which throws before
    [fs.unlinkSync] is called and before [null] is returned. *)
Definition uploadOnCloudinary (localFilePath : option string)
  : Task (option UploadResponse) :=
  try_task
    (if negb (truthy_str localFilePath) then Done None
     else
       let resolvedPath := resolve (str_of localFilePath) in
       response <- perform (CloudUpload resolvedPath) ;;
       perform (UnlinkSync resolvedPath) ;;;
       Done (Some response))
    (fun error =>
       perform (ConsoleError ("Cloudinary upload failed: " ++ message error)) ;;;
       resolvedPath <- Raise ReferenceError ;;
       perform (UnlinkSync resolvedPath) ;;;
       Done None).

(** ** [asyncHandler] around a controller that reaches beyond the store *)

(** [res.status(error.code || 500).json({success: false, message:
    error.message})], as in [answer_error]. *)
Definition answer_error_site (error : JsError) : Result RegisterAnswer :=
  let st := js_or (code error) (JNum 500) in
  if valid_status st
  then inr {| r_status := st; r_json := RegisterError false (message error) |}
  else inl (status_error st).

Definition asyncHandler_site (controller : RegisterRequest -> Task RegisterAnswer)
  (req : RegisterRequest) : Task RegisterAnswer :=
  try_task (controller req)
    (fun error =>
       match answer_error_site error with
       | inr answer => Done answer
       | inl thrown => Raise thrown
       end).

(** ** controllers/user.controller.js: [registerUser] *)

Definition registerUser_controller (req : RegisterRequest) : Task RegisterAnswer :=
  match reg_body req with
  | None =>
      Raise (TypeError "Cannot destructure property 'username' of 'req.body' as it is undefined.")
  | Some b =>
      let username := r_username b in
      let email := r_email b in
      let fullname := r_fullname b in
      let password := r_password b in
      if existsb is_blank [fullname; email; username; password]
      then Raise (ApiError 400 "All fields are required.")
      else
        existedUser <- perform (OnStore (FindOne username email)) ;;
        match existedUser with
        | Some _ => Raise (ApiError 409 "User with email or username already exists.")
        | None =>
            let avatarLocalPath :=
              first_path (match reg_files req with
                          | Some fs => f_avatar fs | None => None end) in
            let coverImageLocalPath :=
              first_path (match reg_files req with
                          | Some fs => f_coverImage fs | None => None end) in
            if negb (truthy_str avatarLocalPath)
            then Raise (ApiError 400 "Avatar file is required.")
            else
              avatar <- uploadOnCloudinary avatarLocalPath ;;
              coverImage <- uploadOnCloudinary coverImageLocalPath ;;
              match avatar with
              | None => Raise (ApiError 400 "Avatar file is required.")
              | Some avatar =>
                  match username with
                  | None =>
                      Raise (TypeError "Cannot read properties of undefined (reading 'toLowerCase')")
                  | Some username =>
                      user <- perform
                                (Create
                                   {| n_fullname := fullname;
                                      n_avatar := url avatar;
                                      n_coverImage :=
                                        str_of (or_str (option_map url coverImage)
                                                       (Some EmptyString));
                                      n_email := email;
                                      n_password := password;
                                      n_username := toLowerCase username |}) ;;
                      createdUser <- perform (FindDocument (_id user)) ;;
                      match option_map select_document createdUser with
                      | None =>
                          Raise (ApiError 500 "Something went wrong while registering a user.")
                      | Some createdUser =>
                          Done {| r_status := JNum 201;
                                  r_json :=
                                    RegisterResponse 200 createdUser
                                      "User registerd successfully." |}
                      end
                  end
              end
        end
  end.

Definition registerUser : RegisterRequest -> Task RegisterAnswer :=
  asyncHandler_site registerUser_controller.

(** The answer of [asyncHandler_site] to an error whose code is a status
    from 100 to 999. *)
Definition refused (st : Z) (msg : string) : RegisterAnswer :=
  {| r_status := JNum st; r_json := RegisterError false msg |}.

(** The document that [registerUser] stores for a body with all its
    fields. *)
Definition registered (us : list User) (uname mail name pw : string) : User :=
  {| _id := fresh us; username := toLowerCase uname; email := mail;
     fullname := name; password := Some (hashed pw); refreshToken := None |}.

(** The site after [u] was created with its pictures. *)
Definition enrolled (s : Site) (u : User) (avatar coverImage : string) : Site :=
  {| db := {| users := users (db s) ++ [u]; now := now (db s);
              faults := faults (db s) |};
     pictures := (_id u, (avatar, coverImage)) :: pictures s;
     disk := disk s; uploaded := uploaded s; console := console s |}.

(** A login request with an email and a password in its body. *)
Definition email_login (mail pw : string) : Request :=
  {| cookies := Some {| c_accessToken := None; c_refreshToken := None |};
     authorization := None;
     body := Some {| b_username := None; b_email := Some mail;
                     b_password := Some pw; b_refreshToken := None |};
     user := None |}.

(** The answer to a registration that went through. *)
Definition welcomed (u : User) (avatar coverImage : string) : RegisterAnswer :=
  {| r_status := JNum 201;
     r_json :=
       RegisterResponse 200
         {| d_user := select_safe u; d_avatar := avatar;
            d_coverImage := coverImage |}
         "User registerd successfully." |}.

End Registration.

(** ** A reference platform *)

(** The reference platform handles ASCII text, on which its [trim] and
    its [toLowerCase] are those of the language.  Files live under
    [/srv/app]; the cloud rejects the files whose name starts with
    [broken] and serves the others under its own address; the model
    keeps the passwords in clear, as the check of the reference token
    service expects them, and refuses a user name that is taken. *)
Module ReferenceSite.

(** Tab, line feed, vertical tab, form feed, carriage return, space. *)
Definition is_space (c : ascii) : bool :=
  let n := nat_of_ascii c in
  ((9 <=? n) && (n <=? 13) || (n =? 32))%nat.

Fixpoint trimStart_ascii (s : string) : string :=
  match s with
  | EmptyString => EmptyString
  | String c s' => if is_space c then trimStart_ascii s' else s
  end.

Fixpoint trimEnd_ascii (s : string) : string :=
  match s with
  | EmptyString => EmptyString
  | String c s' =>
      match trimEnd_ascii s' with
      | EmptyString => if is_space c then EmptyString else String c EmptyString
      | rest => String c rest
      end
  end.

Definition trim_ascii (s : string) : string :=
  trimEnd_ascii (trimStart_ascii s).

Definition lower (c : ascii) : ascii :=
  let n := nat_of_ascii c in
  if ((65 <=? n) && (n <=? 90))%nat then ascii_of_nat (n + 32) else c.

Fixpoint toLowerCase_ascii (s : string) : string :=
  match s with
  | EmptyString => EmptyString
  | String c s' => String (lower c) (toLowerCase_ascii s')
  end.

Definition RequestTimeout : JsError :=
  {| code := JNum 499; message := "Request Timeout" |}.

Definition DuplicateKey : JsError :=
  {| code := JNum 11000; message := "E11000 duplicate key error collection" |}.

#[export] Instance platform : Platform := {|
  trim := trim_ascii;
  toLowerCase := toLowerCase_ascii;
  resolve := fun p => "/srv/app/" ++ p;
  cloud := fun p =>
    if String.prefix "/srv/app/broken" p then inl RequestTimeout
    else inr {| url := "http://res.cloudinary.com/demo" ++ p |};
  hashed := fun pw => pw;
  refuses := fun us doc =>
    if existsb (fun u => (username u =? n_username doc)%string) us
    then Some DuplicateKey else None;
  trim_empty := eq_refl
|}.

(** A site with the reference users, two received files and no faults. *)
Definition site : Site :=
  {| db := world [Reference.alice; Reference.bob] 100;
     pictures := [];
     disk := ["/srv/app/carol.png"; "/srv/app/cover.png"; "/srv/app/broken.png"];
     uploaded := [];
     console := [] |}.

Definition carol (uname : option string) : RegisterBody :=
  {| r_username := uname; r_email := Some "carol@example.com";
     r_fullname := Some "Carol"; r_password := Some "pa55word" |}.

(** A registration with the files received under the two field names. *)
Definition register_request (b : RegisterBody) (avatar cover : list string)
  : RegisterRequest :=
  {| reg_body := Some b;
     reg_files :=
       Some {| f_avatar := Some (map (fun p => {| f_path := Some p |}) avatar);
               f_coverImage :=
                 Some (map (fun p => {| f_path := Some p |}) cover) |} |}.

End ReferenceSite.

(** * Properties *)

(** ** Running programs *)

Lemma run_bind (A B : Type) (p : Prog A) (f : A -> Prog B) (w : World) :
  run (bind p f) w =
  match run p w with
  | (inl e, w') => (inl e, w')
  | (inr a, w') => run (f a) w'
  end.
Proof.
  revert w. induction p as [a | e | k IH | X op k IH]; intros w; simpl.
  - reflexivity.
  - reflexivity.
  - apply IH.
  - destruct (serve op w) as [r w']. apply IH.
Qed.

Lemma run_try_catch (A : Type) (p : Prog A) (h : JsError -> Prog A) (w : World) :
  run (try_catch p h) w =
  match run p w with
  | (inl e, w') => run (h e) w'
  | (inr a, w') => (inr a, w')
  end.
Proof.
  revert w. induction p as [a | e | k IH | X op k IH]; intros w; simpl.
  - reflexivity.
  - reflexivity.
  - apply IH.
  - destruct (serve op w) as [r w']. apply IH.
Qed.

Lemma run_await (X : Type) (op : StoreOp X) (w : World) :
  run (await op) w = serve op w.
Proof.
  unfold await. simpl. destruct (serve op w) as [[e | x] w']; reflexivity.
Qed.

Lemma run_clock (w : World) : run clock w = (inr (now w), w).
Proof. reflexivity. Qed.

(** The clock does not move while a request runs. *)
Lemma serve_now (X : Type) (op : StoreOp X) (w : World) :
  now (snd (serve op w)) = now w.
Proof.
  unfold serve. destruct (faults w) as [| [e |] fs]; simpl;
    try destruct (exec op (users w)); reflexivity.
Qed.

Lemma run_now (A : Type) (p : Prog A) (w : World) : now (snd (run p w)) = now w.
Proof.
  revert w. induction p as [a | e | k IH | X op k IH]; intros w; simpl; auto.
  pose proof (serve_now op w) as H. destruct (serve op w) as [r w']. simpl in H.
  rewrite IH. exact H.
Qed.

(** A store without pending faults serves the operation and stays so. *)
Lemma serve_healthy (X : Type) (op : StoreOp X) (w : World) :
  faults w = [] ->
  serve op w =
  (fst (exec op (users w)),
   {| users := snd (exec op (users w)); now := now w; faults := [] |}).
Proof.
  intros H. unfold serve. rewrite H. destruct (exec op (users w)); reflexivity.
Qed.

(** A rejected operation leaves the collection as it is. *)
Lemma serve_fault (X : Type) (op : StoreOp X) (w : World) (e : JsError)
  (fs : list (option JsError)) :
  faults w = Some e :: fs ->
  serve op w = (inl e, {| users := users w; now := now w; faults := fs |}).
Proof. intros H. unfold serve. rewrite H. reflexivity. Qed.

(** An operation, by the fault that is due. *)
Lemma serve_hd (X : Type) (op : StoreOp X) (w : World) :
  serve op w =
  match hd None (faults w) with
  | Some e => (inl e, {| users := users w; now := now w; faults := tl (faults w) |})
  | None =>
      (fst (exec op (users w)),
       {| users := snd (exec op (users w)); now := now w;
          faults := tl (faults w) |})
  end.
Proof.
  unfold serve. destruct (faults w) as [| [e |] fs]; simpl;
    try destruct (exec op (users w)); reflexivity.
Qed.

(** ** The collection *)

Lemma has_id_eq (id : ObjectId) (u : User) : has_id id u = true -> _id u = id.
Proof. unfold has_id. apply N.eqb_eq. Qed.

Lemma find_has_id (id : ObjectId) (us : list User) (u : User) :
  find (has_id id) us = Some u -> _id u = id.
Proof. intros H. apply find_some in H. apply has_id_eq, H. Qed.

Lemma find_update (id : ObjectId) (f : User -> User) (us : list User) :
  (forall u, _id (f u) = _id u) ->
  find (has_id id) (update id f us) = option_map f (find (has_id id) us).
Proof.
  intros Hf. induction us as [| u rest IH]; simpl.
  - reflexivity.
  - destruct (has_id id u) eqn:Hu; simpl.
    + unfold has_id in *. rewrite Hf, Hu. reflexivity.
    + rewrite Hu. exact IH.
Qed.

Lemma find_update_other (id id' : ObjectId) (f : User -> User) (us : list User) :
  (forall u, _id (f u) = _id u) -> id' <> id ->
  find (has_id id') (update id f us) = find (has_id id') us.
Proof.
  intros Hf Hne. induction us as [| u rest IH]; simpl.
  - reflexivity.
  - destruct (has_id id u) eqn:Hu; simpl.
    + apply has_id_eq in Hu. unfold has_id. rewrite Hf.
      destruct (N.eqb_spec (_id u) id'); [congruence | reflexivity].
    + rewrite IH. reflexivity.
Qed.

Lemma find_update_found (id : ObjectId) (f : User -> User) (us : list User)
  (u : User) :
  find (has_id id) us = Some u ->
  _id (f u) = id ->
  find (has_id id) (update id f us) = Some (f u).
Proof.
  intros Hu Hf. induction us as [| v rest IH]; simpl in *.
  - discriminate.
  - destruct (has_id id v) eqn:Hv; simpl.
    + injection Hu as ->. unfold has_id. rewrite Hf, N.eqb_refl. reflexivity.
    + rewrite Hv. apply IH, Hu.
Qed.

Lemma update_update (id : ObjectId) (f g : User -> User) (us : list User) :
  (forall u, _id (g u) = _id u) ->
  update id f (update id g us) = update id (fun u => f (g u)) us.
Proof.
  intros Hg. induction us as [| u rest IH]; simpl.
  - reflexivity.
  - destruct (has_id id u) eqn:Hu; simpl.
    + unfold has_id in *. rewrite Hg, Hu. reflexivity.
    + rewrite Hu, IH. reflexivity.
Qed.

Lemma update_ext (id : ObjectId) (f g : User -> User) (us : list User) :
  (forall u, f u = g u) -> update id f us = update id g us.
Proof.
  intros H. induction us as [| u rest IH]; simpl.
  - reflexivity.
  - rewrite H, IH. reflexivity.
Qed.

(** ** The wrapper *)

(** [asyncHandler] passes a result through and answers an error, if
    [res.status] takes its code. *)
Lemma run_asyncHandler {E : Environment} (controller : Request -> Prog Effect)
  (req : Request) (w : World) :
  run (asyncHandler controller req) w =
  match run (controller req) w with
  | (inl error, w') => (answer_error error, w')
  | (inr eff, w') => (inr eff, w')
  end.
Proof.
  unfold asyncHandler. rewrite run_try_catch.
  destruct (run (controller req) w) as [[e | eff] w']; [| reflexivity].
  destruct (answer_error e); reflexivity.
Qed.

(** The answer to an error whose code is a status that [res.status]
    takes. *)
Lemma answer_valid {E : Environment} (error : JsError) :
  valid_status (js_or (code error) (JNum 500)) = true ->
  answer_error error =
  inr (Respond {| status := js_or (code error) (JNum 500); set_cookies := [];
                  json := ErrorBody false (message error) |}).
Proof. intros H. unfold answer_error. cbv zeta. rewrite H. reflexivity. Qed.

Lemma answer_invalid {E : Environment} (error : JsError) :
  valid_status (js_or (code error) (JNum 500)) = false ->
  answer_error error = inl (status_error (js_or (code error) (JNum 500))).
Proof. intros H. unfold answer_error. cbv zeta. rewrite H. reflexivity. Qed.

(** C9, as the code has it.  An error thrown by the controller reaches
    [res.status(error.code || 500)]: the status is the error's [code] when
    that value is truthy, and 500 when it is not (unset, but also [0], the
    empty string, [null] or [false]).  When the status is an integer from
    100 to 999, the wrapper answers with it and with the body
    [{success: false, message}].  For any other status [res.status]
    throws inside the [catch] block: nothing is sent, and the wrapper
    rethrows, its promise rejected with that error.  A controller that
    does not throw is left alone. *)
Theorem asyncHandler_answers_errors :
  forall {E : Environment} (controller : Request -> Prog Effect)
         (req : Request) (w : World),
    match run (controller req) w with
    | (inl error, w') =>
        let st := if truthy (code error) then code error else JNum 500 in
        run (asyncHandler controller req) w =
        (match st with
         | JNum n =>
             if (100 <=? n) && (n <=? 999)
             then inr (Respond {| status := JNum n; set_cookies := [];
                                  json := ErrorBody false (message error) |})
             else inl (status_error st)
         | _ => inl (status_error st)
         end, w')
    | (inr eff, w') => run (asyncHandler controller req) w = (inr eff, w')
    end.
Proof.
  intros E controller req w. rewrite run_asyncHandler.
  destruct (run (controller req) w) as [[e | eff] w']; [| reflexivity].
  cbv zeta. unfold answer_error, js_or. cbv zeta.
  destruct (if truthy (code e) then code e else JNum 500) as [| | b | n | str];
    reflexivity.
Qed.

(** C9, as stated, fails in two ways.  For an error whose [code] is set
    to [0] the status of the answer is 500, not the error's code.  For an
    error whose [code] is no HTTP status, as the 11000 of a duplicate key
    in the store, the wrapper rethrows and answers nothing. *)
Lemma asyncHandler_rethrows_counterexample :
  let zero := {| code := JNum 0; message := "boom" |} in
  let duplicate := {| code := JNum 11000; message := "E11000 duplicate key" |} in
  let req := refresh_request "any" in
  let w := world [] 0 in
  (code zero <> JUndefined
   /\ run (asyncHandler (E := Reference.env) (fun _ => Throw zero) req) w =
        (inr (Respond {| status := JNum 500; set_cookies := [];
                         json := ErrorBody false "boom" |}), w)
   /\ JNum 500 <> code zero)
  /\ (code duplicate = JNum 11000
      /\ run (asyncHandler (E := Reference.env) (fun _ => Throw duplicate) req) w
         = (inl (Reference.invalid_status (JNum 11000)), w)
      /\ forall answer : Effect,
           fst (run (asyncHandler (E := Reference.env)
                       (fun _ => Throw duplicate) req) w) <> inr answer).
Proof.
  simpl. repeat split; discriminate.
Qed.

Section Sessions.

Context {E : Environment}.

(** ** Token-pair generation *)

(** With the lookup and the save served, the pair is issued for the
    document found and the refresh token is written on it. *)
Lemma generate_served (userId : ObjectId) (w : World) (u : User) :
  faults w = [] ->
  find (has_id userId) (users w) = Some u ->
  run (generateAccessTokenAndRefreshToken userId) w =
  (inr (generateAccessToken u (now w), generateRefreshToken u (now w)),
   {| users := update userId
                 (fun _ => set_refreshToken u
                             (Some (generateRefreshToken u (now w))))
                 (users w);
      now := now w; faults := [] |}).
Proof.
  intros Hf Hu. unfold generateAccessTokenAndRefreshToken.
  rewrite run_try_catch, run_bind, run_await, (serve_healthy _ _ Hf).
  simpl. rewrite Hu. simpl.
  unfold serve. simpl.
  rewrite (find_has_id _ _ Hu), Hu. reflexivity.
Qed.

(** Whatever goes wrong inside, one error comes out and the collection is
    as it was. *)
Lemma generate_throws (userId : ObjectId) (w w' : World) (e : JsError) :
  run (generateAccessTokenAndRefreshToken userId) w = (inl e, w') ->
  e = generation_failed /\ users w' = users w.
Proof.
  unfold generateAccessTokenAndRefreshToken.
  rewrite run_try_catch, run_bind, run_await, serve_hd.
  destruct (hd None (faults w)) as [e0 |]; simpl.
  - intros H. inversion H. split; reflexivity.
  - destruct (find (has_id userId) (users w)) as [u |] eqn:Hu; simpl.
    + rewrite serve_hd. simpl.
      destruct (hd None (tl (faults w))) as [e1 |]; simpl.
      * intros H. inversion H. split; reflexivity.
      * rewrite (find_has_id _ _ Hu), Hu. simpl. discriminate.
    + intros H. inversion H. split; reflexivity.
Qed.

(** A pair that comes out is the pair that was recorded. *)
Lemma generate_returns (userId : ObjectId) (w w' : World) (a r : string) :
  run (generateAccessTokenAndRefreshToken userId) w = (inr (a, r), w') ->
  persisted userId (users w') = Some r.
Proof.
  unfold generateAccessTokenAndRefreshToken.
  rewrite run_try_catch, run_bind, run_await, serve_hd.
  destruct (hd None (faults w)) as [e0 |]; simpl; [discriminate |].
  destruct (find (has_id userId) (users w)) as [u |] eqn:Hu; simpl;
    [| discriminate].
  rewrite serve_hd. simpl.
  destruct (hd None (tl (faults w))) as [e1 |]; simpl; [discriminate |].
  rewrite (find_has_id _ _ Hu), Hu. simpl.
  intros H. inversion H; subst; clear H. simpl.
  unfold persisted.
  erewrite find_update_found;
    [reflexivity | exact Hu | simpl; eapply find_has_id, Hu].
Qed.

(** C4: when the save of the new refresh token is rejected, token-pair
    generation throws and the collection is as it was; in every run the
    operation either throws, with the collection untouched, or returns the
    pair whose refresh token it recorded; and a caller that waits for the
    pair ([login], [refresh]) gets the error in its place: the code that
    would send the tokens is not run. *)
Theorem issuance_is_atomic :
  forall (userId : ObjectId) (w : World) (u : User) (e : JsError)
         (rest : list (option JsError)),
    find (has_id userId) (users w) = Some u ->
    faults w = None :: Some e :: rest ->
    run (generateAccessTokenAndRefreshToken userId) w =
      (inl generation_failed,
       {| users := users w; now := now w; faults := rest |})
    /\ (forall w0 : World,
          match run (generateAccessTokenAndRefreshToken userId) w0 with
          | (inl err, w') => err = generation_failed /\ users w' = users w0
          | (inr (_, r), w') => persisted userId (users w') = Some r
          end)
    /\ (forall (B : Type) (send : string * string -> Prog B),
          run (tokens <- generateAccessTokenAndRefreshToken userId ;;
               send tokens) w =
          (inl generation_failed,
           {| users := users w; now := now w; faults := rest |})).
Proof.
  intros userId w u e rest Hu Hf.
  assert (Hrun : run (generateAccessTokenAndRefreshToken userId) w =
                 (inl generation_failed,
                  {| users := users w; now := now w; faults := rest |})).
  { unfold generateAccessTokenAndRefreshToken.
    rewrite run_try_catch, run_bind, run_await, serve_hd, Hf. simpl.
    rewrite Hu. simpl. reflexivity. }
  split; [exact Hrun |]. split.
  - intros w0.
    destruct (run (generateAccessTokenAndRefreshToken userId) w0)
      as [[err | [a r]] w'] eqn:Hrun0.
    + eapply generate_throws; eassumption.
    + eapply generate_returns; eassumption.
  - intros B send. rewrite run_bind, Hrun. reflexivity.
Qed.

(** ** Refresh *)

Lemma world_eta (w : World) :
  faults w = [] -> {| users := users w; now := now w; faults := [] |} = w.
Proof. destruct w as [us t fs]. simpl. intros ->. reflexivity. Qed.

(** The [try] block of a refresh on a store that serves it. *)
Lemma refresh_try_served (t : string) (w : World) :
  faults w = [] ->
  run (refresh_try t) w =
  match jwt_verify t REFRESH_TOKEN_SECRET (now w) with
  | inl e => (inl e, w)
  | inr p =>
      match find (has_id (sub_id p)) (users w) with
      | None => (inl (ApiError 401 "Invalid refresh token"), w)
      | Some u =>
          if opt_eqb (refreshToken u) t
          then (inr (refreshed (generateAccessToken u (now w))
                               (generateRefreshToken u (now w))),
                {| users := update (sub_id p)
                              (fun _ => set_refreshToken u
                                 (Some (generateRefreshToken u (now w))))
                              (users w);
                   now := now w; faults := [] |})
          else (inl (ApiError 401 "Refresh token is expired or used."), w)
      end
  end.
Proof.
  intros Hf. unfold refresh_try. rewrite run_bind, run_clock.
  destruct (jwt_verify t REFRESH_TOKEN_SECRET (now w)) as [e | p].
  - reflexivity.
  - rewrite run_bind, run_await, serve_healthy by exact Hf.
    cbn [fst snd exec]. rewrite world_eta by exact Hf.
    destruct (find (has_id (sub_id p)) (users w)) as [u |] eqn:Hu.
    + destruct (opt_eqb (refreshToken u) t); cbn [negb].
      * rewrite run_bind.
        rewrite (find_has_id _ _ Hu).
        erewrite generate_served; [| exact Hf | exact Hu]. simpl.
        reflexivity.
      * reflexivity.
    + reflexivity.
Qed.

(** A refresh that presents a token, by the outcome of its [try] block. *)
Lemma run_refreshAccessToken (req : Request) (tok : option string) (w : World) :
  incomingRefreshToken req = inr tok ->
  run (refreshAccessToken req) w =
  if truthy_str tok
  then match run (refresh_try (str_of tok)) w with
       | (inl error, w') => (inr (rejection 401 (message error)), w')
       | (inr eff, w') => (inr eff, w')
       end
  else (inr (rejection 401 "Unauthorized Request. Refresh Token missing."), w).
Proof.
  intros Hin. unfold refreshAccessToken. rewrite run_asyncHandler.
  unfold refreshAccessToken_controller. rewrite Hin.
  destruct (truthy_str tok); cbn [negb].
  - rewrite run_try_catch.
    destruct (run (refresh_try (str_of tok)) w) as [[e | eff] w']; reflexivity.
  - reflexivity.
Qed.

(** C10: a refresh that presents a token answers every error of its
    [try] block (a verification failure, an unknown subject, a token that
    is not the persisted one, but also a failed token generation or a
    rejected store operation) with status 401 and the message of that
    error; the request without a token has its own message. *)
Theorem refresh_errors_collapse :
  forall (req : Request) (tok : option string) (w : World),
    incomingRefreshToken req = inr tok ->
    run (refreshAccessToken req) w =
    if truthy_str tok
    then match run (refresh_try (str_of tok)) w with
         | (inl error, w') => (inr (rejection 401 (message error)), w')
         | (inr eff, w') => (inr eff, w')
         end
    else (inr (rejection 401 "Unauthorized Request. Refresh Token missing."), w).
Proof. exact run_refreshAccessToken. Qed.

(** ** Login *)

Lemma find_id_of_found (P : User -> bool) (us : list User) (u : User) :
  find P us = Some u -> exists d, find (has_id (_id u)) us = Some d.
Proof.
  intros H. apply find_some in H. destruct H as [Hin _].
  destruct (find (has_id (_id u)) us) as [d |] eqn:Hd.
  - exists d. reflexivity.
  - apply (find_none _ _ Hd) in Hin. unfold has_id in Hin.
    rewrite N.eqb_refl in Hin. discriminate.
Qed.

(** A login on a store that serves it, check by check. *)
Lemma run_loginUser (req : Request) (b : ReqBody) (w : World) :
  body req = Some b ->
  faults w = [] ->
  run (loginUser req) w =
  if negb (truthy_str (or_str (b_username b) (b_email b)))
     || negb (truthy_str (b_password b))
  then (inr (rejection 400 "Username or email and password are required."), w)
  else
    match find (matches_or (b_username b) (b_email b)) (users w) with
    | None => (inr (rejection 404 "User does not exist."), w)
    | Some u =>
        if isPasswordCorrect u (str_of (b_password b))
        then
          match find (has_id (_id u)) (users w) with
          | Some d =>
              let r := generateRefreshToken d (now w) in
              let d' := set_refreshToken d (Some r) in
              (inr (logged_in (Some (select_safe d'))
                      (generateAccessToken d (now w)) r),
               {| users := update (_id u) (fun _ => d') (users w);
                  now := now w; faults := [] |})
          | None => (inr (rejection 500 (message generation_failed)), w)
          end
        else (inr (rejection 401 "Invalid user credentials"), w)
    end.
Proof.
  intros Hb Hf. unfold loginUser. rewrite run_asyncHandler.
  unfold loginUser_controller. rewrite Hb.
  destruct (negb (truthy_str (or_str (b_username b) (b_email b)))
            || negb (truthy_str (b_password b))).
  - reflexivity.
  - rewrite run_bind, run_await, serve_healthy by exact Hf.
    cbn [fst snd exec]. rewrite world_eta by exact Hf.
    destruct (find (matches_or (b_username b) (b_email b)) (users w))
      as [u |] eqn:Hu; [| reflexivity].
    destruct (isPasswordCorrect u (str_of (b_password b))); cbn [negb];
      [| reflexivity].
    rewrite run_bind.
    destruct (find_id_of_found _ _ Hu) as [d Hd].
    erewrite generate_served; [| exact Hf | exact Hd]. rewrite Hd.
    rewrite run_bind, run_await, serve_healthy by reflexivity.
    cbn [fst snd exec users now].
    erewrite find_update_found;
      [reflexivity | exact Hd | simpl; eapply find_has_id, Hd].
Qed.


(** ** Logout *)

Lemma unset_refreshToken_idem (id : ObjectId) (us : list User) :
  unset_refreshToken id (unset_refreshToken id us) = unset_refreshToken id us.
Proof.
  unfold unset_refreshToken. rewrite update_update by reflexivity.
  apply update_ext. intros u. reflexivity.
Qed.

Lemma persisted_unset (id : ObjectId) (us : list User) :
  persisted id (unset_refreshToken id us) = None.
Proof.
  unfold persisted, unset_refreshToken. rewrite find_update by reflexivity.
  destruct (find (has_id id) us); reflexivity.
Qed.

Lemma run_logoutUser (req : Request) (u : User) (w : World) :
  user req = Some u ->
  faults w = [] ->
  run (logoutUser req) w =
  (inr logged_out,
   {| users := unset_refreshToken (_id u) (users w); now := now w;
      faults := [] |}).
Proof.
  intros Hu Hf. unfold logoutUser. rewrite run_asyncHandler.
  unfold logoutUser_controller. rewrite Hu.
  rewrite run_bind, run_await, serve_healthy by exact Hf. reflexivity.
Qed.

(** C7: for a caller with an identity attached, on a store that serves
    it, logout succeeds and clears the persisted refresh token whatever it
    was; a second logout succeeds as well and changes nothing more; without
    an identity the call is rejected with 401. *)
Theorem logout_idempotent :
  forall (req : Request) (w : World),
    faults w = [] ->
    match user req with
    | Some u =>
        exists w1 : World,
          run (logoutUser req) w = (inr logged_out, w1)
          /\ persisted (_id u) (users w1) = None
          /\ run (logoutUser req) w1 = (inr logged_out, w1)
    | None =>
        run (logoutUser req) w = (inr (rejection 401 "Unauthorized request"), w)
    end.
Proof.
  intros req w Hf. destruct (user req) as [u |] eqn:Hu.
  - eexists. split; [apply (@run_logoutUser req u w Hu Hf) |].
    split; [apply persisted_unset |].
    rewrite (@run_logoutUser req u _ Hu) by reflexivity.
    cbn [users now]. rewrite unset_refreshToken_idem. reflexivity.
  - unfold logoutUser. rewrite run_asyncHandler.
    unfold logoutUser_controller. rewrite Hu. reflexivity.
Qed.

(** ** The auth middleware *)

Lemma prefix_app (p s : string) : String.prefix p (p ++ s) = true.
Proof.
  induction p as [| c p IH]; simpl.
  - destruct s; reflexivity.
  - destruct (ascii_dec c c) as [_ | Hne]; [exact IH | contradiction].
Qed.

Lemma drop_app (p s : string) : drop (String.length p) (p ++ s) = s.
Proof. induction p as [| c p IH]; simpl; [reflexivity | exact IH]. Qed.

(** [("Bearer " + t).replace("Bearer ", "")] is [t]. *)
Lemma replace_prefix (p s : string) : replace p "" (p ++ s) = s.
Proof.
  destruct p as [| c p].
  - destruct s; reflexivity.
  - change (replace (String c p) "" (String c p ++ s))
      with (if String.prefix (String c p) (String c p ++ s)
            then "" ++ drop (String.length (String c p)) (String c p ++ s)
            else String c (replace (String c p) "" (p ++ s)))%string.
    rewrite prefix_app, drop_app. reflexivity.
Qed.

(** A string without the pattern is left as it is. *)
Lemma replace_absent (p s : string) :
  (forall n, String.prefix p (drop n s) = false) -> replace p "" s = s.
Proof.
  induction s as [| c s IH]; intros H; pose proof (H O) as H0;
    cbn [drop] in H0; cbn [replace]; rewrite H0.
  - reflexivity.
  - f_equal. apply IH. intros n. apply (H (S n)).
Qed.

(** A token that fails verification: the store is not consulted. *)
Lemma verifyJWT_verification_failure (req : Request) (w : World) (e : JsError) :
  truthy_str (extract_token req) = true ->
  jwt_verify (str_of (extract_token req)) ACCESS_TOKEN_SECRET (now w) = inl e ->
  run (verifyJWT req) w = (inr (rejection 401 (shown_message e)), w).
Proof.
  intros Ht He. unfold verifyJWT. rewrite run_asyncHandler.
  unfold verifyJWT_controller. rewrite run_try_catch, Ht. cbn [negb].
  rewrite run_bind, run_clock, He. reflexivity.
Qed.

(** The middleware on a store that serves it, step by step. *)
Lemma run_verifyJWT (req : Request) (w : World) :
  faults w = [] ->
  run (verifyJWT req) w =
  if truthy_str (extract_token req)
  then match jwt_verify (str_of (extract_token req)) ACCESS_TOKEN_SECRET (now w) with
       | inl e => (inr (rejection 401 (shown_message e)), w)
       | inr decoded =>
           match find (has_id (sub_id decoded)) (users w) with
           | None => (inr (rejection 401 "Invalid Access Token"), w)
           | Some u => (inr (Next (set_user req (select_safe u))), w)
           end
       end
  else (inr (rejection 401 "Unauthorized request"), w).
Proof.
  intros Hf.
  destruct (truthy_str (extract_token req)) eqn:Ht.
  - destruct (jwt_verify (str_of (extract_token req)) ACCESS_TOKEN_SECRET (now w))
      as [e | p] eqn:He.
    + apply verifyJWT_verification_failure; assumption.
    + unfold verifyJWT. rewrite run_asyncHandler.
      unfold verifyJWT_controller. rewrite run_try_catch, Ht. cbn [negb].
      rewrite run_bind, run_clock, He.
      rewrite run_bind, run_await, serve_healthy by exact Hf.
      cbn [fst snd exec]. rewrite world_eta by exact Hf.
      destruct (find (has_id (sub_id p)) (users w)); reflexivity.
  - unfold verifyJWT. rewrite run_asyncHandler.
    unfold verifyJWT_controller. rewrite run_try_catch, Ht. reflexivity.
Qed.

(** C6, as the code has it: the credential is the access-token cookie
    when that cookie is present and not empty; otherwise it is the
    Authorization header with the first ["Bearer "] removed, so that
    [Bearer <token>] gives [<token>] and a header without ["Bearer "] is
    taken whole; without a credential the request is
    rejected with 401, and so is a token that verifies for a subject that
    is not in the store; otherwise the user found, without password and
    refresh token, is attached to the request and [next] is called. *)
Theorem verifyJWT_gate :
  forall (req : Request) (w : World),
    faults w = [] ->
    (forall t, cookie_token req = Some t -> t <> "" ->
               extract_token req = Some t)
    /\ (forall h, truthy_str (cookie_token req) = false ->
                  authorization req = Some h ->
                  extract_token req = Some (replace "Bearer " "" h))
    /\ (forall t, truthy_str (cookie_token req) = false ->
                  authorization req = Some ("Bearer " ++ t) ->
                  extract_token req = Some t)
    /\ (forall h, truthy_str (cookie_token req) = false ->
                  authorization req = Some h ->
                  (forall k, String.prefix "Bearer " (drop k h) = false) ->
                  extract_token req = Some h)
    /\ (truthy_str (cookie_token req) = false ->
        authorization req = None ->
        run (verifyJWT req) w = (inr (rejection 401 "Unauthorized request"), w))
    /\ (truthy_str (extract_token req) = false ->
        run (verifyJWT req) w = (inr (rejection 401 "Unauthorized request"), w))
    /\ (forall decoded,
          truthy_str (extract_token req) = true ->
          jwt_verify (str_of (extract_token req)) ACCESS_TOKEN_SECRET (now w)
            = inr decoded ->
          run (verifyJWT req) w =
          match find (has_id (sub_id decoded)) (users w) with
          | None => (inr (rejection 401 "Invalid Access Token"), w)
          | Some u => (inr (Next (set_user req (select_safe u))), w)
          end).
Proof.
  intros req w Hf. unfold extract_token, or_str, header_token.
  repeat apply conj.
  - intros t Hc Ht. rewrite Hc. simpl.
    destruct (String.eqb_spec t ""); [contradiction | reflexivity].
  - intros h Hc Hh. rewrite Hc, Hh. reflexivity.
  - intros t Hc Hh. rewrite Hc, Hh. cbn [option_map].
    rewrite (replace_prefix "Bearer " t). reflexivity.
  - intros h Hc Hh Hno. rewrite Hc, Hh. cbn [option_map].
    rewrite (replace_absent _ _ Hno). reflexivity.
  - intros Hc Hh. rewrite (@run_verifyJWT req w Hf).
    unfold extract_token, or_str, header_token. rewrite Hc, Hh. reflexivity.
  - intros Ht. rewrite (@run_verifyJWT req w Hf).
    unfold extract_token, or_str, header_token. rewrite Ht. reflexivity.
  - intros decoded Ht Hd. rewrite (@run_verifyJWT req w Hf).
    unfold extract_token, or_str, header_token. rewrite Ht, Hd. reflexivity.
Qed.

(** C3, as the code has it: two requests whose tokens fail verification
    are both answered with status 401, no cookie and [success: false]; the
    message of each answer is the message of its own verification error
    (or ["Invalid access Token"] when that is empty), so the two answers
    are the same exactly when those messages are. *)
Theorem verification_failures_share_status :
  forall (req1 req2 : Request) (w1 w2 : World) (e1 e2 : JsError),
    truthy_str (extract_token req1) = true ->
    jwt_verify (str_of (extract_token req1)) ACCESS_TOKEN_SECRET (now w1) = inl e1 ->
    truthy_str (extract_token req2) = true ->
    jwt_verify (str_of (extract_token req2)) ACCESS_TOKEN_SECRET (now w2) = inl e2 ->
    exists r1 r2 : Response,
      run (verifyJWT req1) w1 = (inr (Respond r1), w1)
      /\ run (verifyJWT req2) w2 = (inr (Respond r2), w2)
      /\ status r1 = JNum 401 /\ status r2 = JNum 401
      /\ set_cookies r1 = [] /\ set_cookies r2 = []
      /\ json r1 = ErrorBody false (shown_message e1)
      /\ json r2 = ErrorBody false (shown_message e2)
      /\ (r1 = r2 <-> shown_message e1 = shown_message e2).
Proof.
  intros req1 req2 w1 w2 e1 e2 Ht1 He1 Ht2 He2.
  rewrite (@verifyJWT_verification_failure req1 w1 e1 Ht1 He1).
  rewrite (@verifyJWT_verification_failure req2 w2 e2 Ht2 He2).
  unfold rejection. eexists _, _. repeat apply conj; try reflexivity.
  - simpl. intros H. congruence.
  - simpl. intros H. congruence.
Qed.

(** ** Rotation *)

Lemma opt_eqb_refl (t : string) : opt_eqb (Some t) t = true.
Proof. apply String.eqb_refl. Qed.

Lemma opt_eqb_neq (s t : string) : s <> t -> opt_eqb (Some s) t = false.
Proof. intros H. simpl. destruct (String.eqb_spec s t); [contradiction | reflexivity]. Qed.

(** A refresh on a served store, from what the token presented verifies
    to and what is persisted for its subject. *)
Lemma subject_nonempty (t : string) (n : Z) (id : ObjectId) :
  subject t n = Some id -> truthy_str (Some t) = true.
Proof.
  intros Hs. simpl. destruct (String.eqb_spec t "") as [-> | _]; [| reflexivity].
  unfold subject in Hs.
  destruct (jwt_verify_empty REFRESH_TOKEN_SECRET n) as [e He].
  rewrite He in Hs. discriminate.
Qed.

Lemma refresh_outcome (req : Request) (t : string) (w : World) (id : ObjectId) :
  incomingRefreshToken req = inr (Some t) ->
  faults w = [] ->
  subject t (now w) = Some id ->
  run (refreshAccessToken req) w =
  match find (has_id id) (users w) with
  | None => (inr (rejection 401 "Invalid refresh token"), w)
  | Some u =>
      if opt_eqb (refreshToken u) t
      then (inr (refreshed (generateAccessToken u (now w))
                           (generateRefreshToken u (now w))),
            {| users := update id
                          (fun _ => set_refreshToken u
                             (Some (generateRefreshToken u (now w))))
                          (users w);
               now := now w; faults := [] |})
      else (inr token_reused, w)
  end.
Proof.
  intros Hin Hf Hs. rewrite (@run_refreshAccessToken req (Some t) w Hin).
  rewrite (subject_nonempty _ _ Hs).
  cbn [str_of]. rewrite (@refresh_try_served t w Hf).
  unfold subject in Hs.
  destruct (jwt_verify t REFRESH_TOKEN_SECRET (now w)) as [e | p];
    [discriminate |].
  injection Hs as Hs. rewrite Hs.
  destruct (find (has_id id) (users w)) as [u |];
    [destruct (opt_eqb (refreshToken u) t) |]; reflexivity.
Qed.

Lemma opt_eqb_true (o : option string) (t : string) :
  opt_eqb o t = true -> o = Some t.
Proof.
  destruct o as [s |]; simpl; [| discriminate].
  intros H. apply String.eqb_eq in H. congruence.
Qed.

(** What a successful refresh tells. *)
Lemma refresh_success_inv (req : Request) (t a r : string) (w w1 : World) :
  incomingRefreshToken req = inr (Some t) ->
  faults w = [] ->
  run (refreshAccessToken req) w = (inr (refreshed a r), w1) ->
  exists (id : ObjectId) (u : User),
    subject t (now w) = Some id
    /\ find (has_id id) (users w) = Some u
    /\ refreshToken u = Some t
    /\ a = generateAccessToken u (now w)
    /\ r = generateRefreshToken u (now w)
    /\ w1 = {| users := update id (fun _ => set_refreshToken u (Some r)) (users w);
               now := now w; faults := [] |}.
Proof.
  intros Hin Hf. rewrite (@run_refreshAccessToken req (Some t) w Hin).
  destruct (truthy_str (Some t)); [| discriminate].
  cbn [str_of]. rewrite (@refresh_try_served t w Hf). unfold subject.
  destruct (jwt_verify t REFRESH_TOKEN_SECRET (now w)) as [e | p];
    [discriminate |].
  destruct (find (has_id (sub_id p)) (users w)) as [u |] eqn:Hu;
    [| discriminate].
  destruct (opt_eqb (refreshToken u) t) eqn:Heq; [| discriminate].
  intros H. inversion H; subst; clear H.
  exists (sub_id p), u.
  split; [reflexivity |]. split; [exact Hu |].
  split; [apply opt_eqb_true, Heq |]. repeat split.
Qed.

(** C1, as the code has it.  After a refresh of [t1] that succeeded on a
    served store and returned [t2]: if [t2] is not [t1] again, a later
    refresh of [t1] that still passes verification is rejected with
    "Refresh token is expired or used." and changes nothing; and a later
    refresh of [t2], if [t2] verifies for the subject of [t1], succeeds. *)
Theorem rotation_invalidates_old_token :
  forall (req1 req1' req2 : Request) (t1 a2 t2 : string) (w w1 : World)
         (n n' : Z),
    incomingRefreshToken req1 = inr (Some t1) ->
    incomingRefreshToken req1' = inr (Some t1) ->
    incomingRefreshToken req2 = inr (Some t2) ->
    faults w = [] ->
    run (refreshAccessToken req1) w = (inr (refreshed a2 t2), w1) ->
    t2 <> t1 ->
    subject t1 n = subject t1 (now w) ->
    subject t2 n' = subject t1 (now w) ->
    run (refreshAccessToken req1') (at_time w1 n) = (inr token_reused, at_time w1 n)
    /\ exists (a3 t3 : string) (w2 : World),
         run (refreshAccessToken req2) (at_time w1 n') = (inr (refreshed a3 t3), w2).
Proof.
  intros req1 req1' req2 t1 a2 t2 w w1 n n' Hin1 Hin1' Hin2 Hf Hrun Hne Hs1 Hs2.
  destruct (@refresh_success_inv req1 t1 a2 t2 w w1 Hin1 Hf Hrun)
    as (id & u & Hs & Hu & Hrt & Ha & Hr & Hw1).
  rewrite Hs in Hs1, Hs2.
  assert (Hfound : find (has_id id) (users (at_time w1 n)) =
                   Some (set_refreshToken u (Some t2))).
  { rewrite Hw1. cbn [at_time users].
    erewrite find_update_found;
      [reflexivity | exact Hu | simpl; eapply find_has_id, Hu]. }
  split.
  - rewrite (@refresh_outcome req1' t1 (at_time w1 n) id Hin1');
      [| rewrite Hw1; reflexivity | exact Hs1].
    rewrite Hfound. cbn [refreshToken set_refreshToken].
    rewrite (opt_eqb_neq Hne). reflexivity.
  - rewrite (@refresh_outcome req2 t2 (at_time w1 n') id Hin2);
      [| rewrite Hw1; reflexivity | exact Hs2].
    change (users (at_time w1 n')) with (users (at_time w1 n)).
    rewrite Hfound. cbn [refreshToken set_refreshToken].
    rewrite opt_eqb_refl. eexists _, _, _. reflexivity.
Qed.

(** ** One session per user *)

(** What a successful login tells. *)
Lemma login_success_inv (req : Request) (b : ReqBody) (d : option User)
  (a r : string) (w w' : World) :
  body req = Some b ->
  faults w = [] ->
  run (loginUser req) w = (inr (logged_in d a r), w') ->
  exists u : User,
    option_map _id d = Some (_id u)
    /\ find (has_id (_id u)) (users w') = Some (set_refreshToken u (Some r))
    /\ faults w' = [].
Proof.
  intros Hb Hf. rewrite (@run_loginUser req b w Hb Hf).
  destruct (negb (truthy_str (or_str (b_username b) (b_email b)))
            || negb (truthy_str (b_password b))); [discriminate |].
  destruct (find (matches_or (b_username b) (b_email b)) (users w))
    as [u |] eqn:Hu; [| discriminate].
  destruct (isPasswordCorrect u (str_of (b_password b))); [| discriminate].
  destruct (find (has_id (_id u)) (users w)) as [d0 |] eqn:Hd; [| discriminate].
  cbv zeta. intros H. inversion H; subst; clear H.
  exists d0. pose proof (find_has_id _ _ Hd) as Hid.
  split; [reflexivity |]. split; [| reflexivity].
  cbn [users]. rewrite Hid.
  erewrite find_update_found; [reflexivity | exact Hd | exact Hid].
Qed.

Lemma persisted_found (id : ObjectId) (us : list User) (u : User) :
  find (has_id id) us = Some u -> persisted id us = refreshToken u.
Proof. intros H. unfold persisted. rewrite H. reflexivity. Qed.

(** C2, as the code has it.  A user document has one [refreshToken]
    field, and a successful login or refresh leaves the token it returned
    in it.  After two successful logins of the same user, of which the
    second returned another refresh token than the first, a refresh with
    the token of the first login that still passes verification is
    rejected with "Refresh token is expired or used.". *)
Theorem single_session :
  forall (req1 req2 req3 : Request) (b1 b2 : ReqBody) (d1 d2 : option User)
         (a1 t1 a2 t2 : string) (w w1 w2 : World) (n2 n3 : Z) (id : ObjectId),
    body req1 = Some b1 ->
    body req2 = Some b2 ->
    incomingRefreshToken req3 = inr (Some t1) ->
    faults w = [] ->
    run (loginUser req1) w = (inr (logged_in d1 a1 t1), w1) ->
    run (loginUser req2) (at_time w1 n2) = (inr (logged_in d2 a2 t2), w2) ->
    option_map _id d1 = Some id ->
    option_map _id d2 = Some id ->
    t2 <> t1 ->
    subject t1 n3 = Some id ->
    persisted id (users w1) = Some t1
    /\ persisted id (users w2) = Some t2
    /\ run (refreshAccessToken req3) (at_time w2 n3) =
         (inr token_reused, at_time w2 n3)
    /\ (forall (req : Request) (t a r : string) (v v' : World),
          incomingRefreshToken req = inr (Some t) ->
          faults v = [] ->
          run (refreshAccessToken req) v = (inr (refreshed a r), v') ->
          exists id', subject t (now v) = Some id'
                      /\ persisted id' (users v') = Some r).
Proof.
  intros req1 req2 req3 b1 b2 d1 d2 a1 t1 a2 t2 w w1 w2 n2 n3 id
         Hb1 Hb2 Hin Hf Hl1 Hl2 Hd1 Hd2 Hne Hs.
  destruct (@login_success_inv req1 b1 d1 a1 t1 w w1 Hb1 Hf Hl1)
    as (u1 & Hid1 & Hfind1 & Hf1).
  destruct (@login_success_inv req2 b2 d2 a2 t2 (at_time w1 n2) w2 Hb2 Hf1 Hl2)
    as (u2 & Hid2 & Hfind2 & Hf2).
  assert (Hu1 : _id u1 = id) by congruence.
  assert (Hu2 : _id u2 = id) by congruence.
  subst id. rewrite Hu2 in Hfind2.
  repeat apply conj.
  - rewrite (persisted_found _ _ Hfind1). reflexivity.
  - rewrite (persisted_found _ _ Hfind2). reflexivity.
  - rewrite (@refresh_outcome req3 t1 (at_time w2 n3) (_id u1) Hin Hf2 Hs).
    cbn [at_time users]. rewrite Hfind2. cbn [refreshToken set_refreshToken].
    rewrite (opt_eqb_neq Hne). reflexivity.
  - intros req t a r v v' Hi Hv Hr.
    destruct (@refresh_success_inv req t a r v v' Hi Hv Hr)
      as (id' & u & Hsub & Hu & _ & _ & _ & Hv').
    exists id'. split; [exact Hsub |]. rewrite Hv'. cbn [users].
    unfold persisted.
    erewrite find_update_found;
      [reflexivity | exact Hu | simpl; eapply find_has_id, Hu].
Qed.

(** ** Two refreshes in flight *)

Section Race.

Variables (presented : string) (id : ObjectId) (n : Z).

(** A refresh that presents a token verifying for [id] has not read yet:
    its turns are those of the stages, in their order. *)
Lemma refresh_starts (req : Request) :
  incomingRefreshToken req = inr (Some presented) ->
  subject presented n = Some id ->
  start presented id n (refreshAccessToken req).
Proof.
  intros Hin Hs w d Hf Hn Hd.
  pose proof (subject_nonempty _ _ Hs) as Ht.
  unfold subject in Hs.
  destruct (jwt_verify presented REFRESH_TOKEN_SECRET n) as [e | p] eqn:Hv;
    [discriminate |].
  injection Hs as Hs.
  unfold turn, refreshAccessToken, asyncHandler, refreshAccessToken_controller.
  rewrite Hin, Ht. cbn [negb str_of]. unfold refresh_try.
  rewrite Hn. cbn. rewrite Hv. cbn.
  rewrite serve_healthy by exact Hf. cbn. rewrite Hs, Hd, Hn. cbn.
  pose proof (find_has_id _ _ Hd) as Hid.
  destruct (opt_eqb (refreshToken d) presented); cbn.
  - eexists. split; [rewrite <- Hn, world_eta by exact Hf; reflexivity |].
    intros w1 d1 Hf1 Hn1 Hd1. unfold turn. cbn.
    rewrite serve_healthy by exact Hf1. cbn. rewrite Hid, Hd1, Hn1. cbn.
    eexists. split; [rewrite <- Hn1, world_eta by exact Hf1; reflexivity |].
    intros w2 d2 Hf2 Hn2 Hd2. unfold turn. cbn.
    rewrite serve_healthy by exact Hf2. cbn.
    rewrite (find_has_id _ _ Hd1), Hd2, Hn1, Hn2. cbn.
    eexists. split; reflexivity.
  - eexists. split; [rewrite <- Hn, world_eta by exact Hf; reflexivity |].
    reflexivity.
Qed.

(** A turn is the beginning of a run. *)
Lemma run_advance (A : Type) (p : Prog A) (w : World) :
  run (advance p (now w)) w = run p w.
Proof.
  induction p as [a | e | k IH | X op k IH]; simpl; auto.
Qed.

Lemma run_turn (A : Type) (p : Prog A) (w : World) :
  run p w = run (fst (turn p w)) (snd (turn p w)).
Proof.
  rewrite <- (run_advance p w). unfold turn.
  destruct (advance p (now w)) as [a | e | k | X op k]; try reflexivity.
  simpl. destruct (serve op w) as [r w']. simpl. rewrite run_advance.
  reflexivity.
Qed.

Lemma interleave_true (A B : Type) (sched : list bool) (p : Prog A)
  (q : Prog B) (w : World) :
  interleave (true :: sched) p q w =
  interleave sched (fst (turn p w)) q (snd (turn p w)).
Proof. simpl. destruct (turn p w). reflexivity. Qed.

Lemma interleave_false (A B : Type) (sched : list bool) (p : Prog A)
  (q : Prog B) (w : World) :
  interleave (false :: sched) p q w =
  interleave sched p (fst (turn q w)) (snd (turn q w)).
Proof. simpl. destruct (turn q w). reflexivity. Qed.

Lemma interleave_nil_left (A B : Type) (p : Prog A) (q : Prog B) (w : World) :
  interleave [] p q w = interleave [true] p q w.
Proof.
  simpl. rewrite (run_turn p w). destruct (turn p w) as [p' w']. reflexivity.
Qed.

Lemma interleave_nil_right (A B : Type) (a : A) (q : Prog B) (w : World) :
  interleave [] (Ret a) q w = interleave [false] (Ret a) q w.
Proof.
  simpl. rewrite (run_turn q w). destruct (turn q w) as [q' w']. reflexivity.
Qed.

Lemma in_flight_sym (sa sb : Stage) (w : World) :
  in_flight presented id n sa sb w -> in_flight presented id n sb sa w.
Proof.
  unfold in_flight. intros (Hf & Hn & Hd & Hp & Hi).
  repeat (split; [assumption |]). split.
  - destruct Hp as [H | [H | (Ha & Hb & H)]]; auto.
  - intros [r Hr]. destruct Hi as [r' [Hr' Hp']].
    + exists r. tauto.
    + exists r'. tauto.
Qed.

Lemma not_issued_reused (r : string) : ~ issued (Finished token_reused) r.
Proof. intros [a H]. discriminate H. Qed.

Ltac same_store :=
  split; [assumption |]; split; [assumption |];
  split; [eexists; eassumption |].

(** One turn of the first of two refreshes in flight. *)
Lemma step_left (sa sb : Stage) (p : Prog Effect) (w : World) :
  at_stage presented id n sa p ->
  in_flight presented id n sa sb w ->
  exists (sa' : Stage) (p' : Prog Effect) (w' : World),
    turn p w = (p', w')
    /\ at_stage presented id n sa' p'
    /\ in_flight presented id n sa' sb w'
    /\ (rank sa' < rank sa \/ rank sa = 0)%nat
    /\ (passed sa -> passed sa').
Proof.
  intros Hst (Hf & Hn & [d Hd] & Hp & Hi).
  destruct sa as [| | u' a r | eff]; simpl in Hst.
  - (* the comparison *)
    destruct (Hst w d Hf Hn Hd) as (p' & Hturn & Hnext).
    destruct (opt_eqb (refreshToken d) presented) eqn:Heq.
    + exists Checked, p', w. split; [exact Hturn |]. split; [exact Hnext |].
      split; [| split; [left; simpl; lia | intros []]].
      same_store. split; [left; exact I |].
      intros [r [[a Ha] | Hr]]; [discriminate |].
      destruct Hi as [r' [[[a Ha] | Hr'] Hp']]; [eauto | discriminate | eauto].
    + assert (Hsb : passed sb).
      { destruct Hp as [[] | [H | (_ & _ & H)]]; [exact H |].
        rewrite (persisted_found _ _ Hd) in H. rewrite H, opt_eqb_refl in Heq.
        discriminate. }
      exists (Finished token_reused), p', w.
      split; [exact Hturn |]. split; [split; [exact Hnext | left; reflexivity] |].
      split; [| split; [left; simpl; lia | intros []]].
      same_store. split; [right; left; exact Hsb |].
      intros [r [Hr | Hr]]; [destruct (not_issued_reused Hr) |].
      destruct Hi as [r' [[[a Ha] | Hr'] Hp']]; [eauto | discriminate | eauto].
  - (* the second read *)
    destruct (Hst w d Hf Hn Hd) as (p' & Hturn & Hnext).
    eexists (Saving _ _ _), p', w. split; [exact Hturn |].
    split; [split; [exact Hnext | split; [reflexivity | simpl; eapply find_has_id, Hd]] |].
    split; [| split; [left; simpl; lia | intros _; exact I]].
    same_store. split; [left; exact I |].
    intros [r0 [[a0 Ha] | Hr]]; [discriminate |].
    destruct Hi as [r' [[[a' Ha] | Hr'] Hp']]; [eauto | discriminate | eauto].
  - (* the save *)
    destruct Hst as (Hsave & Hr & Hid).
    destruct (Hsave w d Hf Hn Hd) as (p' & Hturn & Hnext).
    assert (Hfound : find (has_id id)
                       (update id (fun _ : User => u') (users w)) = Some u').
    { erewrite find_update_found; [reflexivity | exact Hd | exact Hid]. }
    eexists (Finished (refreshed a r)), p', _. split; [exact Hturn |].
    split; [split; [exact Hnext | right; eauto] |].
    split; [| split; [left; simpl; lia | intros _; simpl; eauto]].
    split; [reflexivity |]. split; [reflexivity |].
    split; [exists u'; exact Hfound |].
    split; [left; simpl; eauto |].
    intros _. exists r. split; [left; exists a; reflexivity |].
    cbn [users]. rewrite (persisted_found _ _ Hfound). exact Hr.
  - (* answered *)
    destruct Hst as (Hfin & Hans). unfold finished in Hfin. subst p.
    exists (Finished eff), (Ret eff), w. split; [reflexivity |].
    split; [split; [reflexivity | exact Hans] |].
    split; [| split; [right; reflexivity | auto]].
    same_store. split; [exact Hp | exact Hi].
Qed.

(** The turn of a refresh that has not read yet, on a store that holds
    the token it presents: it passes and leaves the store as it is. *)
Lemma step_start (sb : Stage) (p : Prog Effect) (w : World) :
  at_stage presented id n Start p ->
  in_flight presented id n Start sb w ->
  persisted id (users w) = Some presented ->
  exists p' : Prog Effect,
    turn p w = (p', w)
    /\ at_stage presented id n Checked p'
    /\ in_flight presented id n Checked sb w.
Proof.
  intros Hst (Hf & Hn & [d Hd] & Hp & Hi) Hpers. simpl in Hst.
  destruct (Hst w d Hf Hn Hd) as (p' & Hturn & Hnext).
  rewrite (persisted_found _ _ Hd) in Hpers.
  rewrite Hpers, opt_eqb_refl in Hnext.
  exists p'. split; [exact Hturn |]. split; [exact Hnext |].
  same_store. split; [left; exact I |].
  intros [r [[a Ha] | Hr]]; [discriminate |].
  destruct Hi as [r' [[[a Ha] | Hr'] Hp']]; [eauto | discriminate | eauto].
Qed.

Lemma both_answered (ea eb : Effect) (p q : Prog Effect) (w : World) :
  at_stage presented id n (Finished ea) p ->
  at_stage presented id n (Finished eb) q ->
  in_flight presented id n (Finished ea) (Finished eb) w ->
  ends presented id n (Finished ea) (Finished eb) (interleave [] p q w).
Proof.
  intros (Hp & Ha) (Hq & Hb) Hin.
  unfold finished in Hp, Hq. subst p q. simpl.
  exists ea, eb, w. auto 10.
Qed.

Lemma ends_mono (sa sa' sb sb' : Stage)
  (out : Result Effect * Result Effect * World) :
  (passed sa -> passed sa') -> (passed sb -> passed sb') ->
  ends presented id n sa' sb' out -> ends presented id n sa sb out.
Proof.
  intros Ha Hb (ea & eb & w' & Hout & Hea & Heb & Hin & Hpa & Hpb).
  exists ea, eb, w'. auto 10.
Qed.

Lemma settle_serial (k : nat) :
  forall (sa sb : Stage) (p q : Prog Effect) (w : World),
    (rank sa + rank sb <= k)%nat ->
    at_stage presented id n sa p ->
    at_stage presented id n sb q ->
    in_flight presented id n sa sb w ->
    ends presented id n sa sb (interleave [] p q w).
Proof.
  induction k as [| k IH]; intros sa sb p q w Hk Ha Hb Hin.
  - destruct sa; simpl in Hk; try lia. destruct sb; simpl in Hk; try lia.
    eapply both_answered; eassumption.
  - destruct (Nat.eq_dec (rank sa) 0) as [Hra | Hra].
    + destruct sa as [| | | ea]; try discriminate Hra.
      destruct (Nat.eq_dec (rank sb) 0) as [Hrb | Hrb].
      * destruct sb as [| | | eb]; try discriminate Hrb.
        eapply both_answered; eassumption.
      * pose proof Ha as (Hp & _). unfold finished in Hp. subst p.
        rewrite interleave_nil_right, interleave_false.
        destruct (@step_left sb (Finished ea) q w Hb
                    (@in_flight_sym (Finished ea) sb w Hin))
          as (sb' & q' & w' & Hturn & Hb' & Hin' & Hrank & Hmono).
        rewrite Hturn. cbn [fst snd]. destruct Hrank as [Hlt | H0]; [| contradiction].
        apply (@ends_mono _ (Finished ea) _ sb'); [auto | exact Hmono |].
        apply IH; auto using in_flight_sym. simpl in *. lia.
    + rewrite interleave_nil_left, interleave_true.
      destruct (@step_left sa sb p w Ha Hin)
        as (sa' & p' & w' & Hturn & Ha' & Hin' & Hrank & Hmono).
      rewrite Hturn. cbn [fst snd]. destruct Hrank as [Hlt | H0]; [| contradiction].
      apply (@ends_mono _ sa' _ sb); [exact Hmono | auto |].
      apply IH; auto. lia.
Qed.

(** Whatever the schedule, two refreshes in flight come to their ends. *)
Lemma race_ends (sched : list bool) :
  forall (sa sb : Stage) (p q : Prog Effect) (w : World),
    at_stage presented id n sa p ->
    at_stage presented id n sb q ->
    in_flight presented id n sa sb w ->
    ends presented id n sa sb (interleave sched p q w).
Proof.
  induction sched as [| [|] sched IH]; intros sa sb p q w Ha Hb Hin.
  - eapply settle_serial; [apply Nat.le_refl | eassumption ..].
  - rewrite interleave_true.
    destruct (@step_left sa sb p w Ha Hin)
      as (sa' & p' & w' & Hturn & Ha' & Hin' & _ & Hmono).
    rewrite Hturn. cbn [fst snd].
    apply (@ends_mono _ sa' _ sb); [exact Hmono | auto |].
    apply IH; assumption.
  - rewrite interleave_false.
    destruct (@step_left sb sa q w Hb (@in_flight_sym sa sb w Hin))
      as (sb' & q' & w' & Hturn & Hb' & Hin' & _ & Hmono).
    rewrite Hturn. cbn [fst snd].
    apply (@ends_mono _ sa _ sb'); [auto | exact Hmono |].
    apply IH; auto using in_flight_sym.
Qed.

(** At the ends one refresh at least holds a new pair, and the store the
    refresh token of such a pair. *)
Lemma ends_settled (ea eb : Effect) (w : World) :
  in_flight presented id n (Finished ea) (Finished eb) w ->
  exists a r, (ea = refreshed a r \/ eb = refreshed a r)
              /\ persisted id (users w) = Some r.
Proof.
  intros (_ & _ & _ & Hpass & Hi).
  assert (Hsome : exists r, issued (Finished ea) r \/ issued (Finished eb) r).
  { destruct Hpass as [(a & r & H) | [(a & r & H) | (H & _)]];
      [subst; exists r; left; exists a; reflexivity
      | subst; exists r; right; exists a; reflexivity
      | discriminate]. }
  destruct (Hi Hsome) as (r & [[a Hr] | [a Hr]] & Hpers);
    injection Hr as ->; exists a, r; auto.
Qed.

(** Two refreshes that both read before either saves. *)
Lemma race_both_read (sched : list bool) (p q : Prog Effect) (w : World) :
  at_stage presented id n Start p ->
  at_stage presented id n Start q ->
  in_flight presented id n Start Start w ->
  persisted id (users w) = Some presented ->
  ends presented id n Checked Checked
    (interleave (true :: false :: sched) p q w)
  /\ ends presented id n Checked Checked
       (interleave (false :: true :: sched) p q w).
Proof.
  intros Ha Hb Hin Hpers.
  destruct (@step_start Start p w Ha Hin Hpers) as (p' & Hp' & Ha' & Hin1).
  destruct (@step_start Start q w Hb (@in_flight_sym Start Start w Hin) Hpers)
    as (q' & Hq' & Hb' & Hin2).
  destruct (@step_start Checked q w Hb (@in_flight_sym Checked Start w Hin1) Hpers)
    as (q1 & Hq1 & Hb1 & Hin3).
  destruct (@step_start Checked p w Ha (@in_flight_sym Checked Start w Hin2) Hpers)
    as (p1 & Hp1 & Ha1 & Hin4).
  split.
  - rewrite interleave_true, Hp'. cbn [fst snd].
    rewrite interleave_false, Hq1. cbn [fst snd].
    apply race_ends; auto using in_flight_sym.
  - rewrite interleave_false, Hq'. cbn [fst snd].
    rewrite interleave_true, Hp1. cbn [fst snd].
    apply race_ends; auto using in_flight_sym.
Qed.

End Race.

(** C8, as the code has it.  Two refreshes that present the same token,
    the persisted one, take their store operations in any order (the
    read for the comparison, the read and the save of the generation are
    three separate operations, and nothing makes the comparison and the
    save one step).  Whatever the order, on a store that serves them: both
    answer; an answer is the new pair or the rejection "Refresh token is
    expired or used."; at least one is a new pair; and the store ends with
    the refresh token of a pair that was returned.  When the first two
    turns are the reads of the two requests, both are answered with a new
    pair. *)
Theorem refresh_race :
  forall (sched : list bool) (req1 req2 : Request) (t : string)
         (id : ObjectId) (u : User) (w : World),
    incomingRefreshToken req1 = inr (Some t) ->
    incomingRefreshToken req2 = inr (Some t) ->
    faults w = [] ->
    subject t (now w) = Some id ->
    find (has_id id) (users w) = Some u ->
    refreshToken u = Some t ->
    (exists (ea eb : Effect) (w' : World),
       interleave sched (refreshAccessToken req1) (refreshAccessToken req2) w
         = (inr ea, inr eb, w')
       /\ answer ea /\ answer eb
       /\ exists a r, (ea = refreshed a r \/ eb = refreshed a r)
                      /\ persisted id (users w') = Some r)
    /\ (forall first : bool,
          exists (a1 r1 a2 r2 : string) (w' : World),
            interleave (first :: negb first :: sched)
              (refreshAccessToken req1) (refreshAccessToken req2) w
            = (inr (refreshed a1 r1), inr (refreshed a2 r2), w')).
Proof.
  intros sched req1 req2 t id u w Hin1 Hin2 Hf Hs Hu Ht.
  pose proof (@refresh_starts t id (now w) req1 Hin1 Hs) as Ha.
  pose proof (@refresh_starts t id (now w) req2 Hin2 Hs) as Hb.
  assert (Hpers : persisted id (users w) = Some t).
  { rewrite (persisted_found _ _ Hu). exact Ht. }
  assert (Hin : in_flight t id (now w) Start Start w).
  { split; [exact Hf |]. split; [reflexivity |]. split; [eauto |].
    split; [right; right; auto |].
    intros [r [[a H] | [a H]]]; discriminate. }
  split.
  - destruct (@race_ends t id (now w) sched Start Start _ _ w Ha Hb Hin)
      as (ea & eb & w' & Hout & Hea & Heb & Hend & _).
    exists ea, eb, w'. repeat (split; [assumption |]).
    eapply ends_settled; eassumption.
  - intros first.
    destruct (@race_both_read t id (now w) sched _ _ w Ha Hb Hin Hpers)
      as [H1 H2].
    assert (H : ends t id (now w) Checked Checked
                  (interleave (first :: negb first :: sched)
                     (refreshAccessToken req1) (refreshAccessToken req2) w))
      by (destruct first; assumption).
    destruct H as (ea & eb & w' & Hout & _ & _ & _ & Hpa & Hpb).
    destruct (Hpa I) as (a1 & r1 & ->). destruct (Hpb I) as (a2 & r2 & ->).
    exists a1, r1, a2, r2, w'. exact Hout.
Qed.

End Sessions.

(** * The properties at work on the reference service *)

Lemma issuance_is_atomic_witness :
  let w := {| users := [Reference.alice]; now := 100;
              faults := [None; Some (TypeError "connection lost")] |} in
  run (generateAccessTokenAndRefreshToken (E := Reference.env) 1%N) w =
    (inl generation_failed, {| users := users w; now := now w; faults := [] |}).
Proof.
  intros w.
  exact (proj1 (issuance_is_atomic (E := Reference.env) 1%N w
                  (u := Reference.alice) (e := TypeError "connection lost")
                  (rest := []) eq_refl eq_refl)).
Defined.

(** The same at the two callers: the login and the refresh whose save is
    rejected answer with an error, set no cookie, and leave the store as
    it was. *)
Lemma callers_when_save_fails :
  let t := Reference.sign "refresh-secret" 1%N 50 864000 in
  let session := set_refreshToken Reference.alice (Some t) in
  let lost := Some (TypeError "connection lost") in
  run (loginUser (E := Reference.env) (login_request "alice" "s3cret"))
      {| users := [Reference.alice]; now := 100; faults := [None; None; lost] |}
  = (inr (rejection 500 (message generation_failed)), world [Reference.alice] 100)
  /\ run (refreshAccessToken (E := Reference.env) (refresh_request t))
         {| users := [session]; now := 100; faults := [None; None; lost] |}
     = (inr (rejection 401 (message generation_failed)), world [session] 100).
Proof. split; reflexivity. Qed.

Lemma refresh_errors_collapse_witness :
  let w := {| users := [Reference.alice]; now := 100;
              faults := [Some (TypeError "connection lost")] |} in
  let t := Reference.sign "refresh-secret" 1%N 50 864000 in
  run (refreshAccessToken (E := Reference.env) (refresh_request t)) w =
    (inr (rejection 401 "connection lost"),
     {| users := [Reference.alice]; now := 100; faults := [] |}).
Proof.
  intros w t.
  exact (refresh_errors_collapse (E := Reference.env) (refresh_request t)
           (tok := Some t) w eq_refl).
Defined.



Lemma logout_idempotent_witness :
  let session := set_refreshToken Reference.alice (Some "some-token") in
  let req := set_user (cookie_request "t") (select_safe Reference.alice) in
  exists w1 : World,
    run (logoutUser (E := Reference.env) req) (world [session; Reference.bob] 100)
    = (inr logged_out, w1)
    /\ persisted 1%N (users w1) = None
    /\ run (logoutUser (E := Reference.env) req) w1 = (inr logged_out, w1).
Proof.
  intros session req.
  exact (@logout_idempotent Reference.env req
           (world [session; Reference.bob] 100) eq_refl).
Defined.

Lemma verifyJWT_gate_witness :
  let token := Reference.sign "access-secret" 1%N 100 900 in
  let req := header_request ("Bearer " ++ token) in
  let w := world [Reference.alice; Reference.bob] 200 in
  run (verifyJWT (E := Reference.env) req) w =
    (inr (Next (set_user req (select_safe Reference.alice))), w).
Proof.
  intros token req w.
  destruct (@verifyJWT_gate Reference.env req w eq_refl)
    as (_ & _ & _ & _ & _ & _ & H).
  exact (H {| sub_id := 1%N; iat := 100; exp := 1000 |} eq_refl eq_refl).
Defined.

(** C6, as stated, fails in two places.  A request without the cookie
    whose Authorization header is the bare token, not [Bearer <token>], is
    let through; and with an empty access-token cookie present the
    credential is taken from the header. *)
Lemma verifyJWT_credential_counterexample :
  let token := Reference.sign "access-secret" 1%N 100 900 in
  let w := world [Reference.alice; Reference.bob] 200 in
  let bare := header_request token in
  let empty_cookie :=
    {| cookies := Some {| c_accessToken := Some ""; c_refreshToken := None |};
       authorization := Some ("Bearer " ++ token);
       body := None; user := None |} in
  (cookie_token bare = None
   /\ String.prefix "Bearer " token = false
   /\ run (verifyJWT (E := Reference.env) bare) w =
        (inr (Next (set_user bare (select_safe Reference.alice))), w))
  /\ (cookie_token empty_cookie = Some ""
      /\ extract_token empty_cookie = Some token
      /\ run (verifyJWT (E := Reference.env) empty_cookie) w =
           (inr (Next (set_user empty_cookie (select_safe Reference.alice))), w)).
Proof.
  intros token w bare empty_cookie. repeat split.
Qed.

Lemma verification_failures_share_status_witness :
  let forged := cookie_request (Reference.sign "attacker-secret" 1%N 100 900) in
  let expired := cookie_request (Reference.sign "access-secret" 1%N 100 900) in
  let w := world [Reference.alice] 5000 in
  exists r1 r2 : Response,
    run (verifyJWT (E := Reference.env) forged) w = (inr (Respond r1), w)
    /\ run (verifyJWT (E := Reference.env) expired) w = (inr (Respond r2), w)
    /\ status r1 = JNum 401 /\ status r2 = JNum 401
    /\ set_cookies r1 = [] /\ set_cookies r2 = []
    /\ json r1 = ErrorBody false "invalid signature"
    /\ json r2 = ErrorBody false "jwt expired"
    /\ (r1 = r2 <-> "invalid signature" = "jwt expired").
Proof.
  intros forged expired w.
  exact (@verification_failures_share_status Reference.env forged expired w w
           (JsonWebTokenError "invalid signature") TokenExpiredError
           eq_refl eq_refl eq_refl eq_refl).
Defined.

(** C3, as stated, fails: a forged token, a malformed token and an expired
    token are answered with the same status and three different
    messages. *)
Lemma forged_and_expired_differ_counterexample :
  let forged := cookie_request (Reference.sign "attacker-secret" 1%N 100 900) in
  let malformed := cookie_request "not-a-token" in
  let expired := cookie_request (Reference.sign "access-secret" 1%N 100 900) in
  let w := world [Reference.alice] 5000 in
  run (verifyJWT (E := Reference.env) forged) w =
    (inr (rejection 401 "invalid signature"), w)
  /\ run (verifyJWT (E := Reference.env) malformed) w =
    (inr (rejection 401 "jwt malformed"), w)
  /\ run (verifyJWT (E := Reference.env) expired) w =
    (inr (rejection 401 "jwt expired"), w)
  /\ run (verifyJWT (E := Reference.env) forged) w
     <> run (verifyJWT (E := Reference.env) expired) w
  /\ run (verifyJWT (E := Reference.env) malformed) w
     <> run (verifyJWT (E := Reference.env) expired) w.
Proof.
  intros forged malformed expired w. repeat split; discriminate.
Qed.

Lemma rotation_invalidates_old_token_witness :
  let t1 := Reference.sign "refresh-secret" 1%N 100 864000 in
  let a2 := Reference.sign "access-secret" 1%N 101 900 in
  let t2 := Reference.sign "refresh-secret" 1%N 101 864000 in
  let w := world [set_refreshToken Reference.alice (Some t1); Reference.bob] 101 in
  let w1 := world [set_refreshToken Reference.alice (Some t2); Reference.bob] 101 in
  run (refreshAccessToken (E := Reference.env) (refresh_request t1)) (at_time w1 102)
    = (inr token_reused, at_time w1 102)
  /\ exists (a3 t3 : string) (w2 : World),
       run (refreshAccessToken (E := Reference.env) (refresh_request t2))
           (at_time w1 103) = (inr (refreshed a3 t3), w2).
Proof.
  intros t1 a2 t2 w w1.
  refine (@rotation_invalidates_old_token Reference.env
            (refresh_request t1) (refresh_request t1) (refresh_request t2)
            t1 a2 t2 w w1 102 103 eq_refl eq_refl eq_refl eq_refl eq_refl _
            eq_refl eq_refl).
  vm_compute. discriminate.
Defined.

(** C1, as stated, fails in three places.  When the rotation happens
    within the tick of the clock in which the presented token was issued:
    the login at time 100 returns [t1], the refresh of [t1] at time 100
    succeeds and returns [t1] again, and the next refresh of [t1] succeeds
    too.  After a rotation at time 200 that returned [t2]: a refresh of
    [t1] once [t1] has expired is rejected by the verification, with
    "jwt expired"; and a refresh of [t2] once [t2] has expired fails. *)
Lemma rotation_counterexample :
  let t1 := Reference.sign "refresh-secret" 1%N 100 864000 in
  let a := Reference.sign "access-secret" 1%N 100 900 in
  let w0 := world [Reference.alice; Reference.bob] 100 in
  let w1 := world [set_refreshToken Reference.alice (Some t1); Reference.bob] 100 in
  let a2 := Reference.sign "access-secret" 1%N 200 900 in
  let t2 := Reference.sign "refresh-secret" 1%N 200 864000 in
  let w2 := world [set_refreshToken Reference.alice (Some t2); Reference.bob] 200 in
  (run (loginUser (E := Reference.env) (login_request "alice" "s3cret")) w0
     = (inr (logged_in (Some (select_safe Reference.alice)) a t1), w1)
   /\ run (refreshAccessToken (E := Reference.env) (refresh_request t1)) w1
      = (inr (refreshed a t1), w1)
   /\ run (refreshAccessToken (E := Reference.env) (refresh_request t1)) w1
      <> (inr token_reused, w1))
  /\ (run (refreshAccessToken (E := Reference.env) (refresh_request t1))
          (at_time w1 200)
       = (inr (refreshed a2 t2), w2)
      /\ run (refreshAccessToken (E := Reference.env) (refresh_request t1))
             (at_time w2 900000)
         = (inr (rejection 401 "jwt expired"), at_time w2 900000)
      /\ rejection 401 "jwt expired" <> token_reused
      /\ run (refreshAccessToken (E := Reference.env) (refresh_request t2))
             (at_time w2 900000)
         = (inr (rejection 401 "jwt expired"), at_time w2 900000)).
Proof.
  intros t1 a w0 w1 a2 t2 w2. repeat split; discriminate.
Qed.

Lemma single_session_witness :
  let t1 := Reference.sign "refresh-secret" 1%N 100 864000 in
  let t2 := Reference.sign "refresh-secret" 1%N 101 864000 in
  let w := world [Reference.alice; Reference.bob] 100 in
  let w2 := world [set_refreshToken Reference.alice (Some t2); Reference.bob] 101 in
  persisted 1%N (users w2) = Some t2
  /\ run (refreshAccessToken (E := Reference.env) (refresh_request t1))
         (at_time w2 102) = (inr token_reused, at_time w2 102).
Proof.
  intros t1 t2 w w2.
  pose (req := login_request "alice" "s3cret").
  pose (b := {| b_username := Some "alice"; b_email := None;
                b_password := Some "s3cret"; b_refreshToken := None |}).
  pose (w1 := world [set_refreshToken Reference.alice (Some t1); Reference.bob] 100).
  assert (Hne : t2 <> t1) by (vm_compute; discriminate).
  destruct (@single_session Reference.env req req (refresh_request t1) b b
              (Some (select_safe Reference.alice))
              (Some (select_safe Reference.alice))
              (Reference.sign "access-secret" 1%N 100 900) t1
              (Reference.sign "access-secret" 1%N 101 900) t2
              w w1 w2 101 102 1%N
              eq_refl eq_refl eq_refl eq_refl eq_refl eq_refl eq_refl eq_refl
              Hne eq_refl) as (_ & H2 & H3 & _).
  exact (conj H2 H3).
Defined.

(** C2, as stated, fails for two logins within one tick of the clock:
    both return the same refresh token, and the refresh with the token of
    the first login succeeds.  And when the token of the first login has
    expired, the refresh with it is rejected by the verification, with
    "jwt expired". *)
Lemma login_same_tick_counterexample :
  let t1 := Reference.sign "refresh-secret" 1%N 100 864000 in
  let a := Reference.sign "access-secret" 1%N 100 900 in
  let w0 := world [Reference.alice; Reference.bob] 100 in
  let w1 := world [set_refreshToken Reference.alice (Some t1); Reference.bob] 100 in
  let a2 := Reference.sign "access-secret" 1%N 200 900 in
  let t2 := Reference.sign "refresh-secret" 1%N 200 864000 in
  let w2 := world [set_refreshToken Reference.alice (Some t2); Reference.bob] 200 in
  (run (loginUser (E := Reference.env) (login_request "alice" "s3cret")) w0
     = (inr (logged_in (Some (select_safe Reference.alice)) a t1), w1)
   /\ run (loginUser (E := Reference.env) (login_request "alice" "s3cret")) w1
      = (inr (logged_in (Some (select_safe Reference.alice)) a t1), w1)
   /\ run (refreshAccessToken (E := Reference.env) (refresh_request t1)) w1
      = (inr (refreshed a t1), w1)
   /\ run (refreshAccessToken (E := Reference.env) (refresh_request t1)) w1
      <> (inr token_reused, w1))
  /\ (run (loginUser (E := Reference.env) (login_request "alice" "s3cret"))
          (at_time w1 200)
       = (inr (logged_in (Some (select_safe Reference.alice)) a2 t2), w2)
      /\ run (refreshAccessToken (E := Reference.env) (refresh_request t1))
             (at_time w2 900000)
         = (inr (rejection 401 "jwt expired"), at_time w2 900000)
      /\ rejection 401 "jwt expired" <> token_reused).
Proof.
  intros t1 a w0 w1 a2 t2 w2. repeat split; discriminate.
Qed.

Lemma refresh_race_witness :
  let t := Reference.sign "refresh-secret" 1%N 100 864000 in
  let w := world [set_refreshToken Reference.alice (Some t); Reference.bob] 105 in
  exists (ea eb : Effect) (w' : World),
    interleave [true; true; false; true; false; false]
      (refreshAccessToken (E := Reference.env) (refresh_request t))
      (refreshAccessToken (E := Reference.env) (refresh_request t)) w
      = (inr ea, inr eb, w')
    /\ answer ea /\ answer eb
    /\ exists a r, (ea = refreshed a r \/ eb = refreshed a r)
                   /\ persisted 1%N (users w') = Some r.
Proof.
  intros t w.
  exact (proj1 (@refresh_race Reference.env
                  [true; true; false; true; false; false]
                  (refresh_request t) (refresh_request t) t 1%N
                  (set_refreshToken Reference.alice (Some t)) w
                  eq_refl eq_refl eq_refl eq_refl eq_refl eq_refl)).
Defined.

(** C8, as stated, fails: when each of the two refreshes has compared the
    token before the other has saved, both succeed and none is rejected. *)
Lemma refresh_race_counterexample :
  let t := Reference.sign "refresh-secret" 1%N 100 864000 in
  let a' := Reference.sign "access-secret" 1%N 105 900 in
  let t' := Reference.sign "refresh-secret" 1%N 105 864000 in
  let w := world [set_refreshToken Reference.alice (Some t); Reference.bob] 105 in
  let w' := world [set_refreshToken Reference.alice (Some t'); Reference.bob] 105 in
  persisted 1%N (users w) = Some t
  /\ interleave [true; false]
       (refreshAccessToken (E := Reference.env) (refresh_request t))
       (refreshAccessToken (E := Reference.env) (refresh_request t)) w
     = (inr (refreshed a' t'), inr (refreshed a' t'), w')
  /\ refreshed a' t' <> token_reused.
Proof.
  intros t a' t' w w'. repeat split. discriminate.
Qed.

(** * More of the session handlers *)

(** ** What a run changes *)

Lemma same_accounts_refl (us : list User) : same_accounts us us.
Proof. reflexivity. Qed.

Lemma same_accounts_trans (us1 us2 us3 : list User) :
  same_accounts us1 us2 -> same_accounts us2 us3 -> same_accounts us1 us3.
Proof. unfold same_accounts. congruence. Qed.

(** Writing a refresh token on the document found changes no account. *)
Lemma same_accounts_update (id : ObjectId) (us : list User) (f : User -> User) :
  (forall u, account (f u) = account u) ->
  same_accounts us (update id f us).
Proof.
  intros Hf. unfold same_accounts.
  induction us as [| v rest IH]; simpl; [reflexivity |].
  destruct (has_id id v); simpl; [rewrite Hf | rewrite IH]; reflexivity.
Qed.

Lemma same_accounts_save (id : ObjectId) (us : list User) (u : User)
  (t : option string) :
  find (has_id id) us = Some u ->
  same_accounts us (update id (fun _ => set_refreshToken u t) us).
Proof.
  intros Hu. unfold same_accounts.
  induction us as [| v rest IH]; simpl in *; [reflexivity |].
  destruct (has_id id v); simpl.
  - injection Hu as ->. reflexivity.
  - rewrite IH by exact Hu. reflexivity.
Qed.

(** The documents of the other users stay as they are. *)
Lemma update_other (id : ObjectId) (f : User -> User) (us : list User) (v : User) :
  In v us -> _id v <> id -> In v (update id f us).
Proof.
  intros Hin Hne. induction us as [| u rest IH]; simpl in *; [contradiction |].
  destruct (has_id id u) eqn:Hu.
  - destruct Hin as [-> | Hin]; [| right; exact Hin].
    apply has_id_eq in Hu. contradiction.
  - destruct Hin as [-> | Hin]; [left; reflexivity | right; apply IH, Hin].
Qed.

Lemma keeps_ret (A : Type) (a : A) : keeps_accounts (Ret a).
Proof. intros w. reflexivity. Qed.

Lemma keeps_throw (A : Type) (e : JsError) : keeps_accounts (@Throw A e).
Proof. intros w. reflexivity. Qed.

Lemma keeps_bind (A B : Type) (p : Prog A) (f : A -> Prog B) :
  keeps_accounts p -> (forall a, keeps_accounts (f a)) ->
  keeps_accounts (bind p f).
Proof.
  intros Hp Hf w. rewrite run_bind. specialize (Hp w).
  destruct (run p w) as [[e | a] w1]; simpl in *; [exact Hp |].
  eapply same_accounts_trans; [exact Hp | apply Hf].
Qed.

Lemma keeps_try_catch (A : Type) (p : Prog A) (h : JsError -> Prog A) :
  keeps_accounts p -> (forall e, keeps_accounts (h e)) ->
  keeps_accounts (try_catch p h).
Proof.
  intros Hp Hh w. rewrite run_try_catch. specialize (Hp w).
  destruct (run p w) as [[e | a] w1]; simpl in *; [| exact Hp].
  eapply same_accounts_trans; [exact Hp | apply Hh].
Qed.

Lemma keeps_clock : keeps_accounts clock.
Proof. intros w. reflexivity. Qed.

Lemma keeps_await (X : Type) (op : StoreOp X) :
  (forall us, same_accounts us (snd (exec op us))) ->
  keeps_accounts (await op).
Proof.
  intros Hop w. rewrite run_await, serve_hd.
  destruct (hd None (faults w)); simpl; [reflexivity | apply Hop].
Qed.

Lemma keeps_find_by_id (id : ObjectId) : keeps_accounts (await (FindById id)).
Proof. apply keeps_await. intros us. reflexivity. Qed.

Lemma keeps_find_one (uname mail : option string) :
  keeps_accounts (await (FindOne uname mail)).
Proof. apply keeps_await. intros us. reflexivity. Qed.

Lemma keeps_unset (id : ObjectId) : keeps_accounts (await (UnsetRefreshToken id)).
Proof.
  apply keeps_await. intros us. simpl.
  apply same_accounts_update. intros u. reflexivity.
Qed.

Lemma keeps_asyncHandler {E : Environment} (controller : Request -> Prog Effect)
  (req : Request) :
  keeps_accounts (controller req) -> keeps_accounts (asyncHandler controller req).
Proof.
  intros H. unfold asyncHandler. apply keeps_try_catch; [exact H |].
  intros e. destruct (answer_error e); [apply keeps_throw | apply keeps_ret].
Qed.

Section Frames.

Context {E : Environment}.

(** Token-pair generation, whatever the faults: it throws and leaves the
    collection alone, or it returns the pair made for the document found
    and writes the refresh token on that document. *)
Lemma generate_effect (userId : ObjectId) (w : World) :
  (exists w', run (generateAccessTokenAndRefreshToken userId) w
              = (inl generation_failed, w')
              /\ users w' = users w)
  \/ (exists (u : User) (w' : World),
        run (generateAccessTokenAndRefreshToken userId) w
        = (inr (generateAccessToken u (now w), generateRefreshToken u (now w)), w')
        /\ find (has_id userId) (users w) = Some u
        /\ users w' =
           update userId
             (fun _ => set_refreshToken u (Some (generateRefreshToken u (now w))))
             (users w)
        /\ now w' = now w
        /\ faults w' = tl (tl (faults w))).
Proof.
  destruct (run (generateAccessTokenAndRefreshToken userId) w)
    as [[err | [a r]] w'] eqn:Hrun.
  - left. destruct (generate_throws _ _ Hrun) as [-> Hus]. eauto.
  - right. revert Hrun. unfold generateAccessTokenAndRefreshToken.
    rewrite run_try_catch, run_bind, run_await, serve_hd.
    destruct (hd None (faults w)) as [e0 |]; simpl; [discriminate |].
    destruct (find (has_id userId) (users w)) as [u |] eqn:Hu; simpl;
      [| discriminate].
    rewrite serve_hd. simpl.
    destruct (hd None (tl (faults w))) as [e1 |]; simpl; [discriminate |].
    rewrite (find_has_id _ _ Hu), Hu. simpl.
    intros H. inversion H; subst; clear H.
    exists u. eexists. repeat split.
Qed.

Lemma keeps_generate (userId : ObjectId) :
  keeps_accounts (generateAccessTokenAndRefreshToken userId).
Proof.
  intros w. destruct (generate_effect userId w)
    as [(w' & Hrun & Hus) | (u & w' & Hrun & Hu & Hus & _)];
    rewrite Hrun; simpl; rewrite Hus.
  - reflexivity.
  - apply same_accounts_save, Hu.
Qed.

(** X1.  The session handlers never add, remove or reorder users, and never
    change an id, a name, an email or a password: whatever the request
    and whatever the faults of the store, the collection after a login, a
    refresh, a logout or a pass through the middleware differs from the
    one before at most in refresh tokens. *)
Theorem handlers_keep_accounts :
  forall (req : Request) (w : World),
    same_accounts (users w) (users (snd (run (loginUser req) w)))
    /\ same_accounts (users w) (users (snd (run (refreshAccessToken req) w)))
    /\ same_accounts (users w) (users (snd (run (logoutUser req) w)))
    /\ same_accounts (users w) (users (snd (run (verifyJWT req) w))).
Proof.
  intros req w. repeat apply conj.
  - apply keeps_asyncHandler. unfold loginUser_controller.
    destruct (body req) as [b |]; [| apply keeps_throw].
    destruct (negb (truthy_str (or_str (b_username b) (b_email b)))
              || negb (truthy_str (b_password b))); [apply keeps_throw |].
    apply keeps_bind; [apply keeps_find_one |].
    intros [u |]; [| apply keeps_throw].
    destruct (negb (isPasswordCorrect u (str_of (b_password b))));
      [apply keeps_throw |].
    apply keeps_bind; [apply keeps_generate |]. intros [a r].
    apply keeps_bind; [apply keeps_find_by_id |]. intros d. apply keeps_ret.
  - apply keeps_asyncHandler. unfold refreshAccessToken_controller.
    destruct (incomingRefreshToken req) as [e | tok]; [apply keeps_throw |].
    destruct (negb (truthy_str tok)); [apply keeps_throw |].
    apply keeps_try_catch; [| intros e; apply keeps_throw].
    unfold refresh_try. apply keeps_bind; [apply keeps_clock |]. intros t.
    destruct (jwt_verify (str_of tok) REFRESH_TOKEN_SECRET t) as [e | p];
      [apply keeps_throw |].
    apply keeps_bind; [apply keeps_find_by_id |].
    intros [u |]; [| apply keeps_throw].
    destruct (negb (opt_eqb (refreshToken u) (str_of tok)));
      [apply keeps_throw |].
    apply keeps_bind; [apply keeps_generate |]. intros [a r]. apply keeps_ret.
  - apply keeps_asyncHandler. unfold logoutUser_controller.
    destruct (user req) as [u |]; [| apply keeps_throw].
    apply keeps_bind; [apply keeps_unset |]. intros _. apply keeps_ret.
  - apply keeps_asyncHandler. unfold verifyJWT_controller.
    apply keeps_try_catch; [| intros e; apply keeps_throw].
    cbv zeta.
    destruct (negb (truthy_str (extract_token req))); [apply keeps_throw |].
    apply keeps_bind; [apply keeps_clock |]. intros t.
    destruct (jwt_verify (str_of (extract_token req)) ACCESS_TOKEN_SECRET t)
      as [e | p]; [apply keeps_throw |].
    apply keeps_bind; [apply keeps_find_by_id |]. intros u.
    destruct (option_map select_safe u); [apply keeps_ret | apply keeps_throw].
Qed.

(** ** A refresh is all or nothing *)

(** The [try] block of a refresh, whatever the faults: it throws and has
    changed nothing, or it answers with the new pair, persisted for the
    subject of the token. *)
Lemma refresh_try_outcome (t : string) (w : World) :
  (exists (e : JsError) (w' : World),
      run (refresh_try t) w = (inl e, w') /\ users w' = users w)
  \/ (exists (a r : string) (w' : World) (id : ObjectId),
        run (refresh_try t) w = (inr (refreshed a r), w')
        /\ subject t (now w) = Some id
        /\ persisted id (users w) = Some t
        /\ persisted id (users w') = Some r).
Proof.
  unfold refresh_try, subject. rewrite run_bind, run_clock.
  destruct (jwt_verify t REFRESH_TOKEN_SECRET (now w)) as [e | p].
  { left. eexists _, _. split; reflexivity. }
  rewrite run_bind, run_await, serve_hd.
  destruct (hd None (faults w)) as [e0 |].
  { left. eexists _, _. split; reflexivity. }
  cbn [fst snd exec].
  destruct (find (has_id (sub_id p)) (users w)) as [u |] eqn:Hu.
  2: { left. eexists _, _. split; reflexivity. }
  destruct (opt_eqb (refreshToken u) t) eqn:Heq; cbn [negb].
  2: { left. eexists _, _. split; reflexivity. }
  rewrite run_bind. rewrite (find_has_id _ _ Hu).
  match goal with
  | |- context [run (generateAccessTokenAndRefreshToken ?i) ?v] =>
      destruct (generate_effect i v)
        as [(w' & Hrun & Hus) | (d & w' & Hrun & Hd & Hus & _)]
  end; rewrite Hrun.
  - left. eexists _, _. split; [reflexivity | exact Hus].
  - right. cbn [users] in Hd, Hus. eexists _, _, w', (sub_id p).
    split; [reflexivity |]. split; [reflexivity |].
    split; [rewrite (persisted_found _ _ Hu); apply opt_eqb_true, Heq |].
    rewrite Hus. unfold persisted.
    erewrite find_update_found;
      [reflexivity | exact Hd | simpl; eapply find_has_id, Hd].
Qed.

(** X2.  Whatever the request and the faults of the store, a refresh answers;
    the answer is the new pair, then persisted in place of the token
    presented, or it is a rejection with status 401 or 500, and then the
    collection is exactly as it was. *)
Theorem refresh_all_or_nothing :
  forall (req : Request) (w : World),
    (exists (a r t : string) (w' : World) (id : ObjectId),
        run (refreshAccessToken req) w = (inr (refreshed a r), w')
        /\ incomingRefreshToken req = inr (Some t)
        /\ subject t (now w) = Some id
        /\ persisted id (users w) = Some t
        /\ persisted id (users w') = Some r)
    \/ (exists (msg : string) (w' : World),
          (run (refreshAccessToken req) w = (inr (rejection 401 msg), w')
           \/ run (refreshAccessToken req) w = (inr (rejection 500 msg), w'))
          /\ users w' = users w).
Proof.
  intros req w. unfold refreshAccessToken. rewrite run_asyncHandler.
  unfold refreshAccessToken_controller.
  destruct (incomingRefreshToken req) as [e | tok] eqn:Hin.
  { right. exists (message e), w. split; [| reflexivity]. right.
    unfold incomingRefreshToken in Hin.
    destruct (cookies req) as [c |];
      [destruct (truthy_str (c_refreshToken c)); [discriminate |];
       destruct (body req); [discriminate |] |];
      injection Hin as <-; reflexivity. }
  destruct (truthy_str tok) eqn:Ht; cbn [negb].
  2: { right. eexists _, w. split; [left; reflexivity | reflexivity]. }
  rewrite run_try_catch.
  destruct (refresh_try_outcome (str_of tok) w)
    as [(e & w' & Hrun & Hus) | (a & r & w' & id & Hrun & Hs & Hp & Hp')];
    rewrite Hrun.
  - right. exists (message e), w'. split; [left; reflexivity | exact Hus].
  - left. exists a, r, (str_of tok), w', id.
    split; [reflexivity |]. split; [| auto].
    destruct tok as [s |]; [reflexivity | discriminate].
Qed.

(** ** What the answers show *)

Lemma hd_in (fs : list (option JsError)) (e : JsError) :
  hd None fs = Some e -> In (Some e) fs.
Proof.
  destruct fs as [| f fs]; [discriminate |]. cbn [hd]. intros ->. now left.
Qed.

Lemma in_tl (fs : list (option JsError)) (f : option JsError) :
  In f (tl fs) -> In f fs.
Proof. destruct fs; [exact (fun x => x) | now right]. Qed.

(** X3.  Whatever the request and the faults of the store, a login ends
    in one of three ways.  It answers with an error body and sets no
    cookie.  Or it answers with the pair and the user it was issued for;
    that user is shown without password and without refresh token, and
    the refresh token of the answer is the one persisted for that user.
    Or an error of the store whose code is no status that [res.status]
    takes reaches the wrapper: then the wrapper throws the error of
    [res.status] and answers nothing. *)
Theorem login_answer_is_sanitized :
  forall (req : Request) (w : World),
    exists (res : Result Effect) (w' : World),
      run (loginUser req) w = (res, w')
      /\ ((exists eff : Effect, res = inr eff /\ is_rejection eff)
          \/ (exists (d : User) (a r : string),
                 res = inr (logged_in (Some d) a r)
                 /\ password d = None /\ refreshToken d = None
                 /\ persisted (_id d) (users w') = Some r)
          \/ (exists e : JsError,
                 In (Some e) (faults w)
                 /\ valid_status (js_or (code e) (JNum 500)) = false
                 /\ res = inl (status_error (js_or (code e) (JNum 500))))).
Proof.
  intros req w. unfold loginUser. rewrite run_asyncHandler.
  unfold loginUser_controller.
  destruct (body req) as [b |].
  2: { eexists _, _. split; [reflexivity |]. left.
       eexists. split; [reflexivity |]. unfold is_rejection. eauto. }
  destruct (negb (truthy_str (or_str (b_username b) (b_email b)))
            || negb (truthy_str (b_password b))).
  { eexists _, _. split; [reflexivity |]. left.
    eexists. split; [reflexivity |]. unfold is_rejection. eauto. }
  rewrite run_bind, run_await, serve_hd.
  destruct (hd None (faults w)) as [e0 |] eqn:He0.
  { eexists _, _. split; [reflexivity |].
    destruct (valid_status (js_or (code e0) (JNum 500))) eqn:Hv.
    - left. rewrite (answer_valid _ Hv). eexists. split; [reflexivity |].
      unfold is_rejection. eauto.
    - right. right. exists e0. rewrite (answer_invalid _ Hv).
      split; [apply hd_in, He0 |]. split; [exact Hv | reflexivity]. }
  cbn [fst snd exec].
  destruct (find (matches_or (b_username b) (b_email b)) (users w)) as [u |].
  2: { eexists _, _. split; [reflexivity |]. left.
       eexists. split; [reflexivity |]. unfold is_rejection. eauto. }
  destruct (isPasswordCorrect u (str_of (b_password b))); cbn [negb].
  2: { eexists _, _. split; [reflexivity |]. left.
       eexists. split; [reflexivity |]. unfold is_rejection. eauto. }
  rewrite run_bind.
  match goal with
  | |- context [run (generateAccessTokenAndRefreshToken ?i) ?v] =>
      destruct (generate_effect i v)
        as [(w1 & Hrun & Hus) | (d & w1 & Hrun & Hd & Hus & _ & Hf1)]
  end; rewrite Hrun.
  { eexists _, _. split; [reflexivity |]. left.
    eexists. split; [reflexivity |]. unfold is_rejection. eauto. }
  rewrite run_bind, run_await, serve_hd.
  destruct (hd None (faults w1)) as [e1 |] eqn:He1.
  { eexists _, _. split; [reflexivity |].
    destruct (valid_status (js_or (code e1) (JNum 500))) eqn:Hv.
    - left. rewrite (answer_valid _ Hv). eexists. split; [reflexivity |].
      unfold is_rejection. eauto.
    - right. right. exists e1. rewrite (answer_invalid _ Hv).
      split; [| split; [exact Hv | reflexivity]].
      apply hd_in in He1. rewrite Hf1 in He1. cbn [faults] in He1.
      apply in_tl, in_tl, in_tl, He1. }
  cbn [fst snd exec]. cbn [users] in Hd, Hus. rewrite Hus.
  erewrite find_update_found;
    [| exact Hd | simpl; eapply find_has_id, Hd].
  eexists _, _. split; [reflexivity |]. right. left.
  eexists _, _, _. split; [reflexivity |]. split; [reflexivity |].
  split; [reflexivity |].
  cbn [users select_safe set_refreshToken _id]. unfold persisted.
  rewrite (find_has_id _ _ Hd).
  erewrite find_update_found;
    [reflexivity | exact Hd | simpl; eapply find_has_id, Hd].
Qed.

(** X4.  A login whose last lookup, of the user to show, is rejected by
    the store ends with that error although the new refresh token is
    persisted already: the session before it is gone and the client has
    received no token.  The error is answered, under its code or 500,
    when that is a status from 100 to 999; otherwise the wrapper throws
    the error of [res.status] and the client gets no answer at all. *)
Theorem login_error_after_rotation :
  forall (req : Request) (b : ReqBody) (w : World) (u : User) (e : JsError)
         (rest : list (option JsError)),
    body req = Some b ->
    truthy_str (or_str (b_username b) (b_email b)) = true ->
    truthy_str (b_password b) = true ->
    find (matches_or (b_username b) (b_email b)) (users w) = Some u ->
    isPasswordCorrect u (str_of (b_password b)) = true ->
    faults w = None :: None :: None :: Some e :: rest ->
    exists (d : User) (w' : World),
      find (has_id (_id u)) (users w) = Some d
      /\ run (loginUser req) w =
         (let st := js_or (code e) (JNum 500) in
          if valid_status st
          then inr (Respond {| status := st; set_cookies := [];
                               json := ErrorBody false (message e) |})
          else inl (status_error st), w')
      /\ persisted (_id u) (users w') = Some (generateRefreshToken d (now w)).
Proof.
  intros req b w u e rest Hb Hid Hpw Hu Hok Hf.
  destruct (find_id_of_found _ _ Hu) as [d Hd]. exists d.
  unfold loginUser. rewrite run_asyncHandler.
  unfold loginUser_controller. rewrite Hb, Hid, Hpw. cbn [negb orb].
  rewrite run_bind, run_await, serve_hd, Hf. cbn [hd tl fst snd exec].
  rewrite Hu, Hok. cbn [negb]. rewrite run_bind.
  match goal with
  | |- context [run (generateAccessTokenAndRefreshToken ?i) ?v] =>
      destruct (generate_effect i v)
        as [(w1 & Hrun & Hus) | (d' & w1 & Hrun & Hd' & Hus & Hn & Hf1)]
  end.
  - exfalso. revert Hrun. unfold generateAccessTokenAndRefreshToken.
    rewrite run_try_catch, run_bind, run_await, serve_hd.
    cbn [faults hd tl users fst snd exec]. rewrite Hd.
    simpl. unfold serve. simpl. rewrite (find_has_id _ _ Hd), Hd. simpl.
    discriminate.
  - cbn [users faults now] in Hd', Hus, Hf1, Hn. rewrite Hd in Hd'.
    injection Hd' as <-. rewrite Hrun.
    rewrite run_bind, run_await, serve_hd, Hf1. cbn [hd tl].
    eexists. split; [exact Hd |]. split; [reflexivity |].
    cbn [users]. rewrite Hus. unfold persisted.
    erewrite find_update_found;
      [reflexivity | exact Hd | simpl; eapply find_has_id, Hd].
Qed.

(** ** One user per request *)

Lemma login_effect (req : Request) (w : World) :
  users (snd (run (loginUser req) w)) = users w
  \/ exists (b : ReqBody) (u d : User) (r : string),
       body req = Some b
       /\ find (matches_or (b_username b) (b_email b)) (users w) = Some u
       /\ isPasswordCorrect u (str_of (b_password b)) = true
       /\ find (has_id (_id u)) (users w) = Some d
       /\ users (snd (run (loginUser req) w)) =
          update (_id u) (fun _ => set_refreshToken d (Some r)) (users w).
Proof.
  unfold loginUser. rewrite run_asyncHandler. unfold loginUser_controller.
  destruct (body req) as [b |]; [| left; reflexivity].
  destruct (negb (truthy_str (or_str (b_username b) (b_email b)))
            || negb (truthy_str (b_password b))); [left; reflexivity |].
  rewrite run_bind, run_await, serve_hd.
  destruct (hd None (faults w)) as [e0 |]; [left; reflexivity |].
  cbn [fst snd exec].
  destruct (find (matches_or (b_username b) (b_email b)) (users w))
    as [u |] eqn:Hu; [| left; reflexivity].
  destruct (isPasswordCorrect u (str_of (b_password b))) eqn:Hok; cbn [negb];
    [| left; reflexivity].
  rewrite run_bind.
  match goal with
  | |- context [run (generateAccessTokenAndRefreshToken ?i) ?v] =>
      destruct (generate_effect i v)
        as [(w1 & Hrun & Hus) | (d & w1 & Hrun & Hd & Hus & _)]
  end; rewrite Hrun.
  { left. exact Hus. }
  cbn [users] in Hd, Hus. right. exists b, u, d. eexists.
  repeat (split; [reflexivity || assumption |]).
  rewrite run_bind, run_await, serve_hd.
  destruct (hd None (faults w1)); cbn [fst snd exec users]; exact Hus.
Qed.

Lemma refresh_effect (req : Request) (w : World) :
  users (snd (run (refreshAccessToken req) w)) = users w
  \/ exists (t r : string) (id : ObjectId) (u : User),
       incomingRefreshToken req = inr (Some t)
       /\ subject t (now w) = Some id
       /\ find (has_id id) (users w) = Some u
       /\ users (snd (run (refreshAccessToken req) w)) =
          update id (fun _ => set_refreshToken u (Some r)) (users w).
Proof.
  unfold refreshAccessToken. rewrite run_asyncHandler.
  unfold refreshAccessToken_controller.
  destruct (incomingRefreshToken req) as [e | [t |]] eqn:Hin;
    [left; reflexivity | | left; reflexivity].
  destruct (truthy_str (Some t)); cbn [negb]; [| left; reflexivity].
  rewrite run_try_catch. cbn [str_of]. unfold refresh_try.
  rewrite run_bind, run_clock.
  destruct (jwt_verify t REFRESH_TOKEN_SECRET (now w)) as [e | p] eqn:Hv;
    [left; reflexivity |].
  rewrite run_bind, run_await, serve_hd.
  destruct (hd None (faults w)) as [e0 |]; [left; reflexivity |].
  cbn [fst snd exec].
  destruct (find (has_id (sub_id p)) (users w)) as [u |] eqn:Hu;
    [| left; reflexivity].
  destruct (opt_eqb (refreshToken u) t); cbn [negb]; [| left; reflexivity].
  rewrite run_bind, (find_has_id _ _ Hu).
  match goal with
  | |- context [run (generateAccessTokenAndRefreshToken ?i) ?v] =>
      destruct (generate_effect i v)
        as [(w1 & Hrun & Hus) | (d & w1 & Hrun & Hd & Hus & _)]
  end; rewrite Hrun.
  { left. exact Hus. }
  cbn [users now] in Hd, Hus. right. exists t. eexists. exists (sub_id p), d.
  split; [reflexivity |].
  split; [unfold subject; rewrite Hv; reflexivity |].
  split; [exact Hd |]. exact Hus.
Qed.

Lemma logout_effect (req : Request) (w : World) :
  users (snd (run (logoutUser req) w)) = users w
  \/ exists u : User,
       user req = Some u
       /\ users (snd (run (logoutUser req) w)) =
          unset_refreshToken (_id u) (users w).
Proof.
  unfold logoutUser. rewrite run_asyncHandler. unfold logoutUser_controller.
  destruct (user req) as [u |]; [| left; reflexivity].
  rewrite run_bind, run_await, serve_hd.
  destruct (hd None (faults w)); [left; reflexivity |].
  right. exists u. split; reflexivity.
Qed.

(** X5.  A request changes the document of one user at most: the user the
    login matched, the subject of the refresh token, the identity of the
    logout.  Whatever the faults of the store, every other document is
    in the collection afterwards as it was, refresh token included. *)
Theorem requests_touch_one_user :
  forall (req : Request) (w : World),
    (forall (b : ReqBody) (u v : User),
        body req = Some b ->
        find (matches_or (b_username b) (b_email b)) (users w) = Some u ->
        In v (users w) -> _id v <> _id u ->
        In v (users (snd (run (loginUser req) w))))
    /\ (forall (t : string) (id : ObjectId) (v : User),
          incomingRefreshToken req = inr (Some t) ->
          subject t (now w) = Some id ->
          In v (users w) -> _id v <> id ->
          In v (users (snd (run (refreshAccessToken req) w))))
    /\ (forall u v : User,
          user req = Some u ->
          In v (users w) -> _id v <> _id u ->
          In v (users (snd (run (logoutUser req) w)))).
Proof.
  intros req w. repeat apply conj.
  - intros b u v Hb Hu Hin Hne.
    destruct (login_effect req w)
      as [-> | (b' & u' & d & r & Hb' & Hu' & _ & _ & ->)]; [exact Hin |].
    assert (b' = b) by congruence. subst b'.
    assert (u' = u) by congruence. subst u'.
    apply update_other; assumption.
  - intros t id v Ht Hs Hin Hne.
    destruct (refresh_effect req w)
      as [-> | (t' & r & id' & u & Ht' & Hs' & _ & ->)]; [exact Hin |].
    assert (t' = t) by congruence. subst t'.
    assert (id' = id) by congruence. subst id'.
    apply update_other; assumption.
  - intros u v Hu Hin Hne.
    destruct (logout_effect req w) as [-> | (u' & Hu' & ->)]; [exact Hin |].
    assert (u' = u) by congruence. subst u'.
    apply update_other; assumption.
Qed.

(** ** The middleware, whatever happens *)

(** X6.  Whatever the request and the faults of the store, the middleware
    writes nothing, and it either lets the request pass, with a user of
    the collection attached less password and refresh token, or rejects
    it with status 401.  A failure of the store is reported as 401 too:
    when the token verifies and the store rejects the lookup, the message
    of the answer is the message of the store's error, or "Invalid access
    Token" when that message is empty. *)
Theorem middleware_reads_and_refuses_401 :
  forall (req : Request) (w : World),
    users (snd (run (verifyJWT req) w)) = users w
    /\ ((exists msg : string,
            fst (run (verifyJWT req) w) = inr (rejection 401 msg))
        \/ (exists d : User,
              In d (users w)
              /\ fst (run (verifyJWT req) w)
                 = inr (Next (set_user req (select_safe d)))))
    /\ (forall (e : JsError) (rest : list (option JsError)) (decoded : Payload),
          truthy_str (extract_token req) = true ->
          jwt_verify (str_of (extract_token req)) ACCESS_TOKEN_SECRET (now w)
          = inr decoded ->
          faults w = Some e :: rest ->
          run (verifyJWT req) w =
          (inr (rejection 401
                  (if (message e =? "")%string then "Invalid access Token"
                   else message e)),
           {| users := users w; now := now w; faults := rest |})).
Proof.
  intros req w. unfold verifyJWT. rewrite run_asyncHandler.
  unfold verifyJWT_controller. rewrite run_try_catch. cbv zeta.
  destruct (truthy_str (extract_token req)); cbn [negb].
  2: { split; [reflexivity |].
       split; [left; eexists; reflexivity | discriminate]. }
  rewrite run_bind, run_clock.
  destruct (jwt_verify (str_of (extract_token req)) ACCESS_TOKEN_SECRET (now w))
    as [e | p].
  { split; [reflexivity |].
    split; [left; eexists; reflexivity | discriminate]. }
  rewrite run_bind, run_await, serve_hd.
  destruct (hd None (faults w)) as [e0 |] eqn:He0.
  { split; [reflexivity |]. split; [left; eexists; reflexivity |].
    intros e rest decoded _ _ Hf. rewrite Hf in He0 |- *.
    injection He0 as <-. reflexivity. }
  cbn [fst snd exec].
  destruct (find (has_id (sub_id p)) (users w)) as [d |] eqn:Hd.
  - split; [reflexivity |]. split.
    + right. exists d. split; [apply (find_some _ _ Hd) | reflexivity].
    + intros e rest decoded _ _ Hf. rewrite Hf in He0. discriminate.
  - split; [reflexivity |]. split; [left; eexists; reflexivity |].
    intros e rest decoded _ _ Hf. rewrite Hf in He0. discriminate.
Qed.

(** ** Wrapping twice *)


(** ** Where the refresh token is read *)

(** X8.  The refresh token is read from the cookie when the cookie holds a
    non-empty one, and the body is then not looked at; otherwise it is
    read from the body and treated exactly as one from the cookie.  A
    request without parsed cookies, or with no token in the cookie and no
    parsed body, is answered 500 with the TypeError of the property
    access, whatever else it carries, and changes nothing. *)
Theorem refresh_token_source :
  forall (req : Request) (w : World),
    (forall (c : Cookies) (t : string),
        cookies req = Some c -> c_refreshToken c = Some t -> t <> "" ->
        run (refreshAccessToken req) w
        = run (refreshAccessToken (refresh_request t)) w)
    /\ (forall (c : Cookies) (b : ReqBody),
          cookies req = Some c -> truthy_str (c_refreshToken c) = false ->
          body req = Some b ->
          run (refreshAccessToken req) w =
          if truthy_str (b_refreshToken b)
          then run (refreshAccessToken
                      (refresh_request (str_of (b_refreshToken b)))) w
          else (inr (rejection 401 "Unauthorized Request. Refresh Token missing."),
                w))
    /\ ((cookies req = None
         \/ (exists c, cookies req = Some c
                       /\ truthy_str (c_refreshToken c) = false
                       /\ body req = None)) ->
        run (refreshAccessToken req) w =
        (inr (rejection 500
                "Cannot read properties of undefined (reading 'refreshToken')"),
         w)).
Proof.
  intros req w. repeat apply conj.
  - intros c t Hc Ht Hne.
    assert (Htr : truthy_str (Some t) = true).
    { simpl. destruct (String.eqb_spec t ""); [contradiction | reflexivity]. }
    rewrite (@run_refreshAccessToken E req (Some t) w).
    + rewrite (@run_refreshAccessToken E (refresh_request t) (Some t) w);
        [reflexivity |].
      unfold incomingRefreshToken. simpl cookies. cbn [c_refreshToken].
      rewrite Htr. reflexivity.
    + unfold incomingRefreshToken. rewrite Hc, Ht, Htr. reflexivity.
  - intros c b Hc Hf Hb.
    rewrite (@run_refreshAccessToken E req (b_refreshToken b) w).
    + destruct (truthy_str (b_refreshToken b)) eqn:Htr; [| reflexivity].
      destruct (b_refreshToken b) as [t |]; [| discriminate Htr].
      cbn [str_of].
      rewrite (@run_refreshAccessToken E (refresh_request t) (Some t) w).
      * rewrite Htr. reflexivity.
      * unfold incomingRefreshToken. simpl cookies. cbn [c_refreshToken].
        rewrite Htr. reflexivity.
    + unfold incomingRefreshToken. rewrite Hc, Hf, Hb. reflexivity.
  - intros H. unfold refreshAccessToken. rewrite run_asyncHandler.
    unfold refreshAccessToken_controller, incomingRefreshToken.
    destruct H as [-> | (c & -> & -> & ->)]; reflexivity.
Qed.

(** ** Login, middleware, logout, refresh: one after the other *)

(** X9.  After a logout no refresh token of that user is accepted: a refresh
    with any token that verifies for that user is rejected with "Refresh token
    is expired or used.", and changes nothing. *)
Theorem logout_revokes :
  forall (req_out req_in : Request) (u d : User) (t : string) (n : Z)
         (w : World),
    user req_out = Some u ->
    incomingRefreshToken req_in = inr (Some t) ->
    faults w = [] ->
    find (has_id (_id u)) (users w) = Some d ->
    subject t n = Some (_id u) ->
    exists w1 : World,
      run (logoutUser req_out) w = (inr logged_out, w1)
      /\ run (refreshAccessToken req_in) (at_time w1 n)
         = (inr token_reused, at_time w1 n).
Proof.
  intros req_out req_in u d t n w Hu Hin Hf Hd Hs.
  eexists. split; [apply (@run_logoutUser E req_out u w Hu Hf) |].
  rewrite (@refresh_outcome E req_in t _ (_id u) Hin); [| reflexivity | exact Hs].
  cbn [at_time users]. unfold unset_refreshToken.
  rewrite find_update by reflexivity. rewrite Hd. reflexivity.
Qed.

(** X10.  The access token of a login opens the middleware: if the token
    verifies for the user of the answer, a request that carries it passes
    and the identity attached to it is the user the login answered. *)
Theorem login_then_middleware :
  forall (req_login req : Request) (b : ReqBody) (d : User) (a r : string)
         (w w1 : World) (n : Z) (decoded : Payload),
    body req_login = Some b ->
    faults w = [] ->
    run (loginUser req_login) w = (inr (logged_in (Some d) a r), w1) ->
    extract_token req = Some a ->
    jwt_verify a ACCESS_TOKEN_SECRET n = inr decoded ->
    sub_id decoded = _id d ->
    run (verifyJWT req) (at_time w1 n)
    = (inr (Next (set_user req d)), at_time w1 n).
Proof.
  intros req_login req b d a r w w1 n decoded Hb Hf Hrun Htok Hv Hid.
  rewrite (@run_loginUser E req_login b w Hb Hf) in Hrun.
  destruct (negb (truthy_str (or_str (b_username b) (b_email b)))
            || negb (truthy_str (b_password b))); [discriminate |].
  destruct (find (matches_or (b_username b) (b_email b)) (users w))
    as [u |] eqn:Hu; [| discriminate].
  destruct (isPasswordCorrect u (str_of (b_password b))); [| discriminate].
  destruct (find (has_id (_id u)) (users w)) as [d0 |] eqn:Hd0; [| discriminate].
  cbv zeta in Hrun. inversion Hrun; subst; clear Hrun.
  assert (Ha : truthy_str (extract_token req) = true).
  { rewrite Htok. simpl.
    destruct (String.eqb_spec (generateAccessToken d0 (now w)) "") as [He | _];
      [| reflexivity].
    rewrite He in Hv. destruct (jwt_verify_empty ACCESS_TOKEN_SECRET n) as [e0 H0].
    rewrite H0 in Hv. discriminate. }
  rewrite run_verifyJWT by reflexivity.
  rewrite Ha, Htok. cbn [str_of at_time now users]. rewrite Hv, Hid.
  cbn [select_safe _id set_refreshToken].
  rewrite (find_has_id _ _ Hd0).
  erewrite find_update_found;
    [reflexivity | exact Hd0 | simpl; eapply find_has_id, Hd0].
Qed.

(** ** A logout while a refresh is in flight *)

Lemma turn_logout (req : Request) (u : User) (w : World) :
  user req = Some u ->
  faults w = [] ->
  turn (logoutUser req) w
  = (Ret logged_out,
     {| users := unset_refreshToken (_id u) (users w); now := now w;
        faults := [] |}).
Proof.
  intros Hu Hf. unfold turn, logoutUser, asyncHandler, logoutUser_controller.
  rewrite Hu. cbn. rewrite serve_healthy by exact Hf. reflexivity.
Qed.

(** A refresh that has made its comparison runs to its end from any
    world of its clock in which the user exists: it saves and answers. *)
Lemma checked_runs (id : ObjectId) (n : Z) (p : Prog Effect) (w : World)
  (d : User) :
  checked id n p ->
  faults w = [] -> now w = n -> find (has_id id) (users w) = Some d ->
  run p w =
  (inr (refreshed (generateAccessToken d n) (generateRefreshToken d n)),
   {| users := update id
                 (fun _ => set_refreshToken d (Some (generateRefreshToken d n)))
                 (users w);
      now := n; faults := [] |}).
Proof.
  intros Hc Hf Hn Hd.
  destruct (Hc w d Hf Hn Hd) as (p1 & Ht1 & Hs).
  destruct (Hs w d Hf Hn Hd) as (p2 & Ht2 & Hfin).
  rewrite (run_turn p w), Ht1. cbn [fst snd].
  rewrite (run_turn p1 w), Ht2. cbn [fst snd].
  unfold finished in Hfin. rewrite Hfin. reflexivity.
Qed.

(** X11.  A logout that is served after a refresh of the same user has made
    its comparison, and before that refresh saves, is undone by it: both
    requests succeed, and afterwards the refresh token returned by the
    refresh is persisted for the user who logged out. *)
Theorem logout_during_refresh :
  forall (req_in req_out : Request) (t : string) (u v : User) (w : World),
    incomingRefreshToken req_in = inr (Some t) ->
    subject t (now w) = Some (_id v) ->
    find (has_id (_id v)) (users w) = Some u ->
    refreshToken u = Some t ->
    user req_out = Some v ->
    faults w = [] ->
    forall sched : list bool,
      sched = [true; false] \/ sched = [true; true; false] ->
      exists (a r : string) (w' : World),
        interleave sched (refreshAccessToken req_in) (logoutUser req_out) w
        = (inr (refreshed a r), inr logged_out, w')
        /\ persisted (_id v) (users w') = Some r.
Proof.
  intros req_in req_out t u v w Hin Hs Hu Ht Hv Hf sched Hsched.
  pose proof (@refresh_starts E t (_id v) (now w) req_in Hin Hs) as Hstart.
  destruct (Hstart w u Hf eq_refl Hu) as (p1 & Ht1 & Hc).
  rewrite Ht, opt_eqb_refl in Hc.
  destruct Hsched as [-> | ->].
  - rewrite interleave_true, Ht1. cbn [fst snd].
    rewrite interleave_false, (@turn_logout req_out v w Hv Hf). cbn [fst snd].
    cbn [interleave].
    assert (Hd : find (has_id (_id v))
                   (unset_refreshToken (_id v) (users w))
                 = Some (set_refreshToken u None)).
    { unfold unset_refreshToken. rewrite find_update by reflexivity.
      rewrite Hu. reflexivity. }
    rewrite (@checked_runs (_id v) (now w) p1
               {| users := unset_refreshToken (_id v) (users w);
                  now := now w; faults := [] |}
               (set_refreshToken u None) Hc eq_refl eq_refl Hd).
    eexists _, _, _. split; [reflexivity |]. cbn [users]. unfold persisted.
    erewrite find_update_found;
      [reflexivity | exact Hd | simpl; eapply find_has_id, Hu].
  - rewrite interleave_true, Ht1. cbn [fst snd].
    destruct (Hc w u Hf eq_refl Hu) as (p2 & Ht2 & Hsave).
    rewrite interleave_true, Ht2. cbn [fst snd].
    rewrite interleave_false, (@turn_logout req_out v w Hv Hf). cbn [fst snd].
    cbn [interleave].
    assert (Hd : find (has_id (_id v))
                   (unset_refreshToken (_id v) (users w))
                 = Some (set_refreshToken u None)).
    { unfold unset_refreshToken. rewrite find_update by reflexivity.
      rewrite Hu. reflexivity. }
    destruct (Hsave {| users := unset_refreshToken (_id v) (users w);
                       now := now w; faults := [] |}
                    (set_refreshToken u None) eq_refl eq_refl Hd)
      as (p3 & Ht3 & Hfin).
    rewrite (run_turn p2), Ht3. cbn [fst snd].
    unfold finished in Hfin. rewrite Hfin. cbn [run].
    eexists _, _, _. split; [reflexivity |]. cbn [users]. unfold persisted.
    erewrite find_update_found;
      [reflexivity | exact Hd | simpl; eapply find_has_id, Hu].
Qed.

End Frames.


(** * The further properties at work on the reference service *)

Lemma login_error_after_rotation_witness :
  let lost := TypeError "connection lost" in
  let busy := {| code := JNum 13; message := "Unauthorized" |} in
  let w e := {| users := [Reference.alice; Reference.bob]; now := 100;
                faults := [None; None; None; Some e] |} in
  (exists (d : User) (w' : World),
      find (has_id 1%N) (users (w lost)) = Some d
      /\ run (loginUser (E := Reference.env) (login_request "alice" "s3cret"))
             (w lost) =
         (inr (Respond {| status := JNum 500; set_cookies := [];
                          json := ErrorBody false "connection lost" |}), w')
      /\ persisted 1%N (users w')
         = Some (generateRefreshToken (Environment := Reference.env) d 100))
  /\ (exists (d : User) (w' : World),
        find (has_id 1%N) (users (w busy)) = Some d
        /\ run (loginUser (E := Reference.env) (login_request "alice" "s3cret"))
               (w busy) =
           (inl (Reference.invalid_status (JNum 13)), w')
        /\ persisted 1%N (users w')
           = Some (generateRefreshToken (Environment := Reference.env) d 100)).
Proof.
  intros lost busy w. split.
  - exact (@login_error_after_rotation Reference.env
             (login_request "alice" "s3cret")
             {| b_username := Some "alice"; b_email := None;
                b_password := Some "s3cret"; b_refreshToken := None |}
             (w lost) Reference.alice lost []
             eq_refl eq_refl eq_refl eq_refl eq_refl eq_refl).
  - exact (@login_error_after_rotation Reference.env
             (login_request "alice" "s3cret")
             {| b_username := Some "alice"; b_email := None;
                b_password := Some "s3cret"; b_refreshToken := None |}
             (w busy) Reference.alice busy []
             eq_refl eq_refl eq_refl eq_refl eq_refl eq_refl).
Defined.

Lemma middleware_reads_and_refuses_401_witness :
  let token := Reference.sign "access-secret" 1%N 100 900 in
  let w e := {| users := [Reference.alice]; now := 200; faults := [Some e] |} in
  let silent := {| code := JNum 13; message := EmptyString |} in
  run (verifyJWT (E := Reference.env) (cookie_request token))
      (w (TypeError "connection lost"))
  = (inr (rejection 401 "connection lost"), world [Reference.alice] 200)
  /\ run (verifyJWT (E := Reference.env) (cookie_request token)) (w silent)
     = (inr (rejection 401 "Invalid access Token"), world [Reference.alice] 200).
Proof.
  intros token w silent. split.
  - exact (proj2 (proj2 (@middleware_reads_and_refuses_401 Reference.env
                           (cookie_request token)
                           (w (TypeError "connection lost"))))
             (TypeError "connection lost") []
             {| sub_id := 1%N; iat := 100; exp := 1000 |}
             eq_refl eq_refl eq_refl).
  - exact (proj2 (proj2 (@middleware_reads_and_refuses_401 Reference.env
                           (cookie_request token) (w silent)))
             silent [] {| sub_id := 1%N; iat := 100; exp := 1000 |}
             eq_refl eq_refl eq_refl).
Defined.


Lemma requests_touch_one_user_witness :
  let w := world [Reference.alice; Reference.bob] 100 in
  In Reference.bob
     (users (snd (run (loginUser (E := Reference.env)
                         (login_request "alice" "s3cret")) w))).
Proof.
  intros w.
  refine (proj1 (@requests_touch_one_user Reference.env
                   (login_request "alice" "s3cret") w)
            {| b_username := Some "alice"; b_email := None;
               b_password := Some "s3cret"; b_refreshToken := None |}
            Reference.alice Reference.bob eq_refl eq_refl
            (or_intror (or_introl eq_refl)) _).
  discriminate.
Defined.

Lemma refresh_token_source_witness :
  let t := Reference.sign "refresh-secret" 1%N 50 864000 in
  let c := {| c_accessToken := Some "stale"; c_refreshToken := Some t |} in
  let req :=
    {| cookies := Some c;
       authorization := Some "Bearer stale";
       body := Some {| b_username := None; b_email := None; b_password := None;
                       b_refreshToken := Some "another-token" |};
       user := None |} in
  let w := world [set_refreshToken Reference.alice (Some t)] 100 in
  run (refreshAccessToken (E := Reference.env) req) w
  = run (refreshAccessToken (E := Reference.env) (refresh_request t)) w.
Proof.
  intros t c req w.
  refine (proj1 (@refresh_token_source Reference.env req w) c t
            eq_refl eq_refl _).
  discriminate.
Defined.

Lemma logout_revokes_witness :
  let t := Reference.sign "refresh-secret" 1%N 50 864000 in
  let session := set_refreshToken Reference.alice (Some t) in
  let w := world [session; Reference.bob] 100 in
  exists w1 : World,
    run (logoutUser (E := Reference.env)
           (set_user (cookie_request "a") (select_safe Reference.alice))) w
    = (inr logged_out, w1)
    /\ run (refreshAccessToken (E := Reference.env) (refresh_request t))
           (at_time w1 200)
       = (inr token_reused, at_time w1 200).
Proof.
  intros t session w.
  exact (@logout_revokes Reference.env
           (set_user (cookie_request "a") (select_safe Reference.alice))
           (refresh_request t) (select_safe Reference.alice) session t 200 w
           eq_refl eq_refl eq_refl eq_refl eq_refl).
Defined.

Lemma login_then_middleware_witness :
  let a := Reference.sign "access-secret" 1%N 100 900 in
  let r := Reference.sign "refresh-secret" 1%N 100 864000 in
  let d := select_safe (set_refreshToken Reference.alice (Some r)) in
  let w1 := world [set_refreshToken Reference.alice (Some r); Reference.bob] 100 in
  run (verifyJWT (E := Reference.env) (cookie_request a)) (at_time w1 200)
  = (inr (Next (set_user (cookie_request a) d)), at_time w1 200).
Proof.
  intros a r d w1.
  exact (@login_then_middleware Reference.env
           (login_request "alice" "s3cret") (cookie_request a)
           {| b_username := Some "alice"; b_email := None;
              b_password := Some "s3cret"; b_refreshToken := None |}
           d a r (world [Reference.alice; Reference.bob] 100) w1 200
           {| sub_id := 1%N; iat := 100; exp := 1000 |}
           eq_refl eq_refl eq_refl eq_refl eq_refl eq_refl).
Defined.

Lemma logout_during_refresh_witness :
  let t := Reference.sign "refresh-secret" 1%N 50 864000 in
  let session := set_refreshToken Reference.alice (Some t) in
  let w := world [session; Reference.bob] 100 in
  exists (a r : string) (w' : World),
    interleave [true; false]
      (refreshAccessToken (E := Reference.env) (refresh_request t))
      (logoutUser (E := Reference.env)
         (set_user (cookie_request "a") (select_safe Reference.alice))) w
    = (inr (refreshed a r), inr logged_out, w')
    /\ persisted 1%N (users w') = Some r.
Proof.
  intros t session w.
  exact (@logout_during_refresh Reference.env (refresh_request t)
           (set_user (cookie_request "a") (select_safe Reference.alice))
           t session (select_safe Reference.alice) w
           eq_refl eq_refl eq_refl eq_refl eq_refl eq_refl
           [true; false] (or_introl eq_refl)).
Defined.


(** * Registration *)

Lemma fresh_above (us : list User) (u : User) :
  In u us -> (_id u < fresh us)%N.
Proof.
  unfold fresh. induction us as [| v us IH]; intros H; [destruct H |].
  cbn [map fold_right]. destruct H as [-> | H]; [lia |].
  specialize (IH H). lia.
Qed.

Lemma find_fresh (us : list User) :
  find (has_id (fresh us)) us = None.
Proof.
  destruct (find (has_id (fresh us)) us) as [u |] eqn:H; [| reflexivity].
  apply find_some in H. destruct H as [Hin Hid].
  apply fresh_above in Hin. unfold has_id in Hid.
  apply N.eqb_eq in Hid. lia.
Qed.

Lemma find_app_one (f : User -> bool) (us : list User) (u : User) :
  find f us = None -> f u = true -> find f (us ++ [u]) = Some u.
Proof.
  induction us as [| v us IH]; cbn [find app]; intros H Hu.
  - now rewrite Hu.
  - destruct (f v); [discriminate | now apply IH].
Qed.

Section Register.

Context {E : Environment} {P : Platform}.

Lemma run_bind_task (A B : Type) (p : Task A) (f : A -> Task B) (s : Site) :
  run_task (bind_task p f) s =
  match run_task p s with
  | (inl e, s') => (inl e, s')
  | (inr a, s') => run_task (f a) s'
  end.
Proof.
  revert s. induction p as [a | e | X op k IH]; intros s; simpl.
  - reflexivity.
  - reflexivity.
  - destruct (site_exec op s) as [r s']. apply IH.
Qed.

Lemma run_try_task (A : Type) (p : Task A) (h : JsError -> Task A) (s : Site) :
  run_task (try_task p h) s =
  match run_task p s with
  | (inl e, s') => run_task (h e) s'
  | (inr a, s') => (inr a, s')
  end.
Proof.
  revert s. induction p as [a | e | X op k IH]; intros s; simpl.
  - reflexivity.
  - reflexivity.
  - destruct (site_exec op s) as [r s']. apply IH.
Qed.

Lemma run_perform (X : Type) (op : SiteOp X) (s : Site) :
  run_task (perform op) s = site_exec op s.
Proof.
  unfold perform. simpl. destruct (site_exec op s) as [[e | x] s']; reflexivity.
Qed.

Lemma run_asyncHandler_site (controller : RegisterRequest -> Task RegisterAnswer)
  (req : RegisterRequest) (s : Site) :
  run_task (asyncHandler_site controller req) s =
  match run_task (controller req) s with
  | (inl error, s') => (answer_error_site error, s')
  | (inr answer, s') => (inr answer, s')
  end.
Proof.
  unfold asyncHandler_site. rewrite run_try_task.
  destruct (run_task (controller req) s) as [[e | a] s']; [| reflexivity].
  destruct (answer_error_site e); reflexivity.
Qed.

(** An answer that shows a document is no answer to an error. *)
Lemma answer_error_site_shows_none (error : JsError) (st : JsVal) (c : Z)
  (d : Document) (msg : string) :
  answer_error_site error
  <> inr {| r_status := st; r_json := RegisterResponse c d msg |}.
Proof.
  unfold answer_error_site. cbv zeta.
  destruct (valid_status (js_or (code error) (JNum 500))); discriminate.
Qed.

(** The runs of [uploadOnCloudinary], case by case. *)
Lemma run_uploadOnCloudinary (localFilePath : option string) (s : Site) :
  run_task (uploadOnCloudinary localFilePath) s =
  if negb (truthy_str localFilePath) then (inr None, s)
  else
    let resolvedPath := resolve (str_of localFilePath) in
    match cloud resolvedPath with
    | inl e =>
        (inl ReferenceError,
         logged s ("Cloudinary upload failed: " ++ message e))
    | inr response =>
        if has_file resolvedPath (disk s)
        then (inr (Some response), moved s resolvedPath)
        else (inl ReferenceError,
              logged (received s resolvedPath)
                ("Cloudinary upload failed: " ++ message (ENOENT resolvedPath)))
    end.
Proof.
  unfold uploadOnCloudinary. rewrite run_try_task.
  destruct (negb (truthy_str localFilePath)); [reflexivity |].
  cbv zeta. rewrite run_bind_task, run_perform. cbn [site_exec].
  destruct (cloud (resolve (str_of localFilePath))) as [e | response].
  - reflexivity.
  - rewrite run_bind_task, run_perform. cbn [site_exec received disk].
    destruct (has_file (resolve (str_of localFilePath)) (disk s)); reflexivity.
Qed.

(** X12.  [uploadOnCloudinary] answers [null] for a missing or empty path,
    without touching anything, and for no other path: a failed upload
    does not end in the [return null] of the [catch] block. *)
Theorem upload_null_only_without_path :
  forall (localFilePath : option string) (s : Site),
    (truthy_str localFilePath = false ->
     run_task (uploadOnCloudinary localFilePath) s = (inr None, s))
    /\ (truthy_str localFilePath = true ->
        fst (run_task (uploadOnCloudinary localFilePath) s) <> inr None).
Proof.
  intros path s. rewrite run_uploadOnCloudinary. split; intros H; rewrite H.
  - reflexivity.
  - cbn [negb]. cbv zeta.
    destruct (cloud (resolve (str_of path))) as [e | response];
      [discriminate |].
    destruct (has_file (resolve (str_of path)) (disk s)); discriminate.
Qed.

(** X13.  Whatever goes wrong inside [uploadOnCloudinary], the caller gets the
    reference error of the [catch] block, not the error that occurred:
    one line is logged, and the local file is still on the disk. *)
Theorem upload_errors_are_reference_errors :
  forall (localFilePath : option string) (s s' : Site) (e : JsError),
    run_task (uploadOnCloudinary localFilePath) s = (inl e, s') ->
    e = ReferenceError
    /\ disk s' = disk s
    /\ db s' = db s
    /\ exists line : string, console s' = (console s ++ [line])%list.
Proof.
  intros path s s' e. rewrite run_uploadOnCloudinary.
  destruct (negb (truthy_str path)); [discriminate |]. cbv zeta.
  destruct (cloud (resolve (str_of path))) as [e0 | response].
  - intros [= <- <-]. repeat split. eexists. reflexivity.
  - destruct (has_file (resolve (str_of path)) (disk s)); [discriminate |].
    intros [= <- <-]. repeat split. eexists. reflexivity.
Qed.

(** X14.  A response of [uploadOnCloudinary] is the response of the cloud for
    the resolved path, and then the local file was there and is removed. *)
Theorem upload_response_means_moved :
  forall (localFilePath : option string) (s s' : Site)
         (response : UploadResponse),
    run_task (uploadOnCloudinary localFilePath) s = (inr (Some response), s') ->
    exists p : string,
      localFilePath = Some p /\ p <> EmptyString
      /\ cloud (resolve p) = inr response
      /\ has_file (resolve p) (disk s) = true
      /\ s' = moved s (resolve p).
Proof.
  intros path s s' response. rewrite run_uploadOnCloudinary.
  destruct path as [p |]; [| discriminate].
  destruct p as [| c p]; [discriminate |].
  cbn [truthy_str negb str_of]. cbv zeta.
  destruct (cloud (resolve (String c p))) as [e0 | r] eqn:Hc; [discriminate |].
  destruct (has_file (resolve (String c p)) (disk s)) eqn:Hf; [| discriminate].
  intros [= <- <-]. exists (String c p). repeat split; try assumption.
  discriminate.
Qed.

(** X15.  When the cloud has taken the file and the local copy cannot be
    removed, [uploadOnCloudinary] throws although the upload is done: the
    cloud keeps a file of which the caller never learns. *)
Theorem upload_orphan :
  forall (p : string) (s : Site) (response : UploadResponse),
    p <> EmptyString ->
    cloud (resolve p) = inr response ->
    has_file (resolve p) (disk s) = false ->
    exists s' : Site,
      run_task (uploadOnCloudinary (Some p)) s = (inl ReferenceError, s')
      /\ uploaded s' = (uploaded s ++ [resolve p])%list.
Proof.
  intros p s response Hp Hc Hf. rewrite run_uploadOnCloudinary.
  destruct p as [| c p]; [congruence |].
  cbn [truthy_str negb str_of]. cbv zeta. rewrite Hc, Hf.
  eexists. split; reflexivity.
Qed.

Lemma healthy_site (s : Site) :
  faults (db s) = [] ->
  with_db s {| users := users (db s); now := now (db s);
               faults := tl (faults (db s)) |} = s.
Proof.
  destruct s as [[us t fs] ps d up c]. cbn. intros ->. reflexivity.
Qed.

Lemma run_find_one (uname mail : option string) (s : Site) :
  faults (db s) = [] ->
  run_task (perform (OnStore (FindOne uname mail))) s =
  (inr (find (matches_or uname mail) (users (db s))), s).
Proof.
  intros H. rewrite run_perform. cbn [site_exec].
  rewrite (serve_healthy _ _ H). cbn [exec fst snd].
  destruct s as [[us t fs] ps d up c]. cbn in H. subst fs. reflexivity.
Qed.

Lemma run_create (doc : NewUser) (s : Site) :
  faults (db s) = [] ->
  run_task (perform (Create doc)) s = create doc s.
Proof.
  intros H. rewrite run_perform. cbn [site_exec]. cbv zeta.
  rewrite (healthy_site s H), H. reflexivity.
Qed.

Lemma run_find_document (id : ObjectId) (s : Site) :
  faults (db s) = [] ->
  run_task (perform (FindDocument id)) s = (inr (document id s), s).
Proof.
  intros H. rewrite run_perform. cbn [site_exec]. cbv zeta.
  rewrite (healthy_site s H), H. reflexivity.
Qed.

Lemma create_faults (doc : NewUser) (s : Site) :
  faults (db (snd (create doc s))) = faults (db s).
Proof.
  unfold create.
  destruct (refuses (users (db s)) doc); [reflexivity |].
  destruct (n_fullname doc), (n_email doc), (n_password doc); reflexivity.
Qed.

(** An upload leaves the store and the pictures alone. *)
Lemma upload_keeps_db (localFilePath : option string) (s : Site) :
  db (snd (run_task (uploadOnCloudinary localFilePath) s)) = db s
  /\ pictures (snd (run_task (uploadOnCloudinary localFilePath) s)) = pictures s.
Proof.
  rewrite run_uploadOnCloudinary.
  destruct (negb (truthy_str localFilePath)); [split; reflexivity |].
  cbv zeta. destruct (cloud (resolve (str_of localFilePath)));
    [split; reflexivity |].
  destruct (has_file (resolve (str_of localFilePath)) (disk s));
    split; reflexivity.
Qed.

(** The run of [registerUser] on a store that serves every operation. *)
Lemma run_registerUser_controller (req : RegisterRequest) (s : Site) :
  faults (db s) = [] ->
  run_task (registerUser_controller req) s =
  match reg_body req with
  | None =>
      (inl (TypeError "Cannot destructure property 'username' of 'req.body' as it is undefined."), s)
  | Some b =>
      if existsb is_blank [r_fullname b; r_email b; r_username b; r_password b]
      then (inl (ApiError 400 "All fields are required."), s)
      else
        match find (matches_or (r_username b) (r_email b)) (users (db s)) with
        | Some _ =>
            (inl (ApiError 409 "User with email or username already exists."), s)
        | None =>
            if negb (truthy_str (avatarLocalPath req))
            then (inl (ApiError 400 "Avatar file is required."), s)
            else
              match run_task (uploadOnCloudinary (avatarLocalPath req)) s with
              | (inl e, s1) => (inl e, s1)
              | (inr avatar, s1) =>
                  match run_task (uploadOnCloudinary (coverImageLocalPath req)) s1
                  with
                  | (inl e, s2) => (inl e, s2)
                  | (inr coverImage, s2) =>
                      match avatar, r_username b with
                      | None, _ =>
                          (inl (ApiError 400 "Avatar file is required."), s2)
                      | Some _, None =>
                          (inl (TypeError "Cannot read properties of undefined (reading 'toLowerCase')"), s2)
                      | Some avatar, Some username =>
                          match
                            create
                              {| n_fullname := r_fullname b;
                                 n_avatar := url avatar;
                                 n_coverImage :=
                                   str_of (or_str (option_map url coverImage)
                                                  (Some EmptyString));
                                 n_email := r_email b;
                                 n_password := r_password b;
                                 n_username := toLowerCase username |} s2
                          with
                          | (inl e, s3) => (inl e, s3)
                          | (inr user, s3) =>
                              match option_map select_document
                                      (document (_id user) s3) with
                              | None =>
                                  (inl (ApiError 500 "Something went wrong while registering a user."), s3)
                              | Some createdUser =>
                                  (inr {| r_status := JNum 201;
                                          r_json :=
                                            RegisterResponse 200 createdUser
                                              "User registerd successfully." |},
                                   s3)
                              end
                          end
                      end
                  end
              end
        end
  end.
Proof.
  intros H. unfold registerUser_controller.
  destruct (reg_body req) as [b |]; [| reflexivity]. cbv zeta.
  destruct (existsb is_blank _); [reflexivity |].
  rewrite run_bind_task, run_find_one by exact H.
  destruct (find (matches_or (r_username b) (r_email b)) (users (db s)));
    [reflexivity |].
  fold (avatarLocalPath req). fold (coverImageLocalPath req).
  destruct (negb (truthy_str (avatarLocalPath req))); [reflexivity |].
  rewrite run_bind_task.
  pose proof (upload_keeps_db (avatarLocalPath req) s) as [H1 _].
  destruct (run_task (uploadOnCloudinary (avatarLocalPath req)) s)
    as [[e | avatar] s1]; [reflexivity |].
  cbn [snd] in H1. rewrite run_bind_task.
  pose proof (upload_keeps_db (coverImageLocalPath req) s1) as [H2 _].
  destruct (run_task (uploadOnCloudinary (coverImageLocalPath req)) s1)
    as [[e | coverImage] s2]; [reflexivity |].
  cbn [snd] in H2.
  destruct avatar as [avatar |]; [| reflexivity].
  destruct (r_username b) as [username |]; [| reflexivity].
  assert (H3 : faults (db s2) = []) by (rewrite H2, H1; exact H).
  rewrite run_bind_task, run_create by exact H3.
  match goal with |- context [create ?d s2] =>
    pose proof (create_faults d s2) as H4;
    destruct (create d s2) as [[e | user] s3] end; [reflexivity |].
  cbn [snd] in H4. rewrite H3 in H4.
  rewrite run_bind_task, run_find_document by exact H4.
  destruct (option_map select_document (document (_id user) s3)); reflexivity.
Qed.

Lemma run_registerUser (req : RegisterRequest) (s : Site) :
  run_task (registerUser req) s =
  match run_task (registerUser_controller req) s with
  | (inl error, s') => (answer_error_site error, s')
  | (inr answer, s') => (inr answer, s')
  end.
Proof. apply run_asyncHandler_site. Qed.

(** X16.  A field that [trim] reduces to the empty string, that is, a
    string of nothing but white space and line terminators, the empty
    string included, ends the registration with status 400 before
    anything is looked up, uploaded or removed. *)
Theorem register_blank_field :
  forall (req : RegisterRequest) (b : RegisterBody) (s : Site)
         (field : option string) (str : string),
    reg_body req = Some b ->
    In field [r_fullname b; r_email b; r_username b; r_password b] ->
    field = Some str ->
    trim str = EmptyString ->
    run_task (registerUser req) s
    = (inr (refused 400 "All fields are required."), s).
Proof.
  intros req b s field str Hb Hin Hf Hs.
  rewrite run_registerUser. unfold registerUser_controller. rewrite Hb.
  cbv zeta.
  assert (H : existsb is_blank
                [r_fullname b; r_email b; r_username b; r_password b] = true).
  { apply existsb_exists. exists field. split; [exact Hin |].
    rewrite Hf. cbn [is_blank]. rewrite Hs. reflexivity. }
  rewrite H. reflexivity.
Qed.

Lemma truthy_some (p : string) :
  p <> EmptyString -> truthy_str (Some p) = true.
Proof.
  intros H. cbn [truthy_str]. apply negb_true_iff, String.eqb_neq. exact H.
Qed.

(** The run of [uploadOnCloudinary] that goes through. *)
Lemma upload_moves (p : string) (s : Site) (response : UploadResponse) :
  p <> EmptyString ->
  cloud (resolve p) = inr response ->
  has_file (resolve p) (disk s) = true ->
  run_task (uploadOnCloudinary (Some p)) s
  = (inr (Some response), moved s (resolve p)).
Proof.
  intros Hp Hc Hf. rewrite run_uploadOnCloudinary, (truthy_some Hp).
  cbn [negb str_of]. cbv zeta. rewrite Hc, Hf. reflexivity.
Qed.

(** The run of [uploadOnCloudinary] that the cloud rejects. *)
Lemma upload_rejected (p : string) (s : Site) (e : JsError) :
  p <> EmptyString ->
  cloud (resolve p) = inl e ->
  run_task (uploadOnCloudinary (Some p)) s
  = (inl ReferenceError, logged s ("Cloudinary upload failed: " ++ message e)).
Proof.
  intros Hp Hc. rewrite run_uploadOnCloudinary, (truthy_some Hp).
  cbn [negb str_of]. cbv zeta. rewrite Hc. reflexivity.
Qed.

(** X17.  The check of the fields lets a missing field through: it compares
    [field?.trim()] with the empty string, and for a missing field that
    is [undefined].  A registration without a user name is looked up,
    its avatar is uploaded and the local file removed, and then
    [username.toLowerCase()] throws: the answer is 500, and no user is
    created. *)
Theorem register_without_username :
  forall (req : RegisterRequest) (b : RegisterBody) (s : Site) (p : string)
         (response : UploadResponse),
    reg_body req = Some b ->
    r_username b = None ->
    existsb is_blank [r_fullname b; r_email b; None; r_password b] = false ->
    faults (db s) = [] ->
    find (matches_or None (r_email b)) (users (db s)) = None ->
    avatarLocalPath req = Some p ->
    p <> EmptyString ->
    cloud (resolve p) = inr response ->
    has_file (resolve p) (disk s) = true ->
    truthy_str (coverImageLocalPath req) = false ->
    run_task (registerUser req) s
    = (inr (refused 500
              "Cannot read properties of undefined (reading 'toLowerCase')"),
       moved s (resolve p)).
Proof.
  intros req b s p response Hb Hu Hblank Hf Hfind Ha Hp Hc Hd Hcover.
  rewrite run_registerUser, run_registerUser_controller by exact Hf.
  rewrite Hb, Hu, Hblank, Hfind, Ha, (truthy_some Hp). cbn [negb].
  rewrite (upload_moves _ Hp Hc Hd).
  rewrite run_uploadOnCloudinary, Hcover. reflexivity.
Qed.

(** X18.  The refusals after the check of the fields, in the order of the
    code: a user with the user name or the email of the body gives 409,
    with or without an avatar; otherwise a request without a path of a
    first avatar file gives 400.  In both cases nothing is uploaded and
    the received files stay on the disk. *)
Theorem register_refusals :
  forall (req : RegisterRequest) (b : RegisterBody) (s : Site),
    reg_body req = Some b ->
    existsb is_blank
      [r_fullname b; r_email b; r_username b; r_password b] = false ->
    faults (db s) = [] ->
    (forall u : User,
        find (matches_or (r_username b) (r_email b)) (users (db s)) = Some u ->
        run_task (registerUser req) s
        = (inr (refused 409 "User with email or username already exists."), s))
    /\ (find (matches_or (r_username b) (r_email b)) (users (db s)) = None ->
        truthy_str (avatarLocalPath req) = false ->
        run_task (registerUser req) s
        = (inr (refused 400 "Avatar file is required."), s)).
Proof.
  intros req b s Hb Hblank Hf. split.
  - intros u Hu.
    rewrite run_registerUser, run_registerUser_controller by exact Hf.
    rewrite Hb, Hblank, Hu. reflexivity.
  - intros Hu Ha.
    rewrite run_registerUser, run_registerUser_controller by exact Hf.
    rewrite Hb, Hblank, Hu, Ha. reflexivity.
Qed.

(** X19.  An upload that fails ends the registration with status 500 and the
    message of the reference error in [uploadOnCloudinary], not with the
    400 of the check that follows the uploads, and no user is created.
    When the avatar fails, the received files stay on the disk; when the
    cover image fails, the avatar is in the cloud already and its local
    file is gone. *)
Theorem register_upload_fails :
  forall (req : RegisterRequest) (b : RegisterBody) (s : Site) (p : string),
    reg_body req = Some b ->
    existsb is_blank
      [r_fullname b; r_email b; r_username b; r_password b] = false ->
    faults (db s) = [] ->
    find (matches_or (r_username b) (r_email b)) (users (db s)) = None ->
    avatarLocalPath req = Some p ->
    p <> EmptyString ->
    (forall e : JsError,
        cloud (resolve p) = inl e ->
        run_task (registerUser req) s
        = (inr (refused 500 "resolvedPath is not defined"),
           logged s ("Cloudinary upload failed: " ++ message e)))
    /\ (forall (response : UploadResponse) (q : string) (e : JsError),
          cloud (resolve p) = inr response ->
          has_file (resolve p) (disk s) = true ->
          coverImageLocalPath req = Some q ->
          q <> EmptyString ->
          cloud (resolve q) = inl e ->
          run_task (registerUser req) s
          = (inr (refused 500 "resolvedPath is not defined"),
             logged (moved s (resolve p))
               ("Cloudinary upload failed: " ++ message e))).
Proof.
  intros req b s p Hb Hblank Hf Hfind Ha Hp. split.
  - intros e Hc.
    rewrite run_registerUser, run_registerUser_controller by exact Hf.
    rewrite Hb, Hblank, Hfind, Ha, (truthy_some Hp). cbn [negb].
    rewrite (upload_rejected _ Hp Hc). reflexivity.
  - intros response q e Hc Hd Hq Hq' Hc'.
    rewrite run_registerUser, run_registerUser_controller by exact Hf.
    rewrite Hb, Hblank, Hfind, Ha, (truthy_some Hp). cbn [negb].
    rewrite (upload_moves _ Hp Hc Hd), Hq, (upload_rejected _ Hq' Hc').
    reflexivity.
Qed.


Lemma document_registered (s : Site) (u : User) (pics : string * string) :
  _id u = fresh (users (db s)) ->
  document (_id u)
    {| db := {| users := users (db s) ++ [u]; now := now (db s);
                faults := faults (db s) |};
       pictures := (_id u, pics) :: pictures s;
       disk := disk s; uploaded := uploaded s; console := console s |}
  = Some {| d_user := u; d_avatar := fst pics; d_coverImage := snd pics |}.
Proof.
  intros Hid. unfold document. cbn [db users pictures].
  rewrite find_app_one with (u := u).
  - unfold picture_of. cbn [find fst snd]. rewrite N.eqb_refl. reflexivity.
  - rewrite Hid. apply find_fresh.
  - unfold has_id. apply N.eqb_refl.
Qed.



Lemma adds_from (s0 s s' : Site) :
  users (db s0) = users (db s) ->
  adds_at_most_one s0 s' -> adds_at_most_one s s'.
Proof.
  unfold adds_at_most_one. intros H. rewrite H. exact (fun x => x).
Qed.

Lemma create_adds (doc : NewUser) (s : Site) :
  adds_at_most_one s (snd (create doc s)).
Proof.
  unfold create. destruct (refuses (users (db s)) doc); [left; reflexivity |].
  destruct (n_fullname doc), (n_email doc), (n_password doc);
    try (left; reflexivity).
  right. eexists. cbn [snd db users]. split; [reflexivity |].
  split; [apply find_fresh | reflexivity].
Qed.

(** Reading the store takes a fault and leaves the users. *)
Lemma popped_users (s : Site) :
  users (db (with_db s {| users := users (db s); now := now (db s);
                          faults := tl (faults (db s)) |}))
  = users (db s).
Proof. reflexivity. Qed.

(** X21.  Whatever the request and whatever fails, a registration leaves the
    users that exist as they are, in their order: it adds nothing, or one
    user at the end, under an id that no user had and without a refresh
    token. *)
Theorem register_adds_at_most_one :
  forall (req : RegisterRequest) (s : Site),
    adds_at_most_one s (snd (run_task (registerUser req) s)).
Proof.
  intros req s.
  assert (H : adds_at_most_one s
                (snd (run_task (registerUser_controller req) s))).
  { unfold registerUser_controller.
    destruct (reg_body req) as [b |]; [| left; reflexivity]. cbv zeta.
    destruct (existsb is_blank _); [left; reflexivity |].
    rewrite run_bind_task, run_perform. cbn [site_exec]. rewrite serve_hd.
    destruct (hd None (faults (db s))); [left; reflexivity |].
    cbn [exec fst snd].
    destruct (find (matches_or (r_username b) (r_email b)) (users (db s)))
      ; [left; reflexivity |].
    match goal with |- context [with_db s ?w] =>
      apply (@adds_from (with_db s w)); [reflexivity |];
      generalize (with_db s w) end.
    clear s. intros s.
    fold (avatarLocalPath req). fold (coverImageLocalPath req).
    destruct (negb (truthy_str (avatarLocalPath req))); [left; reflexivity |].
    rewrite run_bind_task.
    pose proof (upload_keeps_db (avatarLocalPath req) s) as [H1 _].
    destruct (run_task (uploadOnCloudinary (avatarLocalPath req)) s)
      as [[e | avatar] s1]; cbn [snd] in H1;
      [left; cbn [snd]; now rewrite H1 |].
    apply (@adds_from s1); [now rewrite H1 |]. clear s H1.
    rewrite run_bind_task.
    pose proof (upload_keeps_db (coverImageLocalPath req) s1) as [H2 _].
    destruct (run_task (uploadOnCloudinary (coverImageLocalPath req)) s1)
      as [[e | coverImage] s2]; cbn [snd] in H2;
      [left; cbn [snd]; now rewrite H2 |].
    apply (@adds_from s2); [now rewrite H2 |]. clear s1 H2.
    destruct avatar as [avatar |]; [| left; reflexivity].
    destruct (r_username b) as [username |]; [| left; reflexivity].
    rewrite run_bind_task, run_perform. cbn [site_exec]. cbv zeta.
    destruct (hd None (faults (db s2))); [left; reflexivity |].
    match goal with |- context [with_db s2 ?w] =>
      apply (@adds_from (with_db s2 w)); [reflexivity |];
      generalize (with_db s2 w) end.
    clear s2. intros s2.
    match goal with |- context [create ?d s2] =>
      pose proof (create_adds d s2) as H3;
      destruct (create d s2) as [[e | user] s3] end; cbn [snd] in H3;
      [exact H3 |].
    rewrite run_bind_task, run_perform. cbn [site_exec]. cbv zeta.
    destruct (hd None (faults (db s3))); [exact H3 |].
    destruct (option_map select_document _); exact H3. }
  rewrite run_registerUser.
  destruct (run_task (registerUser_controller req) s) as [[e | a] s'];
    exact H.
Qed.

(** What is behind an answer of [registerUser] that is not an error. *)
Lemma registered_inv (req : RegisterRequest) (s s' : Site) (st : JsVal)
  (c : Z) (d : Document) (msg : string) :
  faults (db s) = [] ->
  run_task (registerUser req) s
  = (inr {| r_status := st; r_json := RegisterResponse c d msg |}, s') ->
  exists uname mail name pw avatar cover : string,
    reg_body req =
      Some {| r_username := Some uname; r_email := Some mail;
              r_fullname := Some name; r_password := Some pw |}
    /\ existsb is_blank [Some name; Some mail; Some uname; Some pw] = false
    /\ find (matches_or (Some uname) (Some mail)) (users (db s)) = None
    /\ {| r_status := st; r_json := RegisterResponse c d msg |}
       = welcomed (registered (users (db s)) uname mail name pw) avatar cover
    /\ db s' = {| users := users (db s)
                           ++ [registered (users (db s)) uname mail name pw];
                  now := now (db s); faults := [] |}.
Proof.
  intros Hf Hrun. rewrite run_registerUser in Hrun.
  destruct (run_task (registerUser_controller req) s) as [[e | a] s0] eqn:Hc.
  { exfalso. injection Hrun as Hrun _.
    exact (answer_error_site_shows_none _ Hrun). }
  injection Hrun as -> ->. revert Hc.
  rewrite run_registerUser_controller by exact Hf.
  destruct (reg_body req) as [[un em fn pw] |]; [| discriminate].
  cbn [r_username r_email r_fullname r_password].
  destruct (existsb is_blank [fn; em; un; pw]) eqn:Hblank; [discriminate |].
  destruct (find (matches_or un em) (users (db s))) eqn:Hfind; [discriminate |].
  destruct (negb (truthy_str (avatarLocalPath req))); [discriminate |].
  pose proof (upload_keeps_db (avatarLocalPath req) s) as [H1 _].
  destruct (run_task (uploadOnCloudinary (avatarLocalPath req)) s)
    as [[e | avatar] s1]; [discriminate |]. cbn [snd] in H1.
  pose proof (upload_keeps_db (coverImageLocalPath req) s1) as [H2 _].
  destruct (run_task (uploadOnCloudinary (coverImageLocalPath req)) s1)
    as [[e | coverImage] s2]; [discriminate |]. cbn [snd] in H2.
  rewrite H1 in H2.
  destruct avatar as [avatar |]; [| discriminate].
  destruct un as [uname |]; [| discriminate].
  unfold create. cbn [n_fullname n_email n_password n_username n_avatar
                      n_coverImage]. cbv zeta.
  destruct (refuses (users (db s2)) _); [discriminate |].
  destruct fn as [name |]; [| discriminate].
  destruct em as [mail |]; [| discriminate].
  destruct pw as [pw |]; [| discriminate].
  rewrite H2.
  change (fresh (users (db s))) with (_id (registered (users (db s)) uname mail name pw)).
  fold (registered (users (db s)) uname mail name pw).
  pose proof (@document_registered s2 (registered (users (db s)) uname mail name pw)
                (url avatar,
                 str_of (or_str (option_map url coverImage) (Some EmptyString))))
    as Hdoc.
  rewrite H2 in Hdoc. specialize (Hdoc eq_refl).
  cbn [_id registered] in Hdoc |- *.
  unfold registered in Hdoc |- *. cbn [_id] in Hdoc |- *.
  rewrite Hdoc. cbn [option_map select_document d_user d_avatar d_coverImage
                     fst snd].
  intros [= <- <- <- <- <-].
  exists uname, mail, name, pw, (url avatar),
    (str_of (or_str (option_map url coverImage) (Some EmptyString))).
  repeat split; try assumption. cbn [db]. rewrite Hf. reflexivity.
Qed.

(** X22.  Every answer of [registerUser] that is not an error has the HTTP
    status 201 and the status code 200 in its body, comes from a body
    with its four fields, none of them blank, and shows, without its
    password, the user that is now in the store: the last one, under the
    user name in lower case. *)
Theorem register_success_means_created :
  forall (req : RegisterRequest) (s s' : Site) (st : JsVal) (c : Z)
         (d : Document) (msg : string),
    faults (db s) = [] ->
    run_task (registerUser req) s
    = (inr {| r_status := st; r_json := RegisterResponse c d msg |}, s') ->
    st = JNum 201 /\ c = 200
    /\ password (d_user d) = None
    /\ exists (b : RegisterBody) (uname : string) (u : User),
         reg_body req = Some b
         /\ r_username b = Some uname
         /\ existsb is_blank
              [r_fullname b; r_email b; r_username b; r_password b] = false
         /\ users (db s') = (users (db s) ++ [u])%list
         /\ username u = toLowerCase uname
         /\ d_user d = select_safe u.
Proof.
  intros req s s' st c d msg Hf Hrun.
  destruct (@registered_inv req s s' st c d msg Hf Hrun)
    as (uname & mail & name & pw & avatar & cover & Hb & Hblank & _ & Hw & Hdb).
  injection Hw as -> -> -> _.
  repeat split.
  eexists _, uname, (registered (users (db s)) uname mail name pw).
  rewrite Hb, Hdb. repeat split. exact Hblank.
Qed.

End Register.


(** * From registration to login *)

Lemma find_none_weaken (f g : User -> bool) (us : list User) :
  (forall u, g u = true -> f u = true) ->
  find f us = None -> find g us = None.
Proof.
  intros H. induction us as [| v us IH]; [reflexivity |]. cbn [find].
  destruct (f v) eqn:Hfv; [discriminate |]. intros Hn.
  destruct (g v) eqn:Hgv; [| exact (IH Hn)].
  apply H in Hgv. congruence.
Qed.

Lemma not_blank_not_empty {P : Platform} (str : string) :
  is_blank (Some str) = false -> str <> EmptyString.
Proof.
  intros H ->. cbn [is_blank] in H. rewrite trim_empty in H. discriminate H.
Qed.

Section Enrolment.

Context {E : Environment} {P : Platform}.

(** X23.  A user whose registration was answered without an error can log in
    at once with the email and the password of the registration, provided
    the check of the model accepts the password that the model hashed:
    the login finds the new user and no other, shows the user as the
    registration did, and starts the first session of the user. *)
Theorem register_then_login :
  forall (req : RegisterRequest) (s s' : Site) (st : JsVal) (c : Z)
         (d : Document) (msg : string) (b : RegisterBody) (mail pw : string),
    faults (db s) = [] ->
    run_task (registerUser req) s
    = (inr {| r_status := st; r_json := RegisterResponse c d msg |}, s') ->
    reg_body req = Some b ->
    r_email b = Some mail ->
    r_password b = Some pw ->
    (forall u : User,
        password u = Some (hashed pw) -> isPasswordCorrect u pw = true) ->
    exists (a r : string) (w' : World),
      run (loginUser (email_login mail pw)) (db s')
      = (inr (logged_in (Some (d_user d)) a r), w')
      /\ persisted (_id (d_user d)) (users w') = Some r.
Proof.
  intros req s s' st c d msg b mail pw Hf Hrun Hb Hmail Hpw Hcheck.
  destruct (@registered_inv E P req s s' st c d msg Hf Hrun)
    as (uname & mail' & name & pw' & avatar & cover
        & Hb' & Hblank & Hfind & Hw & Hdb).
  rewrite Hb in Hb'. injection Hb' as ->. cbn in Hmail, Hpw.
  injection Hmail as <-. injection Hpw as <-.
  injection Hw as _ _ -> _.
  cbn [existsb] in Hblank.
  apply orb_false_iff in Hblank. destruct Hblank as [_ Hblank].
  apply orb_false_iff in Hblank. destruct Hblank as [Hm Hblank].
  apply orb_false_iff in Hblank. destruct Hblank as [_ Hblank].
  apply orb_false_iff in Hblank. destruct Hblank as [Hp _].
  apply not_blank_not_empty in Hm. apply not_blank_not_empty in Hp.
  set (u := registered (users (db s)) uname mail' name pw') in *.
  assert (Hlook : find (matches_or None (Some mail'))
                    (users (db s) ++ [u]) = Some u).
  { apply find_app_one.
    - apply (@find_none_weaken (matches_or (Some uname) (Some mail'))); [| exact Hfind].
      intros v Hv. unfold matches_or in *. cbn [opt_eqb orb] in Hv |- *.
      rewrite Hv. apply orb_true_r.
    - unfold matches_or. cbn [opt_eqb orb u registered email].
      apply String.eqb_refl. }
  assert (Hid : find (has_id (_id u)) (users (db s) ++ [u]) = Some u).
  { apply find_app_one; [apply find_fresh | apply N.eqb_refl]. }
  rewrite (@run_loginUser E (email_login mail' pw')
             {| b_username := None; b_email := Some mail';
                b_password := Some pw'; b_refreshToken := None |}
             (db s') eq_refl) by (rewrite Hdb; reflexivity).
  cbn [b_username b_email b_password or_str truthy_str str_of].
  rewrite (proj2 (String.eqb_neq _ _) Hm), (proj2 (String.eqb_neq _ _) Hp).
  cbn [negb orb]. rewrite Hdb. cbn [users now].
  rewrite Hlook, (Hcheck u eq_refl), Hid. cbv zeta.
  eexists _, _, _. split; [reflexivity |].
  unfold persisted. cbn [users d_user select_safe _id].
  rewrite find_update_found with (u := u) by (exact Hid || reflexivity).
  reflexivity.
Qed.

End Enrolment.


(** * Registration at work on the reference platform *)

#[local] Existing Instance Reference.env.
#[local] Existing Instance ReferenceSite.platform.

Lemma upload_null_only_without_path_witness :
  fst (run_task (P := ReferenceSite.platform)
         (uploadOnCloudinary (Some "carol.png")) ReferenceSite.site)
  <> inr None.
Proof.
  exact (proj2 (@upload_null_only_without_path ReferenceSite.platform
                  (Some "carol.png") ReferenceSite.site) eq_refl).
Defined.

Lemma upload_errors_are_reference_errors_witness :
  let s' := logged ReferenceSite.site "Cloudinary upload failed: Request Timeout" in
  ReferenceError = ReferenceError
  /\ disk s' = disk ReferenceSite.site
  /\ db s' = db ReferenceSite.site
  /\ exists line : string,
       console s' = (console ReferenceSite.site ++ [line])%list.
Proof.
  intros s'.
  exact (@upload_errors_are_reference_errors ReferenceSite.platform
           (Some "broken.png") ReferenceSite.site s' ReferenceError eq_refl).
Defined.

Lemma upload_response_means_moved_witness :
  exists p : string,
    Some "carol.png" = Some p /\ p <> EmptyString
    /\ cloud (Platform := ReferenceSite.platform) (resolve p)
       = inr {| url := "http://res.cloudinary.com/demo/srv/app/carol.png" |}
    /\ has_file (resolve p) (disk ReferenceSite.site) = true
    /\ moved ReferenceSite.site "/srv/app/carol.png"
       = moved ReferenceSite.site (resolve p).
Proof.
  exact (@upload_response_means_moved ReferenceSite.platform
           (Some "carol.png") ReferenceSite.site
           (moved ReferenceSite.site "/srv/app/carol.png")
           {| url := "http://res.cloudinary.com/demo/srv/app/carol.png" |}
           eq_refl).
Defined.

Lemma upload_orphan_witness :
  exists s' : Site,
    run_task (P := ReferenceSite.platform)
      (uploadOnCloudinary (Some "ghost.png")) ReferenceSite.site
    = (inl ReferenceError, s')
    /\ uploaded s' = ["/srv/app/ghost.png"].
Proof.
  refine (@upload_orphan ReferenceSite.platform "ghost.png" ReferenceSite.site
            {| url := "http://res.cloudinary.com/demo/srv/app/ghost.png" |}
            _ eq_refl eq_refl).
  discriminate.
Defined.

Lemma register_blank_field_witness :
  run_task (P := ReferenceSite.platform)
    (registerUser
       (ReferenceSite.register_request (ReferenceSite.carol (Some "   "))
          ["carol.png"] []))
    ReferenceSite.site
  = (inr (refused 400 "All fields are required."), ReferenceSite.site).
Proof.
  exact (@register_blank_field Reference.env ReferenceSite.platform
           (ReferenceSite.register_request (ReferenceSite.carol (Some "   "))
              ["carol.png"] [])
           (ReferenceSite.carol (Some "   ")) ReferenceSite.site
           (Some "   ") "   " eq_refl
           (or_intror (or_intror (or_introl eq_refl))) eq_refl eq_refl).
Defined.

Lemma register_without_username_witness :
  run_task (P := ReferenceSite.platform)
    (registerUser
       (ReferenceSite.register_request (ReferenceSite.carol None)
          ["carol.png"] []))
    ReferenceSite.site
  = (inr (refused 500
            "Cannot read properties of undefined (reading 'toLowerCase')"),
     moved ReferenceSite.site "/srv/app/carol.png").
Proof.
  refine (@register_without_username Reference.env ReferenceSite.platform
            (ReferenceSite.register_request (ReferenceSite.carol None)
               ["carol.png"] [])
            (ReferenceSite.carol None) ReferenceSite.site "carol.png"
            {| url := "http://res.cloudinary.com/demo/srv/app/carol.png" |}
            eq_refl eq_refl eq_refl eq_refl eq_refl eq_refl _
            eq_refl eq_refl eq_refl).
  discriminate.
Defined.

Lemma register_refusals_witness :
  run_task (P := ReferenceSite.platform)
    (registerUser
       (ReferenceSite.register_request (ReferenceSite.carol (Some "alice"))
          ["carol.png"] ["cover.png"]))
    ReferenceSite.site
  = (inr (refused 409 "User with email or username already exists."),
     ReferenceSite.site).
Proof.
  exact (proj1 (@register_refusals Reference.env ReferenceSite.platform
                  (ReferenceSite.register_request
                     (ReferenceSite.carol (Some "alice"))
                     ["carol.png"] ["cover.png"])
                  (ReferenceSite.carol (Some "alice")) ReferenceSite.site
                  eq_refl eq_refl eq_refl)
           Reference.alice eq_refl).
Defined.

Lemma register_upload_fails_witness :
  run_task (P := ReferenceSite.platform)
    (registerUser
       (ReferenceSite.register_request (ReferenceSite.carol (Some "Carol"))
          ["broken.png"] []))
    ReferenceSite.site
  = (inr (refused 500 "resolvedPath is not defined"),
     logged ReferenceSite.site "Cloudinary upload failed: Request Timeout").
Proof.
  refine (proj1 (@register_upload_fails Reference.env ReferenceSite.platform
                   (ReferenceSite.register_request
                      (ReferenceSite.carol (Some "Carol")) ["broken.png"] [])
                   (ReferenceSite.carol (Some "Carol")) ReferenceSite.site
                   "broken.png" eq_refl eq_refl eq_refl eq_refl eq_refl _)
            ReferenceSite.RequestTimeout eq_refl).
  discriminate.
Defined.


Lemma register_success_means_created_witness :
  let s := ReferenceSite.site in
  let u := registered (P := ReferenceSite.platform)
             [Reference.alice; Reference.bob]
             "Carol" "carol@example.com" "Carol" "pa55word" in
  let d := {| d_user := select_safe u;
              d_avatar := "http://res.cloudinary.com/demo/srv/app/carol.png";
              d_coverImage := EmptyString |} in
  let s' := enrolled (moved s "/srv/app/carol.png") u
              "http://res.cloudinary.com/demo/srv/app/carol.png" EmptyString in
  JNum 201 = JNum 201 /\ 200 = 200
  /\ password (d_user d) = None
  /\ exists (b : RegisterBody) (uname : string) (v : User),
       Some (ReferenceSite.carol (Some "Carol")) = Some b
       /\ r_username b = Some uname
       /\ existsb is_blank
            [r_fullname b; r_email b; r_username b; r_password b] = false
       /\ users (db s') = (users (db s) ++ [v])%list
       /\ username v = toLowerCase uname
       /\ d_user d = select_safe v.
Proof.
  intros s u d s'.
  exact (@register_success_means_created Reference.env ReferenceSite.platform
           (ReferenceSite.register_request
              (ReferenceSite.carol (Some "Carol")) ["carol.png"] [])
           s s' (JNum 201) 200 d "User registerd successfully."
           eq_refl eq_refl).
Defined.

Lemma register_then_login_witness :
  let s := ReferenceSite.site in
  let u := registered (P := ReferenceSite.platform)
             [Reference.alice; Reference.bob]
             "Carol" "carol@example.com" "Carol" "pa55word" in
  let s' := enrolled (moved s "/srv/app/carol.png") u
              "http://res.cloudinary.com/demo/srv/app/carol.png" EmptyString in
  exists (a r : string) (w' : World),
    run (loginUser (E := Reference.env)
           (email_login "carol@example.com" "pa55word")) (db s')
    = (inr (logged_in (Some (select_safe u)) a r), w')
    /\ persisted (_id u) (users w') = Some r.
Proof.
  intros s u s'.
  refine (@register_then_login Reference.env ReferenceSite.platform
            (ReferenceSite.register_request
               (ReferenceSite.carol (Some "Carol")) ["carol.png"] [])
            s s' (JNum 201) 200
            {| d_user := select_safe u;
               d_avatar := "http://res.cloudinary.com/demo/srv/app/carol.png";
               d_coverImage := EmptyString |}
            "User registerd successfully."
            (ReferenceSite.carol (Some "Carol")) "carol@example.com" "pa55word"
            eq_refl eq_refl eq_refl eq_refl eq_refl _).
  intros v Hv. cbn. unfold Reference.check. rewrite Hv. reflexivity.
Defined.
